(** * Youtube-Agent: response normalisation, history store and chat routing

    A shallow embedding of the TypeScript sources of the repository and the
    properties of the specification that concern them.  The sources hold
    two revisions of the service and of the application shell:
    - [GeminiService]: src/services/geminiService.ts, lines 459-618, the
      current revision (it exports [sanitizeData], which the current shell
      imports);
    - [Legacy]: the same file, lines 1-458, the earlier revision;
    - [LegacyApp]: src/App.tsx, the earlier App component, which calls the
      earlier service;
    - [App]: src/unnamed/part_002, lines 115-670, the current App component;
    - [Chat]: src/components/LoadingSkeleton.tsx, lines 89-308, the unified
      ChatInterface component;
    - [Pdf]: src/unnamed/part_000, the PDF reader the shell calls;
    - [Quiz]: src/components/QuizInterface.tsx, the quiz component;
    - [Result]: src/components/ChatInterface.tsx, lines 652-1150, the
      current AnalysisResult component.
    Line numbers in the comments are those of these files.

    Conventions of the embedding.
    - A JavaScript string is a Rocq [string]; every character stands for one
      UTF-16 code unit below 256.  The texts the modelled code inspects (JSON
      syntax, code fences, URL shapes, identifiers) are ASCII.
    - A JavaScript value is a [JsVal].  Objects are association lists in
      property-creation order: reading a property finds the first binding,
      writing replaces it in place or appends a new one.  (The engine lists
      integer-like keys first; no modelled code depends on that order.)
    - Numbers are exact decimals [m * 10^e] in normal form; NaN and the
      infinities cannot come out of JSON and are not represented.
    - Code that may throw returns a [Res]; [try]/[catch] is a [match]. *)

From Stdlib Require Import List String Ascii ZArith NArith Bool Arith Lia.
From Stdlib Require Import DecimalString.
Import ListNotations.

#[local] Set Warnings "-register-all".

Local Open Scope string_scope.
Local Open Scope list_scope.

(* ================================================================== *)
(** ** JavaScript values, exceptions and the error monad               *)
(* ================================================================== *)

Module Js.

Inductive JsVal : Type :=
| JUndefined
| JNull
| JBool (b : bool)
| JNum (m e : Z)
| JStr (s : string)
| JArr (xs : list JsVal)
| JObj (kvs : list (string * JsVal)).

(** An object seen as its own-property list. *)
Definition Obj : Type := list (string * JsVal).

(** The exceptions the modelled code raises: [new Error(message)], and the
    engine's [TypeError] (property read on null or undefined, call of a
    non-function) and [SyntaxError] (JSON.parse). *)
Inductive Exn : Type :=
| Error (message : string)
| TypeError
| SyntaxError.

(** [err.message]: the text of the engine's own errors is engine defined;
    the model fixes a representative. *)
Definition message_of (e : Exn) : string :=
  match e with
  | Error m => m
  | TypeError => "TypeError"
  | SyntaxError => "SyntaxError"
  end.

Inductive Res (A : Type) : Type :=
| Ok (a : A)
| Throw (e : Exn).
Arguments Ok {A} a.
Arguments Throw {A} e.

Definition bind {A B : Type} (r : Res A) (k : A -> Res B) : Res B :=
  match r with
  | Ok a => k a
  | Throw e => Throw e
  end.

Fixpoint mapM {A B : Type} (f : A -> Res B) (l : list A) : Res (list B) :=
  match l with
  | [] => Ok []
  | x :: r =>
      bind (f x) (fun y => bind (mapM f r) (fun ys => Ok (y :: ys)))
  end.

(** *** Truthiness and the short-circuit operators *)

Definition truthy (v : JsVal) : bool :=
  match v with
  | JUndefined | JNull => false
  | JBool b => b
  | JNum m _ => negb (m =? 0)%Z
  | JStr s => negb (s =? "")
  | JArr _ | JObj _ => true
  end.

(** [a || b] on values. *)
Definition js_or (a b : JsVal) : JsVal := if truthy a then a else b.

(** *** Properties *)

Fixpoint lookup (k : string) (o : Obj) : option JsVal :=
  match o with
  | [] => None
  | (k', v) :: r => if k' =? k then Some v else lookup k r
  end.

(** Property write on an object under construction. *)
Fixpoint obj_set (k : string) (v : JsVal) (o : Obj) : Obj :=
  match o with
  | [] => [(k, v)]
  | (k', v') :: r =>
      if k' =? k then (k, v) :: r else (k', v') :: obj_set k v r
  end.

(** The property definitions of an object literal, after its spread. *)
Definition obj_literal (base : Obj) (props : list (string * JsVal)) : Obj :=
  fold_left (fun o kv => obj_set (fst kv) (snd kv) o) props base.

Definition field (o : Obj) (k : string) : JsVal :=
  match lookup k o with
  | Some v => v
  | None => JUndefined
  end.

(** [v.k] for a [v] that is neither null nor undefined.  The names the
    modelled code reads are no properties of the built-in prototypes, so a
    primitive or an array answers [undefined]. *)
Definition prop (v : JsVal) (k : string) : JsVal :=
  match v with
  | JObj kvs => field kvs k
  | _ => JUndefined
  end.

(** [v.k] in general: reading a property of null or undefined throws. *)
Definition getProp (v : JsVal) (k : string) : Res JsVal :=
  match v with
  | JUndefined | JNull => Throw TypeError
  | _ => Ok (prop v k)
  end.

Definition nat_to_string (n : nat) : string :=
  NilZero.string_of_uint (Nat.to_uint n).

Fixpoint indexed {A : Type} (i : nat) (l : list A) : list (string * A) :=
  match l with
  | [] => []
  | x :: r => (nat_to_string i, x) :: indexed (S i) r
  end.

Fixpoint chars (s : string) : list JsVal :=
  match s with
  | EmptyString => []
  | String c r => JStr (String c EmptyString) :: chars r
  end.

(** [{...v}]: the own enumerable properties of [v]. *)
Definition spread (v : JsVal) : Obj :=
  match v with
  | JObj kvs => kvs
  | JArr xs => indexed 0 xs
  | JStr s => indexed 0 (chars s)
  | _ => []
  end.

Definition isArray (v : JsVal) : bool :=
  match v with
  | JArr _ => true
  | _ => false
  end.

Definition items (v : JsVal) : list JsVal :=
  match v with
  | JArr xs => xs
  | _ => []
  end.

(** [v === s] for a string [s]. *)
Definition is_str (v : JsVal) (s : string) : bool :=
  match v with
  | JStr s' => s' =? s
  | _ => false
  end.

(** Strip the trailing zeros of a decimal mantissa. *)
Fixpoint strip_zeros (fuel : nat) (m e : Z) : Z * Z :=
  match fuel with
  | O => (m, e)
  | S f =>
      if (m =? 0)%Z then (0, 0)%Z
      else if (m mod 10 =? 0)%Z then strip_zeros f (m / 10)%Z (e + 1)%Z
      else (m, e)
  end.

Definition bits (m : Z) : nat :=
  match m with
  | Z0 => 1
  | Zpos p | Zneg p => S (Pos.size_nat p)
  end.

Definition num (m e : Z) : JsVal :=
  let (m', e') := strip_zeros (bits m) m e in JNum m' e'.

Definition Z_to_string (z : Z) : string :=
  NilZero.string_of_int (Z.to_int z).

(** *** Strict equality and conversion to text *)

(** [a === b].  An object or an array equals nothing but itself, and the
    model keeps no identities: the comparison is used where the two sides
    come out of different replies or stored texts, so that two containers
    are two objects. *)
Definition strict_eq (a b : JsVal) : bool :=
  match a, b with
  | JUndefined, JUndefined | JNull, JNull => true
  | JBool x, JBool y => Bool.eqb x y
  | JNum m e, JNum m' e' =>
      let (a1, a2) := strip_zeros (bits m) m e in
      let (b1, b2) := strip_zeros (bits m') m' e' in
      ((a1 =? b1) && (a2 =? b2))%Z
  | JStr s, JStr t => s =? t
  | _, _ => false
  end.

Fixpoint zeros (n : nat) : string :=
  match n with
  | O => ""
  | S k => String "0" (zeros k)
  end.

(** [Number.prototype.toString] on the decimal [m * 10^e]: with [k]
    significant digits and the decimal point after the first [n] of them,
    the digits are written out when [n] lies between -5 and 21 and in
    exponent notation otherwise. *)
Definition numberText (m e : Z) : string :=
  let (m', e') := strip_zeros (bits m) m e in
  if (m' =? 0)%Z then "0"
  else
    let sign := if (m' <? 0)%Z then "-" else "" in
    let ds := Z_to_string (Z.abs m') in
    let k := Z.of_nat (String.length ds) in
    let n := (k + e')%Z in
    (sign ++
     (if ((k <=? n) && (n <=? 21))%Z then ds ++ zeros (Z.to_nat (n - k))
      else if ((0 <? n) && (n <=? 21))%Z then
        String.substring 0 (Z.to_nat n) ds ++ "."
        ++ String.substring (Z.to_nat n) (Z.to_nat (k - n)) ds
      else if ((-6 <? n) && (n <=? 0))%Z then
        "0." ++ zeros (Z.to_nat (- n)) ++ ds
      else
        let x := (n - 1)%Z in
        (if (k =? 1)%Z then ds
         else String.substring 0 1 ds ++ "."
              ++ String.substring 1 (Z.to_nat (k - 1)) ds)
        ++ "e" ++ (if (x <? 0)%Z then "-" else "+")
        ++ Z_to_string (Z.abs x)))%string.

(** The text a template literal makes of a value.  An array is the texts
    of its elements joined by commas, null and undefined counting as empty.
    An object of a JSON text has the text [[object Object]], unless it
    carries a property [toString] of its own: that value is no function,
    the inherited [valueOf] answers the object itself, and the conversion
    throws. *)
Fixpoint toText (v : JsVal) : Res string :=
  match v with
  | JUndefined => Ok "undefined"
  | JNull => Ok "null"
  | JBool b => Ok (if b then "true" else "false")
  | JNum m e => Ok (numberText m e)
  | JStr s => Ok s
  | JArr xs =>
      (fix join (l : list JsVal) : Res string :=
         match l with
         | [] => Ok ""
         | x :: r =>
             bind (match x with
                   | JUndefined | JNull => Ok ""
                   | _ => toText x
                   end)
               (fun head =>
                  match r with
                  | [] => Ok head
                  | _ => bind (join r) (fun tail => Ok (head ++ "," ++ tail)%string)
                  end)
         end) xs
  | JObj kvs =>
      match lookup "toString" kvs with
      | Some _ => Throw TypeError
      | None => Ok "[object Object]"
      end
  end.

End Js.
Export Js.

Declare Scope res_scope.
Delimit Scope res_scope with res.
Notation "x <- c ;; k" := (bind c (fun x => k))
  (at level 61, c at next level, right associativity) : res_scope.
Local Open Scope res_scope.

(* ================================================================== *)
(** ** String primitives of the runtime                                *)
(* ================================================================== *)

Module Str.

Definition code (c : ascii) : N := N_of_ascii c.

(** The double quote, as a character and as a one-character string. *)
Definition dquote : ascii := ascii_of_N 34.
Definition q : string := String dquote EmptyString.

(** WhiteSpace and LineTerminator code units below 256: what [trim] strips
    and what [\s] matches. *)
Definition is_space (c : ascii) : bool :=
  let n := code c in
  ((9 <=? n) && (n <=? 13) || (n =? 32) || (n =? 160))%N.

(** What [.] does not match. *)
Definition is_line_terminator (c : ascii) : bool :=
  let n := code c in ((n =? 10) || (n =? 13))%N.

(** [\w] *)
Definition is_word (c : ascii) : bool :=
  let n := code c in
  ((48 <=? n) && (n <=? 57) || (65 <=? n) && (n <=? 90)
   || (97 <=? n) && (n <=? 122) || (n =? 95))%N.

Fixpoint drop (n : nat) (s : string) : string :=
  match n, s with
  | O, _ => s
  | S n', String _ r => drop n' r
  | S _, EmptyString => EmptyString
  end.

Fixpoint take (n : nat) (s : string) : string :=
  match n, s with
  | S n', String c r => String c (take n' r)
  | _, _ => EmptyString
  end.

Fixpoint take_while (p : ascii -> bool) (s : string) : string :=
  match s with
  | String c r => if p c then String c (take_while p r) else EmptyString
  | EmptyString => EmptyString
  end.

Fixpoint trimStart (s : string) : string :=
  match s with
  | String c r => if is_space c then trimStart r else s
  | EmptyString => EmptyString
  end.

Fixpoint trimEnd (s : string) : string :=
  match s with
  | EmptyString => EmptyString
  | String c r =>
      match trimEnd r with
      | EmptyString => if is_space c then EmptyString else String c EmptyString
      | r' => String c r'
      end
  end.

(** [s.trim()] *)
Definition trim (s : string) : string := trimEnd (trimStart s).

(** [s.startsWith(p)] *)
Fixpoint startsWith (p s : string) : bool :=
  match p, s with
  | EmptyString, _ => true
  | String a p', String b s' => Ascii.eqb a b && startsWith p' s'
  | String _ _, EmptyString => false
  end.

(** [s.indexOf(p)], [None] for -1. *)
Fixpoint indexOf (p s : string) : option nat :=
  if startsWith p s then Some O
  else
    match s with
    | EmptyString => None
    | String _ r => option_map S (indexOf p r)
    end.

(** [s.includes(p)] *)
Definition includes (p s : string) : bool :=
  match indexOf p s with
  | Some _ => true
  | None => false
  end.

(** [s.lastIndexOf(c)] for a one-character pattern. *)
Fixpoint lastIndexOf (c : ascii) (s : string) : option nat :=
  match s with
  | EmptyString => None
  | String a r =>
      match lastIndexOf c r with
      | Some i => Some (S i)
      | None => if Ascii.eqb a c then Some O else None
      end
  end.

(** [s.substring(a, b)]: the arguments are swapped when [a > b]; indices
    past the end are clamped by [take] and [drop]. *)
Definition substring (a b : nat) (s : string) : string :=
  if (a <=? b)%nat then take (b - a) (drop a s) else take (a - b) (drop b s).

Definition endsWith (p s : string) : bool :=
  (String.length p <=? String.length s)%nat
  && (drop (String.length s - String.length p) s =? p).

(** [s.replace(/p/g, "")] for a literal, non-empty [p]: the occurrences are
    found left to right and do not overlap; [pending] counts the characters
    of the occurrence under deletion that are still to be skipped. *)
Fixpoint remove_from (p : string) (pending : nat) (s : string) : string :=
  match s with
  | EmptyString => EmptyString
  | String c r =>
      match pending with
      | S k => remove_from p k r
      | O =>
          if startsWith p s then remove_from p (String.length p - 1) r
          else String c (remove_from p O r)
      end
  end.

Definition removeAll (p s : string) : string := remove_from p O s.

Definition lower (c : ascii) : ascii :=
  let n := code c in
  if ((65 <=? n) && (n <=? 90))%N then ascii_of_N (n + 32) else c.

(** [s.toLowerCase()] on the ASCII letters. *)
Fixpoint toLowerCase (s : string) : string :=
  match s with
  | EmptyString => EmptyString
  | String c r => String (lower c) (toLowerCase r)
  end.

(** [s.replace(p, "")] for a string pattern [p]: the first occurrence
    goes, the others stay. *)
Definition removeFirst (p s : string) : string :=
  match indexOf p s with
  | Some i => take i s ++ drop (i + String.length p) s
  | None => s
  end.

End Str.

(* ================================================================== *)
(** ** JSON.parse                                                      *)
(* ================================================================== *)

(** The grammar of ECMA-404 as a scanner (a finite automaton over the
    characters that emits tokens) followed by a pushdown recogniser over
    the tokens.  Both run by structural recursion on their input, so the
    model of [JSON.parse] is total: it answers a value or [SyntaxError]. *)

Module Json.
Import Str.

Inductive Token : Type :=
| TLBrace | TRBrace | TLBrack | TRBrack | TColon | TComma
| TScalar (v : JsVal).

Inductive NumPhase : Type :=
| NMinus | NZero | NInt | NDot | NFrac | NExpMark | NExpSign | NExp.

Record NumAcc : Type := mkNum
  { neg : bool; mant : Z; scale : Z; eneg : bool; expo : Z }.

Inductive LexState : Type :=
| LDefault
| LLit (rest : string) (v : JsVal)
| LStr (acc : string)
| LEsc (acc : string)
| LUni (acc : string) (k : nat) (cu : N)
| LNum (ph : NumPhase) (a : NumAcc).

Definition digit (c : ascii) : option Z :=
  let n := code c in
  if ((48 <=? n) && (n <=? 57))%N then Some (Z.of_N n - 48)%Z else None.

Definition hex (c : ascii) : option N :=
  let n := code c in
  if ((48 <=? n) && (n <=? 57))%N then Some (n - 48)%N
  else if ((65 <=? n) && (n <=? 70))%N then Some (n - 55)%N
  else if ((97 <=? n) && (n <=? 102))%N then Some (n - 87)%N
  else None.

(** JSON's own whitespace: tab, line feed, carriage return, space. *)
Definition is_json_ws (c : ascii) : bool :=
  let n := code c in ((n =? 9) || (n =? 10) || (n =? 13) || (n =? 32))%N.

Definition snoc (s : string) (c : ascii) : string :=
  s ++ String c EmptyString.

(** The characters of a [\uXXXX] escape.  A code unit below 256 is one
    character; a larger one lies outside the character range of the model
    and is kept as the bytes of its UTF-8 form. *)
Definition unit_chars (cu : N) : string :=
  if (cu <? 256)%N then String (ascii_of_N cu) EmptyString
  else if (cu <? 2048)%N then
    String (ascii_of_N (192 + cu / 64))
      (String (ascii_of_N (128 + cu mod 64)) EmptyString)
  else
    String (ascii_of_N (224 + cu / 4096))
      (String (ascii_of_N (128 + (cu / 64) mod 64))
         (String (ascii_of_N (128 + cu mod 64)) EmptyString)).

Definition number_of (a : NumAcc) : JsVal :=
  num (if neg a then - mant a else mant a)%Z
      ((if eneg a then - expo a else expo a) - scale a)%Z.

Definition push_digit (a : NumAcc) (d : Z) (frac : bool) : NumAcc :=
  mkNum (neg a) (mant a * 10 + d)%Z
        (if frac then scale a + 1 else scale a)%Z (eneg a) (expo a).

Definition push_exp (a : NumAcc) (d : Z) : NumAcc :=
  mkNum (neg a) (mant a) (scale a) (eneg a) (expo a * 10 + d)%Z.

Definition start_num (negative : bool) (d : Z) : NumAcc :=
  mkNum negative d 0 false 0.

(** One character read between tokens. *)
Definition lex_default (c : ascii) : option (LexState * list Token) :=
  if is_json_ws c then Some (LDefault, [])
  else if Ascii.eqb c dquote then Some (LStr EmptyString, [])
  else
    match c with
    | "{"%char => Some (LDefault, [TLBrace])
    | "}"%char => Some (LDefault, [TRBrace])
    | "["%char => Some (LDefault, [TLBrack])
    | "]"%char => Some (LDefault, [TRBrack])
    | ":"%char => Some (LDefault, [TColon])
    | ","%char => Some (LDefault, [TComma])
    | "-"%char => Some (LNum NMinus (start_num true 0), [])
    | "t"%char => Some (LLit "rue" (JBool true), [])
    | "f"%char => Some (LLit "alse" (JBool false), [])
    | "n"%char => Some (LLit "ull" JNull, [])
    | _ =>
        match digit c with
        | Some 0%Z => Some (LNum NZero (start_num false 0), [])
        | Some d => Some (LNum NInt (start_num false d), [])
        | None => None
        end
    end.

Definition is_exp_mark (c : ascii) : bool :=
  Ascii.eqb c "e" || Ascii.eqb c "E".

(** The number is complete: emit it and read [c] afresh. *)
Definition end_number (a : NumAcc) (c : ascii)
  : option (LexState * list Token) :=
  match lex_default c with
  | Some (st, out) => Some (st, TScalar (number_of a) :: out)
  | None => None
  end.

Definition lex_number (ph : NumPhase) (a : NumAcc) (c : ascii)
  : option (LexState * list Token) :=
  match ph with
  | NMinus =>
      match digit c with
      | Some 0%Z => Some (LNum NZero a, [])
      | Some d => Some (LNum NInt (push_digit a d false), [])
      | None => None
      end
  | NZero =>
      if Ascii.eqb c "." then Some (LNum NDot a, [])
      else if is_exp_mark c then Some (LNum NExpMark a, [])
      else end_number a c
  | NInt =>
      match digit c with
      | Some d => Some (LNum NInt (push_digit a d false), [])
      | None =>
          if Ascii.eqb c "." then Some (LNum NDot a, [])
          else if is_exp_mark c then Some (LNum NExpMark a, [])
          else end_number a c
      end
  | NDot =>
      match digit c with
      | Some d => Some (LNum NFrac (push_digit a d true), [])
      | None => None
      end
  | NFrac =>
      match digit c with
      | Some d => Some (LNum NFrac (push_digit a d true), [])
      | None =>
          if is_exp_mark c then Some (LNum NExpMark a, [])
          else end_number a c
      end
  | NExpMark =>
      match digit c with
      | Some d => Some (LNum NExp (push_exp a d), [])
      | None =>
          if Ascii.eqb c "+" then Some (LNum NExpSign a, [])
          else if Ascii.eqb c "-" then
            Some (LNum NExpSign
                    (mkNum (neg a) (mant a) (scale a) true (expo a)), [])
          else None
      end
  | NExpSign =>
      match digit c with
      | Some d => Some (LNum NExp (push_exp a d), [])
      | None => None
      end
  | NExp =>
      match digit c with
      | Some d => Some (LNum NExp (push_exp a d), [])
      | None => end_number a c
      end
  end.

Definition lex_escape (acc : string) (c : ascii)
  : option (LexState * list Token) :=
  if Ascii.eqb c dquote then Some (LStr (snoc acc c), [])
  else
  match c with
  | "\"%char | "/"%char => Some (LStr (snoc acc c), [])
  | "b"%char => Some (LStr (snoc acc (ascii_of_N 8)), [])
  | "f"%char => Some (LStr (snoc acc (ascii_of_N 12)), [])
  | "n"%char => Some (LStr (snoc acc (ascii_of_N 10)), [])
  | "r"%char => Some (LStr (snoc acc (ascii_of_N 13)), [])
  | "t"%char => Some (LStr (snoc acc (ascii_of_N 9)), [])
  | "u"%char => Some (LUni acc 0 0%N, [])
  | _ => None
  end.

Definition lex_step (st : LexState) (c : ascii)
  : option (LexState * list Token) :=
  match st with
  | LDefault => lex_default c
  | LLit rest v =>
      match rest with
      | String c' EmptyString =>
          if Ascii.eqb c c' then Some (LDefault, [TScalar v]) else None
      | String c' rest' =>
          if Ascii.eqb c c' then Some (LLit rest' v, []) else None
      | EmptyString => None
      end
  | LStr acc =>
      if Ascii.eqb c dquote then Some (LDefault, [TScalar (JStr acc)])
      else if Ascii.eqb c "\" then Some (LEsc acc, [])
      else if (code c <? 32)%N then None
      else Some (LStr (snoc acc c), [])
  | LEsc acc => lex_escape acc c
  | LUni acc k cu =>
      match hex c with
      | Some h =>
          let cu' := (cu * 16 + h)%N in
          if (k =? 3)%nat then Some (LStr (acc ++ unit_chars cu'), [])
          else Some (LUni acc (S k) cu', [])
      | None => None
      end
  | LNum ph a => lex_number ph a c
  end.

(** End of the text. *)
Definition lex_end (st : LexState) : option (list Token) :=
  match st with
  | LDefault => Some []
  | LNum (NZero | NInt | NFrac | NExp) a => Some [TScalar (number_of a)]
  | _ => None
  end.

Fixpoint lex_from (st : LexState) (s : string) : option (list Token) :=
  match s with
  | EmptyString => lex_end st
  | String c r =>
      match lex_step st c with
      | Some (st', out) =>
          match lex_from st' r with
          | Some toks => Some (out ++ toks)
          | None => None
          end
      | None => None
      end
  end.

Definition lex (s : string) : option (list Token) := lex_from LDefault s.

(** *** The recogniser *)

(** An enclosing container under construction: an array with its elements
    so far (latest first), or an object with its members so far and the key
    whose value is being read. *)
Inductive Frame : Type :=
| FArr (done : list JsVal)
| FObj (members : Obj) (key : string).

Inductive PState : Type :=
| PValue (may_close : bool) (stack : list Frame)
| PKey (may_close : bool) (members : Obj) (stack : list Frame)
| PColon (members : Obj) (key : string) (stack : list Frame)
| PAfter (v : JsVal) (stack : list Frame).

Definition parse_step (st : PState) (t : Token) : option PState :=
  match st with
  | PValue may_close stack =>
      match t with
      | TLBrace => Some (PKey true [] stack)
      | TLBrack => Some (PValue true (FArr [] :: stack))
      | TScalar v => Some (PAfter v stack)
      | TRBrack =>
          match may_close, stack with
          | true, FArr [] :: stack' => Some (PAfter (JArr []) stack')
          | _, _ => None
          end
      | _ => None
      end
  | PKey may_close members stack =>
      match t with
      | TScalar (JStr k) => Some (PColon members k stack)
      | TRBrace =>
          if may_close then Some (PAfter (JObj members) stack) else None
      | _ => None
      end
  | PColon members k stack =>
      match t with
      | TColon => Some (PValue false (FObj members k :: stack))
      | _ => None
      end
  | PAfter v stack =>
      match stack with
      | [] => None
      | FArr done :: stack' =>
          match t with
          | TComma => Some (PValue false (FArr (v :: done) :: stack'))
          | TRBrack => Some (PAfter (JArr (rev (v :: done))) stack')
          | _ => None
          end
      | FObj members k :: stack' =>
          match t with
          | TComma => Some (PKey false (obj_set k v members) stack')
          | TRBrace => Some (PAfter (JObj (obj_set k v members)) stack')
          | _ => None
          end
      end
  end.

Fixpoint parse_from (st : PState) (toks : list Token) : option JsVal :=
  match toks with
  | [] =>
      match st with
      | PAfter v [] => Some v
      | _ => None
      end
  | t :: r =>
      match parse_step st t with
      | Some st' => parse_from st' r
      | None => None
      end
  end.

(** [JSON.parse(text)] *)
Definition parse (text : string) : Res JsVal :=
  match lex text with
  | Some toks =>
      match parse_from (PValue false []) toks with
      | Some v => Ok v
      | None => Throw SyntaxError
      end
  | None => Throw SyntaxError
  end.

End Json.

(* ================================================================== *)
(** ** The service: extractor and sanitizer (current revision)         *)
(* ================================================================== *)

Module GeminiService.
Import Str.

Definition fence : string := "```".

(** Group 1 of [clean.match(/```(?:json)?([\s\S]*?)```/)]: the text between
    the first fence, with the tag [json] that may follow it, and the next
    fence; [None] when the expression does not match.  The first fence is
    the only start at which a match can succeed, and when [json] follows it
    no fence can begin inside those four characters, so giving the tag back
    never helps. *)
Definition fenced_block (clean : string) : option string :=
  match indexOf fence clean with
  | None => None
  | Some i =>
      let after := drop (i + 3) clean in
      let body := if startsWith "json" after then drop 4 after else after in
      match indexOf fence body with
      | Some j => Some (take j body)
      | None => None
      end
  end.

(** [s.replace(/^```json\s*/, "")] and [s.replace(/^```\s*/, "")] *)
Definition strip_prefix (p s : string) : string :=
  if startsWith p s then trimStart (drop (String.length p) s) else s.

(** [s.replace(/\s*```$/, "")] *)
Definition strip_closing_fence (s : string) : string :=
  if endsWith fence s then trimEnd (take (String.length s - 3) s) else s.

Definition strip_fence_markers (clean : string) : string :=
  strip_closing_fence (strip_prefix fence (strip_prefix "```json" clean)).

(** The fence handling shared by both revisions of [cleanJsonString]. *)
Definition unfence (clean : string) : string :=
  if includes fence clean then
    match fenced_block clean with
    | Some (String c r) => trim (String c r)
    | _ => strip_fence_markers clean
    end
  else clean.

(** [cleanJsonString], lines 473-483. *)
Definition cleanJsonString (text : string) : string :=
  let clean := trim text in
  let clean := removeAll "ABLES_START" clean in
  let clean := removeAll "{:.language-json}" clean in
  trim (unfence clean).

Definition closes (c : ascii) : bool :=
  Ascii.eqb c "]" || Ascii.eqb c "}".

(** Does [\s*([\]}])] match at the head of [s]? *)
Fixpoint closer_ahead (s : string) : bool :=
  match s with
  | String c r => if is_space c then closer_ahead r else closes c
  | EmptyString => false
  end.

(** [jsonStr.replace(/,\s*([\]}])/g, '$1')]: every comma that only
    whitespace separates from a closing bracket is deleted together with
    that whitespace.  [inside] holds while the whitespace of a match is
    being deleted. *)
Fixpoint repair_from (inside : bool) (s : string) : string :=
  match s with
  | EmptyString => EmptyString
  | String c r =>
      if inside && is_space c then repair_from true r
      else if Ascii.eqb c "," && closer_ahead r then repair_from true r
      else String c (repair_from false r)
  end.

Definition repairJson (jsonStr : string) : string := repair_from false jsonStr.

(** [parseGenerativeJson], lines 489-500. *)
Definition parseGenerativeJson (text : string) : Res JsVal :=
  let cleaned := cleanJsonString text in
  match Json.parse cleaned with
  | Ok v => Ok v
  | Throw _ =>
      match Json.parse (repairJson cleaned) with
      | Ok v => Ok v
      | Throw _ => Throw (Error "Failed to parse AI response.")
      end
  end.

(** [ensureArray = (item) => Array.isArray(item) ? item : []] *)
Definition ensureArray (item : JsVal) : JsVal :=
  if isArray item then item else JArr [].

(** [(s) => ({ ...s, points: ensureArray(s.points) })] *)
Definition sanitizeSection (s : JsVal) : Res JsVal :=
  points <- getProp s "points" ;;
  Ok (JObj (obj_literal (spread s) [("points", ensureArray points)])).

(** The replacement built for a truthy [data.reviewDetails]. *)
Definition sanitizeReview (rd : JsVal) : JsVal :=
  JObj (obj_literal []
    [ ("item", js_or (prop rd "item") (JStr "Unknown"));
      ("rating", prop rd "rating");
      ("pros", ensureArray (prop rd "pros"));
      ("cons", ensureArray (prop rd "cons"));
      ("verdict", js_or (prop rd "verdict") (JStr "No verdict.")) ]).

(** The properties the sanitizer writes after the spread, given the
    sanitised study notes. *)
Definition sanitizedProps (data : JsVal) (notes : list JsVal)
  : list (string * JsVal) :=
  [ ("videoType", js_or (prop data "videoType") (JStr "General"));
    ("timestamps", ensureArray (prop data "timestamps"));
    ("themes", ensureArray (prop data "themes"));
    ("studyNotes", JArr notes);
    ("quotes", ensureArray (prop data "quotes"));
    ("speakers", ensureArray (prop data "speakers"));
    ("subTopics", ensureArray (prop data "subTopics"));
    ("reviewDetails",
      if truthy (prop data "reviewDetails")
      then sanitizeReview (prop data "reviewDetails")
      else JUndefined) ].

(** [sanitizeData], lines 504-523. *)
Definition sanitizeData (data : JsVal) : Res JsVal :=
  if negb (truthy data) then Ok (JObj [])
  else
    notes <- mapM sanitizeSection
               (items (ensureArray (prop data "studyNotes"))) ;;
    Ok (JObj (obj_literal (spread data) (sanitizedProps data notes))).

(** What [fetch('/api/analyze', ...)] delivers: the [ok] flag of the
    response and the outcome of [await backendResponse.json()]. *)
Record BackendResponse : Type := mkResponse
  { ok : bool; json : Res JsVal }.

(** [err.error || "Backend analysis failed"]; [error] is a string in the
    backend's replies. *)
Definition backend_error (err : JsVal) : string :=
  match prop err "error" with
  | JStr (String c r) => String c r
  | _ => "Backend analysis failed"
  end.

(** [analyzeUrlWithGrounding], lines 538-555, from the outcome of the
    [fetch] on: every failure is rethrown as [Analysis Failed: ...]. *)
Definition analyzeUrlWithGrounding (fetched : Res BackendResponse)
  : Res JsVal :=
  let attempt :=
    backendResponse <- fetched ;;
    if negb (ok backendResponse) then
      err <- json backendResponse ;;
      _ <- getProp err "error" ;;
      Throw (Error (backend_error err))
    else
      body <- json backendResponse ;;
      sanitizeData body in
  match attempt with
  | Ok data => Ok data
  | Throw e => Throw (Error ("Analysis Failed: " ++ message_of e))
  end.

(** [analyzeTranscript], lines 561-570, from the text of the model's
    response on ([None] when the response carries no text). *)
Definition analyzeTranscript (responseText : option string) : Res JsVal :=
  let text :=
    match responseText with
    | Some (String c r) => String c r
    | _ => "{}"
    end in
  raw <- parseGenerativeJson text ;;
  sanitizeData raw.

(** [sanitizeResearchResult], lines 525-535.  No property read can throw
    here: [data] is truthy where its properties are read. *)
Definition sanitizeResearchResult (data : JsVal) : JsVal :=
  if negb (truthy data) then JObj []
  else
    JObj (obj_literal []
      [ ("topic", js_or (prop data "topic") (JStr "Unknown"));
        ("definition", js_or (prop data "definition") (JStr ""));
        ("history", js_or (prop data "history") (JStr ""));
        ("keyConcepts", ensureArray (prop data "keyConcepts"));
        ("relevance", js_or (prop data "relevance") (JStr ""));
        ("sources", ensureArray (prop data "sources")) ]).

End GeminiService.
Export GeminiService.

(* ================================================================== *)
(** ** The service, earlier revision                                   *)
(* ================================================================== *)

Module Legacy.
Import Str.

(** [cleanJsonString], lines 14-28. *)
Definition cleanJsonString (text : string) : string :=
  unfence (trim text).

(** [parseGenerativeJson], lines 31-45: the span from the first opening
    brace to the last closing brace of the raw text is cut out first. *)
Definition parseGenerativeJson (text : string) : Res JsVal :=
  let attempt :=
    match indexOf "{" text, lastIndexOf "}" text with
    | Some start, Some stop =>
        Json.parse (cleanJsonString (substring start (stop + 1) text))
    | _, _ => Json.parse (cleanJsonString text)
    end in
  match attempt with
  | Ok v => Ok v
  | Throw _ => Throw (Error "Failed to parse AI response as JSON.")
  end.

(** [(s) => ({ ...s, points: s.points || [] })] *)
Definition sanitizeSection (s : JsVal) : Res JsVal :=
  points <- getProp s "points" ;;
  Ok (JObj (obj_literal (spread s) [("points", js_or points (JArr []))])).

Definition sanitizeReview (rd : JsVal) : JsVal :=
  JObj (obj_literal []
    [ ("item", js_or (prop rd "item") (JStr "Unknown Item"));
      ("rating", prop rd "rating");
      ("pros", js_or (prop rd "pros") (JArr []));
      ("cons", js_or (prop rd "cons") (JArr []));
      ("verdict", js_or (prop rd "verdict") (JStr "No verdict provided.")) ]).

(** [sanitizeData], lines 48-69.  There is no guard on [data] here: the
    first property read throws on null, and [.map] on a truthy
    [studyNotes] that is no array is a call of [undefined]. *)
Definition sanitizeData (data : JsVal) : Res JsVal :=
  _ <- getProp data "videoType" ;;
  let source := js_or (prop data "studyNotes") (JArr []) in
  notes <- (if isArray source then mapM sanitizeSection (items source)
            else Throw TypeError) ;;
  Ok (JObj (obj_literal (spread data)
    [ ("videoType", js_or (prop data "videoType") (JStr "General"));
      ("timestamps", js_or (prop data "timestamps") (JArr []));
      ("themes", js_or (prop data "themes") (JArr []));
      ("studyNotes", JArr notes);
      ("quotes", js_or (prop data "quotes") (JArr []));
      ("speakers", js_or (prop data "speakers") (JArr []));
      ("subTopics", js_or (prop data "subTopics") (JArr []));
      ("reviewDetails",
        if truthy (prop data "reviewDetails")
        then sanitizeReview (prop data "reviewDetails")
        else JUndefined) ])).

Definition NOT_FOUND : string := "NOT_FOUND".

Definition newline : string := String (ascii_of_N 10) EmptyString.

Definition notFoundMessage (videoTitle : string) : string :=
  "Video Not Found: The AI could not locate a transcript, description, or detailed summary for "
  ++ q ++ videoTitle ++ q ++ ". " ++ newline ++ newline
  ++ "Tip: Try 'Audio / Upload' mode to analyze it directly.".

(** Lines 402-408: the sentinel check on the sanitised record. *)
Definition notFoundGuard (videoTitle : string) (data : JsVal) : Res JsVal :=
  if is_str (prop data "videoId") NOT_FOUND
  then Throw (Error (notFoundMessage videoTitle))
  else Ok data.

(** [analyzeUrlWithGrounding], lines 395-408, from the text of the model's
    response on; [videoTitle] is [metadata?.title || "YouTube Video"]. *)
Definition analyzeUrlWithGrounding (videoTitle : string)
    (responseText : option string) : Res JsVal :=
  match responseText with
  | Some (String c r) =>
      rawData <- parseGenerativeJson (String c r) ;;
      data <- sanitizeData rawData ;;
      notFoundGuard videoTitle data
  | _ => Throw (Error "No response from Gemini.")
  end.

End Legacy.

(* ================================================================== *)
(** ** The application shell, earlier revision                         *)
(* ================================================================== *)

Module LegacyApp.
Import Str.

(** Lines 100-103. *)
Definition mismatchMessage (resolved : string) : string :=
  "Analysis Mismatch: The AI analyzed a different video (ID: " ++ resolved
  ++ ") than the one requested. "
  ++ "This often happens with new or unindexed videos. "
  ++ "Please use 'Audio Mode' or paste the transcript.".

(** Lines 99-104: the same test as in the current revision, with the
    longer message. *)
Definition mismatchGuard (videoId : option string) (result : JsVal)
  : Res JsVal :=
  match videoId with
  | Some (String c r) =>
      resolved <- getProp result "videoId" ;;
      if truthy resolved && negb (is_str resolved (String c r))
         && negb (is_str resolved "NOT_FOUND")
      then (id <- toText resolved ;; Throw (Error (mismatchMessage id)))
      else Ok result
  | _ => Ok result
  end.

(** The URL branch of the earlier [handleAnalyze], lines 97-104, over the
    earlier [analyzeUrlWithGrounding], from the text of the model's
    response on. *)
Definition urlAnalysis (videoTitle : string) (videoId : option string)
    (responseText : option string) : Res JsVal :=
  result <- Legacy.analyzeUrlWithGrounding videoTitle responseText ;;
  mismatchGuard videoId result.

End LegacyApp.

(* ================================================================== *)
(** ** The PDF reader (pdfService)                                     *)
(* ================================================================== *)

Module Pdf.
Import Str.

(** [parts.join(sep)] *)
Fixpoint join (sep : string) (parts : list string) : string :=
  match parts with
  | [] => ""
  | [x] => x
  | x :: r => x ++ sep ++ join sep r
  end.

(** [item.str]; an item without that property ([None]) is joined as the
    empty string. *)
Definition str (item : option string) : string :=
  match item with
  | Some s => s
  | None => ""
  end.

Definition lineFeed : string := String (ascii_of_N 10) EmptyString.

(** What the loop adds for page [i]. *)
Definition pageBlock (i : nat) (items : list (option string)) : string :=
  "[Page " ++ nat_to_string i ++ "]" ++ lineFeed
  ++ join " " (map str items) ++ lineFeed ++ lineFeed.

(** The loop from page [i] on. *)
Fixpoint readPages (i : nat) (pages : list (list (option string)))
    (fullText : string) : string :=
  match pages with
  | [] => fullText
  | items :: rest => readPages (S i) rest (fullText ++ pageBlock i items)
  end.

(** [extractTextFromPdf], from the outcome of reading the document on: the
    text items of every page, or the exception that loading the document
    or one of its pages threw. *)
Definition extractTextFromPdf (document : Res (list (list (option string))))
  : Res string :=
  match document with
  | Ok pages => Ok (readPages 1 pages "")
  | Throw _ =>
      Throw (Error
        "Failed to parse PDF file. Ensure it is a valid text-based PDF.")
  end.

End Pdf.

(* ================================================================== *)
(** ** The application shell (current App component)                  *)
(* ================================================================== *)

Module App.
Import Str.

Inductive InputMode : Type := ModeUrl | ModeTranscript | ModeAudio.

(** The state of the component.  [transcript] is declared a string, but
    [loadFromHistory] stores under it whatever truthy value the reopened
    record carries, so the model keeps a value. *)
Record AppState : Type := mkApp
  { inputMode : InputMode;
    url : string;
    transcript : JsVal;
    videoTypeFilter : string;
    isLoading : bool;
    error : option string;
    data : option JsVal;
    loadingStep : string;
    history : list Obj }.

(** *** Startup load of the history (the mount effect, lines 143-165) *)

(** [(item) => ({ ...item, data: sanitizeData(item.data) })] *)
Definition reviveItem (item : JsVal) : Res Obj :=
  stored <- getProp item "data" ;;
  clean <- sanitizeData stored ;;
  Ok (obj_literal (spread item) [("data", clean)]).

(** The body of the [try] block. [None] stands for the branch that finds
    no array and clears the stored entry. *)
Definition parseHistory (saved : string) : Res (option (list Obj)) :=
  parsedHistory <- Json.parse saved ;;
  if isArray parsedHistory then
    safeHistory <- mapM reviveItem (items parsedHistory) ;;
    Ok (Some safeHistory)
  else Ok None.

(** The effect as a whole, from the stored text ([None] when the key is
    absent) to the history it leaves in the component and the stored text
    it leaves behind.  The component starts with the empty history. *)
Definition loadHistory (saved : option string)
  : list Obj * option string :=
  match saved with
  | Some (String c r) =>
      match parseHistory (String c r) with
      | Ok (Some safeHistory) => (safeHistory, saved)
      | Ok None => ([], None)
      | Throw _ => ([], None)
      end
  | _ => ([], saved)
  end.

(** *** Saving to the history (lines 167-181) *)

(** [sanitizedData.videoId || Date.now().toString()]: the identifier
    itself, of whatever type, when it is truthy. *)
Definition historyKey (now : Z) (sanitizedData : JsVal) : JsVal :=
  js_or (prop sanitizedData "videoId") (JStr (Z_to_string now)).

(** Line 174.  The template literal converts the identifier to text. *)
Definition thumbnailOf (sanitizedData : JsVal) : Res JsVal :=
  if truthy (prop sanitizedData "videoId") then
    id <- toText (prop sanitizedData "videoId") ;;
    Ok (JStr ("https://img.youtube.com/vi/" ++ id ++ "/mqdefault.jpg"))
  else Ok JUndefined.

Definition historyItem (now_id now_date : Z) (sanitizedData : JsVal)
  : Res Obj :=
  thumbnail <- thumbnailOf sanitizedData ;;
  Ok (obj_literal []
        [ ("id", historyKey now_id sanitizedData);
          ("title", prop sanitizedData "title");
          ("date", num now_date 0);
          ("type", prop sanitizedData "videoType");
          ("thumbnail", thumbnail);
          ("data", sanitizedData) ]).

(** [h.id] *)
Definition item_id (h : Obj) : JsVal := field h "id".

(** [h => h.id !== newItem.id] *)
Definition other_key (newItem h : Obj) : bool :=
  negb (strict_eq (item_id h) (item_id newItem)).

(** [[newItem, ...history.filter(...)].slice(0, 10)] *)
Definition pushRecent (newItem : Obj) (history : list Obj) : list Obj :=
  firstn 10 (newItem :: filter (other_key newItem) history).

(** [saveToHistory].  [history] is the list of the render in whose closure
    the call runs; the two readings of the clock are arguments, and so is
    [setItem], the exception [localStorage.setItem] throws when the store
    refuses the text ([None] when it accepts).  The answer is the list
    handed to [setHistory] together with the outcome of the write that
    follows it, or the exception thrown before [setHistory] was reached: a
    refused write leaves the new list in the component. *)
Definition saveToHistory (now_id now_date : Z) (setItem : option Exn)
    (history : list Obj) (newData : JsVal)
  : Res (list Obj * option Exn) :=
  sanitizedData <- sanitizeData newData ;;
  newItem <- historyItem now_id now_date sanitizedData ;;
  Ok (pushRecent newItem history, setItem).

(** *** Video identifiers (lines 200-205) *)

Definition head_is (p : ascii -> bool) (s : string) : bool :=
  match s with
  | String c _ => p c
  | EmptyString => false
  end.

Definition not_terminator (c : ascii) : bool := negb (is_line_terminator c).

(** Group 1 of the expression,
    [(youtu.be\/|v\/|u\/\w\/|embed\/|watch\?v=|&v=)], tried at the head of
    [s]: the length of the alternative that matches. *)
Definition marker_at (s : string) : option nat :=
  if startsWith "youtu" s && head_is not_terminator (drop 5 s)
     && startsWith "be/" (drop 6 s) then Some 9
  else if startsWith "v/" s then Some 2
  else if startsWith "u/" s && head_is is_word (drop 2 s)
          && startsWith "/" (drop 3 s) then Some 4
  else if startsWith "embed/" s then Some 6
  else if startsWith "watch?v=" s then Some 8
  else if startsWith "&v=" s then Some 3
  else None.

(** [^.*] is greedy and does not cross a line terminator: of the starts on
    the first line at which group 1 matches, the last one is taken.  The
    answer is the text that follows the marker. *)
Fixpoint after_last_marker (s : string) : option string :=
  match s with
  | EmptyString => None
  | String c r =>
      let later := if is_line_terminator c then None
                   else after_last_marker r in
      match later with
      | Some rest => Some rest
      | None =>
          match marker_at s with
          | Some n => Some (drop n s)
          | None => None
          end
      end
  end.

(** [[^#&?]] *)
Definition id_char (c : ascii) : bool :=
  negb (Ascii.eqb c "#" || Ascii.eqb c "&" || Ascii.eqb c "?").

Definition getYouTubeId (url : string) : option string :=
  match url with
  | EmptyString => None
  | _ =>
      match after_last_marker url with
      | Some rest =>
          let token := take_while id_char rest in
          if (String.length token =? 11)%nat then Some token else None
      | None => None
      end
  end.

(** *** The identity guard (lines 265-267) *)

Definition mismatchMessage (resolved : string) : string :=
  "Analysis Mismatch: The AI analyzed a different video (ID: "
  ++ resolved ++ ").".

(** [videoId && result.videoId && result.videoId !== videoId &&
    result.videoId !== "NOT_FOUND"], and the error whose message is built
    from the text of [result.videoId]. *)
Definition mismatchGuard (videoId : option string) (result : JsVal)
  : Res JsVal :=
  match videoId with
  | Some (String c r) =>
      resolved <- getProp result "videoId" ;;
      if truthy resolved && negb (is_str resolved (String c r))
         && negb (is_str resolved "NOT_FOUND")
      then (id <- toText resolved ;; Throw (Error (mismatchMessage id)))
      else Ok result
  | _ => Ok result
  end.

(** The URL branch of [handleAnalyze], lines 263-267, from the outcome of
    the [fetch] on. *)
Definition urlAnalysis (videoId : option string)
    (fetched : Res BackendResponse) : Res JsVal :=
  result <- analyzeUrlWithGrounding fetched ;;
  mismatchGuard videoId result.

(** *** The analysis handler (lines 220-281) *)

(** The requests that leave the browser. *)
Inductive NetCall : Type :=
| PostAnalyze (url videoType : string)
| GenerateContent (prompt : string).

(** What a handler leaves: the state, the requests it made, and the
    exception that escaped it, if one did. *)
Record Outcome : Type := mkOutcome
  { after : AppState;
    calls : list NetCall;
    uncaught : option Exn }.

Definition transcriptPrompt (videoUrlOrTitle userVideoType : string)
  : string :=
  "Analyze transcript: " ++ videoUrlOrTitle ++ ". Type: " ++ userVideoType
  ++ ". JSON Format.".

Definition with_error (e : option string) (st : AppState) : AppState :=
  mkApp (inputMode st) (url st) (transcript st) (videoTypeFilter st)
        (isLoading st) e (data st) (loadingStep st) (history st).

Definition settled (st : AppState) (e : option string) (d : option JsVal)
    (step : string) (h : list Obj) : AppState :=
  mkApp (inputMode st) (url st) (transcript st) (videoTypeFilter st)
        false e d step h.

Section Handler.

(** [new URL(u).hostname], [None] when the constructor throws. *)
Variable hostnameOf : string -> option string.

(** The reply of the backend to [POST /api/analyze] with this URL and
    content type, and the outcome of [generateContent] for a prompt: the
    text of the response ([None] when it carries none), or the exception
    with which the client or the request failed. *)
Variable backend : string -> string -> Res BackendResponse.
Variable generate : string -> Res (option string).

Definition validateYouTubeUrl (urlToValidate : string) : option string :=
  if trim urlToValidate =? "" then Some "Please enter a YouTube URL."
  else
    match hostnameOf urlToValidate with
    | None => Some "Invalid URL format."
    | Some host =>
        let hostname := toLowerCase host in
        if negb (includes "youtube.com" hostname)
           && negb (includes "youtu.be" hostname)
        then Some "Please provide a valid YouTube URL (youtube.com or youtu.be)."
        else
          match getYouTubeId urlToValidate with
          | None =>
              Some "Could not find a valid Video ID. Please check the link format."
          | Some _ => None
          end
    end.

(** The two validations, lines 240-246.  [transcript.trim()] is a call of
    [undefined] when the transcript is no string, and that exception is
    thrown before the [try]. *)
Definition validate (st : AppState) : Res (option string) :=
  match inputMode st with
  | ModeUrl => Ok (validateYouTubeUrl (url st))
  | ModeTranscript =>
      match transcript st with
      | JStr text =>
          Ok (if trim text =? "" then Some "Please provide a transcript."
              else None)
      | _ => Throw TypeError
      end
  | ModeAudio => Ok None
  end.

(** The [try] block up to the record, lines 253-270: its outcome, the
    step shown last and the requests made. *)
Definition analysis (st : AppState)
  : Res JsVal * string * list NetCall :=
  match inputMode st with
  | ModeTranscript =>
      let prompt := transcriptPrompt (url st) (videoTypeFilter st) in
      (response <- generate prompt ;; analyzeTranscript response,
       "Processing transcript data...",
       [GenerateContent prompt])
  | ModeUrl =>
      (urlAnalysis (getYouTubeId (url st))
                   (backend (url st) (videoTypeFilter st)),
       "Analyzing text & comparing with metadata...",
       [PostAnalyze (url st) (videoTypeFilter st)])
  | ModeAudio =>
      (Throw (Error "Invalid input mode."), "Initializing analysis...", [])
  end.

(** [handleAnalyze].  The function is memoised with [useCallback] on [url],
    [transcript], [videoId], [inputMode] and [videoTypeFilter]: the
    [saveToHistory] it calls is the one of the render at which one of these
    last changed, and [closure] is the [history] of that render.  The
    inputs it reads are its dependencies, so they are those of [st].  The
    loading flag is back to false in every state that follows a request
    ([finally]). *)
Definition handleAnalyze (now_id now_date : Z) (setItem : option Exn)
    (closure : list Obj) (st : AppState) : Outcome :=
  let st := with_error None st in
  match validate st with
  | Throw e => mkOutcome st [] (Some e)
  | Ok (Some message) => mkOutcome (with_error (Some message) st) [] None
  | Ok None =>
      match analysis st with
      | (Ok result, _, requests) =>
          mkOutcome
            match saveToHistory now_id now_date setItem closure result with
            | Ok (updated, refused) =>
                settled st (option_map message_of refused) (Some result)
                        "Finalizing insights..." updated
            | Throw e =>
                settled st (Some (message_of e)) (Some result)
                        "Finalizing insights..." (history st)
            end
            requests None
      | (Throw e, step, requests) =>
          mkOutcome (settled st (Some (message_of e)) None step (history st))
                    requests None
      end
  end.

End Handler.

(** *** Reopening an entry of the history (lines 183-217) *)

Definition watchUrl (videoId : string) : string :=
  "https://www.youtube.com/watch?v=" ++ videoId.

Definition with_data (d : option JsVal) (st : AppState) : AppState :=
  mkApp (inputMode st) (url st) (transcript st) (videoTypeFilter st)
        (isLoading st) (error st) d (loadingStep st) (history st).

Definition with_mode (m : InputMode) (st : AppState) : AppState :=
  mkApp m (url st) (transcript st) (videoTypeFilter st)
        (isLoading st) (error st) (data st) (loadingStep st) (history st).

Definition with_url (u : string) (st : AppState) : AppState :=
  mkApp (inputMode st) u (transcript st) (videoTypeFilter st)
        (isLoading st) (error st) (data st) (loadingStep st) (history st).

Definition with_transcript (t : JsVal) (st : AppState) : AppState :=
  mkApp (inputMode st) (url st) t (videoTypeFilter st)
        (isLoading st) (error st) (data st) (loadingStep st) (history st).

Definition with_filter (f : string) (st : AppState) : AppState :=
  mkApp (inputMode st) (url st) (transcript st) f
        (isLoading st) (error st) (data st) (loadingStep st) (history st).

Definition with_history (h : list Obj) (st : AppState) : AppState :=
  mkApp (inputMode st) (url st) (transcript st) (videoTypeFilter st)
        (isLoading st) (error st) (data st) (loadingStep st) h.

(** [loadFromHistory], lines 183-197: the state it leaves, and the
    exception that ended it early if one did (the updates made before it
    stay).  The panel flag it clears and the scroll position are no part
    of [AppState].  [videoId] and [transcript] are tested for truthiness,
    whatever their type. *)
Definition loadFromHistory (item : Obj) (st : AppState)
  : AppState * option Exn :=
  let stored := field item "data" in
  match sanitizeData stored with
  | Throw e => (st, Some e)
  | Ok clean =>
      let st := with_data (Some clean) st in
      match getProp stored "videoId" with
      | Throw e => (st, Some e)
      | Ok videoId =>
          if truthy videoId then
            let st := with_mode ModeUrl st in
            match toText videoId with
            | Ok id => (with_url (watchUrl id) st, None)
            | Throw e => (st, Some e)
            end
          else if truthy (prop stored "transcript") then
            (with_transcript (prop stored "transcript")
               (with_mode ModeTranscript st), None)
          else (st, None)
      end
  end.

Definition isContainer (v : JsVal) : bool :=
  match v with
  | JArr _ | JObj _ => true
  | _ => false
  end.

(** [data.transcript === transcript && transcript.length > 0] (line 215).
    There is no answer where the engine's depends on what the model does
    not keep: whether two containers are one object, and, for a transcript
    that is null or undefined, the read of [length], which throws. *)
Definition transcriptAnalysed (d : JsVal) (t : JsVal) : option bool :=
  match t with
  | JStr text =>
      Some (is_str (prop d "transcript") text
            && (0 <? String.length text)%nat)
  | JNum _ _ | JBool _ => Some false
  | JArr _ | JObj _ =>
      if isContainer (prop d "transcript") then None else Some false
  | JNull | JUndefined =>
      if strict_eq (prop d "transcript") t then None else Some false
  end.

(** [isAnalysisComplete], lines 210-217: the flag that disables the
    analyse button and labels it as done. *)
Definition isAnalysisComplete (st : AppState) : option bool :=
  match data st with
  | Some d =>
      if truthy d && negb (isLoading st) then
        if match inputMode st, getYouTubeId (url st) with
           | ModeUrl, Some videoId => is_str (prop d "videoId") videoId
           | _, _ => false
           end
        then Some true
        else
          match inputMode st with
          | ModeTranscript => transcriptAnalysed d (transcript st)
          | _ => Some false
          end
      else Some false
  | None => Some false
  end.

(** *** Uploaded documents (lines 311-343) *)

Section Uploads.

Variable generate : string -> Res (option string).

(** Lines 324-327: a placeholder title gives way to the file's name. *)
Definition enhanceTitle (fileName : string) (result : JsVal) : JsVal :=
  if is_str (prop result "title") "Video Title"
     || is_str (prop result "title") "YouTube Video"
  then JObj (obj_set "title" (JStr (removeFirst ".pdf" fileName))
                     (spread result))
  else result.

Definition noTextMessage : string :=
  "No text found in PDF. It might be an image-based scan.".

(** [processPdfFile], from the outcome of reading the document on, with
    the requests it made.  The function is no memoised one: it runs in the
    closure of the latest render and reads the [history] of [st].  Every
    exception is caught. *)
Definition processPdfFile (fileName : string)
    (document : Res (list (list (option string))))
    (now_id now_date : Z) (setItem : option Exn) (st : AppState)
  : AppState * list NetCall :=
  let extracted :=
    text <- Pdf.extractTextFromPdf document ;;
    if trim text =? "" then Throw (Error noTextMessage) else Ok text in
  match extracted with
  | Throw e =>
      (settled st (Some (message_of e)) None "Reading PDF document..."
               (history st), [])
  | Ok text =>
      let prompt :=
        transcriptPrompt ("PDF: " ++ fileName) (videoTypeFilter st) in
      match (response <- generate prompt ;; analyzeTranscript response) with
      | Throw e =>
          (settled st (Some (message_of e)) None
                   "Analyzing extracted text..." (history st),
           [GenerateContent prompt])
      | Ok analysed =>
          let result := enhanceTitle fileName analysed in
          match saveToHistory now_id now_date setItem (history st) result with
          | Ok (updated, None) =>
              (with_transcript (JStr text)
                 (with_mode ModeTranscript
                    (settled st None (Some result) "Finalizing insights..."
                             updated)),
               [GenerateContent prompt])
          | Ok (updated, Some e) =>
              (settled st (Some (message_of e)) (Some result)
                       "Finalizing insights..." updated,
               [GenerateContent prompt])
          | Throw e =>
              (settled st (Some (message_of e)) (Some result)
                       "Finalizing insights..." (history st),
               [GenerateContent prompt])
          end
      end
  end.

End Uploads.

(** *** The component over time *)

(** The component between two events: its state, and the [history] in the
    closure of the memoised [handleAnalyze]. *)
Record Shell : Type := mkShell
  { view : AppState;
    closure : list Obj }.

Definition same_mode (a b : InputMode) : bool :=
  match a, b with
  | ModeUrl, ModeUrl | ModeTranscript, ModeTranscript
  | ModeAudio, ModeAudio => true
  | _, _ => false
  end.

(** Are the dependencies of [handleAnalyze] those of the render before?
    [videoId] is a function of [url].  A transcript that is an array or an
    object counts as changed; the engine compares identities there, and
    nothing reads the closure before a dependency changes again, because
    [handleAnalyze] throws on such a transcript before it saves. *)
Definition same_deps (a b : AppState) : bool :=
  (url a =? url b) && strict_eq (transcript a) (transcript b)
  && same_mode (inputMode a) (inputMode b)
  && (videoTypeFilter a =? videoTypeFilter b).

(** The render that follows an event that left the state [st]:
    [useCallback] hands out the [handleAnalyze] it had, unless a
    dependency changed; then it hands out the one of this render, which
    closes over this render's [history]. *)
Definition rerender (before : Shell) (st : AppState) : Shell :=
  mkShell st (if same_deps (view before) st then closure before
              else history st).

(** The first render. *)
Definition firstRender : Shell :=
  mkShell (mkApp ModeUrl "" (JStr "") "Auto" false None None "" []) [].

(** The events: the mode buttons, the three inputs, the analyse button, a
    PDF handed to the file input, a click on the [i]-th entry of the
    history panel.  An event that runs a handler carries what the handler
    reads off the environment.  The view disables the analyse button while
    [isAnalysisComplete] holds and hides the panel while a record is
    shown; these guards only take events away and are not repeated here.
    A handler runs to its end before the next event.  The uploads of audio
    and video and the recorder, which save like the PDF upload does, are
    not among the events. *)
Inductive Action : Type :=
| SetInputMode (mode : InputMode)
| SetUrl (text : string)
| SetTranscript (text : string)
| SetVideoTypeFilter (videoType : string)
| ClickAnalyze (hostnameOf : string -> option string)
    (backend : string -> string -> Res BackendResponse)
    (generate : string -> Res (option string))
    (now_id now_date : Z) (setItem : option Exn)
| UploadPdf (generate : string -> Res (option string)) (fileName : string)
    (document : Res (list (list (option string))))
    (now_id now_date : Z) (setItem : option Exn)
| ClickEntry (i : nat).

Definition handle (ev : Action) (sh : Shell) : AppState :=
  let st := view sh in
  match ev with
  | SetInputMode mode => with_mode mode st
  | SetUrl text => with_url text st
  | SetTranscript text => with_transcript (JStr text) st
  | SetVideoTypeFilter videoType => with_filter videoType st
  | ClickAnalyze hostnameOf backend generate now_id now_date setItem =>
      after (handleAnalyze hostnameOf backend generate now_id now_date
               setItem (closure sh) st)
  | UploadPdf generate fileName document now_id now_date setItem =>
      fst (processPdfFile generate fileName document now_id now_date
             setItem st)
  | ClickEntry i =>
      match nth_error (history st) i with
      | Some item => fst (loadFromHistory item st)
      | None => st
      end
  end.

Definition advance (sh : Shell) (ev : Action) : Shell :=
  rerender sh (handle ev sh).

(** The mount effect runs after the first render; it changes no
    dependency. *)
Definition mounted (saved : option string) : Shell :=
  rerender firstRender
    (with_history (fst (loadHistory saved)) (view firstRender)).

(** A session: the stored text found at startup, then the events. *)
Definition session (saved : option string) (events : list Action) : Shell :=
  fold_left advance events (mounted saved).

End App.

(* ================================================================== *)
(** ** The conversational context router (unified ChatInterface)       *)
(* ================================================================== *)

Module Chat.
Import Str.

Inductive Context : Type := Video | Research.

Inductive Role : Type := User | Model.

Record ChatMessage : Type := mkMessage
  { role : Role; content : string; timestamp : Z }.

Record ChatState : Type := mkChat
  { activeContext : Context;
    videoMessages : list ChatMessage;
    researchMessages : list ChatMessage;
    input : string;
    isLoading : bool }.

(** The component's initial state. *)
Definition initial : ChatState := mkChat Video [] [] "" false.

Definition messagesOf (c : Context) (st : ChatState) : list ChatMessage :=
  match c with
  | Video => videoMessages st
  | Research => researchMessages st
  end.

(** [setVideoMessages(prev => [...prev, m])] or its research twin. *)
Definition append (c : Context) (m : ChatMessage) (st : ChatState)
  : ChatState :=
  match c with
  | Video =>
      mkChat (activeContext st) (videoMessages st ++ [m])
             (researchMessages st) (input st) (isLoading st)
  | Research =>
      mkChat (activeContext st) (videoMessages st)
             (researchMessages st ++ [m]) (input st) (isLoading st)
  end.

Definition setLoading (b : bool) (st : ChatState) : ChatState :=
  mkChat (activeContext st) (videoMessages st) (researchMessages st)
         (input st) b.

Definition setInput (text : string) (st : ChatState) : ChatState :=
  mkChat (activeContext st) (videoMessages st) (researchMessages st)
         text (isLoading st).

Definition setActiveContext (c : Context) (st : ChatState) : ChatState :=
  mkChat c (videoMessages st) (researchMessages st) (input st)
         (isLoading st).

(** What [handleSend] has done when it first gives the event loop back. *)
Inductive Submission : Type :=
| Rejected                              (* returned at the guard *)
| Awaiting (c : Context) (question : string) (st : ChatState)
                                        (* suspended in an [await] *)
| Answered (st : ChatState).            (* ran to its end without a call *)

(** [handleSend] up to its first suspension.  [researchData] tells whether
    the research result is present, [now] and [later] are the readings of
    the clock for the user's message and for an immediate reply. *)
Definition handleSend (now later : Z) (researchData : bool)
    (textInput : option string) (st : ChatState) : Submission :=
  let content :=
    match textInput with
    | Some (String c r) => String c r
    | _ => input st
    end in
  if (trim content =? "") || isLoading st then Rejected
  else
    let userMessage := mkMessage User content now in
    let contextToUse := activeContext st in
    let st := setLoading true (setInput "" (append contextToUse userMessage st)) in
    match contextToUse, researchData with
    | Video, _ => Awaiting Video content st
    | Research, true => Awaiting Research content st
    | Research, false =>
        let botMessage := mkMessage Model "Context unavailable." later in
        Answered (setLoading false (append contextToUse botMessage st))
    end.

(** The rest of [handleSend] once the awaited call has settled. *)
Definition resume (now : Z) (contextToUse : Context) (reply : Res string)
    (st : ChatState) : ChatState :=
  let message :=
    match reply with
    | Ok responseText => mkMessage Model responseText now
    | Throw _ => mkMessage Model "Error generating response." now
    end in
  setLoading false (append contextToUse message st).

(** The component with its suspended calls: the contexts of the questions
    that await a reply, oldest first.  Events are handled one at a time,
    each on the state the previous one left. *)
Record Config : Type := mkConfig
  { ui : ChatState; inFlight : list Context }.

Inductive Event : Type :=
| Submit (now later : Z) (researchData : bool) (textInput : option string)
| TypeInput (text : string)
| SwitchContext (c : Context)
| Settle (n : nat) (now : Z) (reply : Res string).

Fixpoint remove_nth {A : Type} (n : nat) (l : list A) : list A :=
  match n, l with
  | O, _ :: r => r
  | S n', x :: r => x :: remove_nth n' r
  | _, [] => []
  end.

Definition step (cfg : Config) (ev : Event) : Config :=
  match ev with
  | Submit now later researchData textInput =>
      match handleSend now later researchData textInput (ui cfg) with
      | Rejected => cfg
      | Awaiting c _ st => mkConfig st (inFlight cfg ++ [c])
      | Answered st => mkConfig st (inFlight cfg)
      end
  | TypeInput text => mkConfig (setInput text (ui cfg)) (inFlight cfg)
  | SwitchContext c => mkConfig (setActiveContext c (ui cfg)) (inFlight cfg)
  | Settle n now reply =>
      match nth_error (inFlight cfg) n with
      | Some c =>
          mkConfig (resume now c reply (ui cfg)) (remove_nth n (inFlight cfg))
      | None => cfg
      end
  end.

Definition run (evs : list Event) : Config :=
  fold_left step evs (mkConfig initial []).

(** The events handled one after the other, from a given configuration. *)
Definition runFrom (cfg : Config) (evs : list Event) : Config :=
  fold_left step evs cfg.

Definition videoGreeting (title : string) : string :=
  "Hi! I'm ready to answer questions about the video " ++ q ++ title ++ q
  ++ ".".

Definition researchGreeting (topic : string) : string :=
  "I've analyzed the topic " ++ q ++ topic ++ q
  ++ ". What specific details would you like to discuss?".

(** The greeting effect, lines 124-139, run on the state of one render:
    [videoTitle] is [videoData.title], [researchTopic] the topic of the
    research result when there is one. *)
Definition greet (videoTitle : string) (researchTopic : option string)
    (now : Z) (st : ChatState) : ChatState :=
  let video :=
    match videoMessages st with
    | [] => [mkMessage Model (videoGreeting videoTitle) now]
    | _ => videoMessages st
    end in
  let research :=
    match researchMessages st, researchTopic with
    | [], Some topic => [mkMessage Model (researchGreeting topic) now]
    | _, _ => researchMessages st
    end in
  mkChat (activeContext st) video research (input st) (isLoading st).

End Chat.

(* ================================================================== *)
(** ** The quiz (QuizInterface component)                              *)
(* ================================================================== *)

Module Quiz.

Record QuizQuestion : Type := mkQuestion
  { question : string;
    options : list string;
    correctAnswer : Z;
    explanation : string }.

Record QuizState : Type := mkQuiz
  { quizData : option (list QuizQuestion);
    isLoading : bool;
    currentQuestion : nat;
    selectedOption : option nat;
    score : nat;
    showResult : bool;
    isFinished : bool;
    error : option string }.

(** The component's initial state. *)
Definition initial : QuizState :=
  mkQuiz None false 0 None 0 false false None.

(** How a request for a quiz settles: with the [questions] of the reply
    ([None] for a reply without them) or with a rejection. *)
Definition Reply : Type := Res (option (list QuizQuestion)).

Definition loading (st : QuizState) : QuizState :=
  mkQuiz (quizData st) true (currentQuestion st) (selectedOption st)
         (score st) (showResult st) (isFinished st) (error st).

Definition failed (message : string) (st : QuizState) : QuizState :=
  mkQuiz (quizData st) false (currentQuestion st) (selectedOption st)
         (score st) (showResult st) (isFinished st) (Some message).

(** The truthiness of [error]. *)
Definition hasError (st : QuizState) : bool :=
  match error st with
  | Some (String _ _) => true
  | _ => false
  end.

(** The auto-load effect, lines 22-39: does it start waiting for the
    promise it was given? *)
Definition autoLoads (st : QuizState) : bool :=
  match quizData st with
  | None => negb (isLoading st) && negb (hasError st)
  | Some _ => false
  end.

(** The effect's callbacks, once the promise has settled. *)
Definition autoSettled (reply : Reply) (st : QuizState) : QuizState :=
  match reply with
  | Ok (Some (q :: qs)) =>
      mkQuiz (Some (q :: qs)) false (currentQuestion st) (selectedOption st)
             (score st) (showResult st) (isFinished st) (error st)
  | Ok _ => failed "Could not generate questions." st
  | Throw _ => failed "Failed to generate quiz." st
  end.

(** [startQuiz], lines 41-62, up to its [await] ... *)
Definition startQuiz (st : QuizState) : QuizState :=
  mkQuiz (quizData st) true (currentQuestion st) (selectedOption st)
         (score st) (showResult st) (isFinished st) None.

(** ... and from the settled request on. *)
Definition startSettled (reply : Reply) (st : QuizState) : QuizState :=
  match reply with
  | Ok (Some (q :: qs)) =>
      mkQuiz (Some (q :: qs)) false 0 None 0 false false (error st)
  | Ok _ => failed "Could not generate questions from this content." st
  | Throw _ => failed "Failed to generate quiz. Please try again." st
  end.

(** [handleAnswer], lines 64-71, with the exception it ends in when the
    current question does not exist. *)
Definition handleAnswer (index : nat) (st : QuizState)
  : QuizState * option Exn :=
  if showResult st then (st, None)
  else
    let answered (s : nat) :=
      mkQuiz (quizData st) (isLoading st) (currentQuestion st) (Some index)
             s true (isFinished st) (error st) in
    match quizData st with
    | None => (answered (score st), None)
    | Some questions =>
        match nth_error questions (currentQuestion st) with
        | None => (answered (score st), Some TypeError)
        | Some q =>
            if (Z.of_nat index =? correctAnswer q)%Z
            then (answered (S (score st)), None)
            else (answered (score st), None)
        end
    end.

(** [nextQuestion], lines 73-83. *)
Definition nextQuestion (st : QuizState) : QuizState :=
  match quizData st with
  | None => st
  | Some questions =>
      if (S (currentQuestion st) <? List.length questions)%nat
      then mkQuiz (quizData st) (isLoading st) (S (currentQuestion st)) None
                  (score st) false (isFinished st) (error st)
      else mkQuiz (quizData st) (isLoading st) (currentQuestion st)
                  (selectedOption st) (score st) (showResult st) true
                  (error st)
  end.

(** [restartQuiz], lines 85-93. *)
Definition restartQuiz (st : QuizState) : QuizState :=
  mkQuiz (quizData st) (isLoading st) 0 None 0 false false (error st).

(** What the component renders, lines 98-309.  The question screen reads
    the current question, and rendering throws when there is none. *)
Inductive Screen : Type :=
| LoadingScreen
| ErrorScreen
| StartScreen
| FinishedScreen
| QuestionScreen (q : QuizQuestion)
| RenderError.

Definition screen (st : QuizState) : Screen :=
  if isLoading st then LoadingScreen
  else if hasError st then ErrorScreen
  else
    match quizData st with
    | None => StartScreen
    | Some questions =>
        if isFinished st then FinishedScreen
        else
          match nth_error questions (currentQuestion st) with
          | Some q => QuestionScreen q
          | None => RenderError
          end
    end.

(** The requests the component awaits are the effect's or [startQuiz]'s. *)
Inductive Origin : Type := Auto | Manual.

(** The component with the requests it awaits, oldest first, and the
    exceptions its handlers have thrown. *)
Record Config : Type := mkConfig
  { ui : QuizState; pending : list Origin; thrown : list Exn }.

(** The effect running with a promise, a request settling, and the clicks
    on the controls.  A click counts only on the screen that shows its
    control, and an option button only while it is enabled. *)
Inductive Event : Type :=
| RunEffect
| Settle (n : nat) (reply : Reply)
| ClickStart
| ClickOption (index : nat)
| ClickNext
| ClickRestart.

Definition step (cfg : Config) (ev : Event) : Config :=
  let st := ui cfg in
  match ev with
  | RunEffect =>
      if autoLoads st
      then mkConfig (loading st) (pending cfg ++ [Auto]) (thrown cfg)
      else cfg
  | Settle n reply =>
      match nth_error (pending cfg) n with
      | Some Auto =>
          mkConfig (autoSettled reply st) (Chat.remove_nth n (pending cfg))
                   (thrown cfg)
      | Some Manual =>
          mkConfig (startSettled reply st) (Chat.remove_nth n (pending cfg))
                   (thrown cfg)
      | None => cfg
      end
  | ClickStart =>
      match screen st with
      | ErrorScreen | StartScreen =>
          mkConfig (startQuiz st) (pending cfg ++ [Manual]) (thrown cfg)
      | _ => cfg
      end
  | ClickOption index =>
      match screen st with
      | QuestionScreen q =>
          if negb (showResult st) && (index <? List.length (options q))%nat
          then
            let (st', e) := handleAnswer index st in
            mkConfig st' (pending cfg)
                     (match e with
                      | Some e => thrown cfg ++ [e]
                      | None => thrown cfg
                      end)
          else cfg
      | _ => cfg
      end
  | ClickNext =>
      match screen st with
      | QuestionScreen _ =>
          if showResult st
          then mkConfig (nextQuestion st) (pending cfg) (thrown cfg)
          else cfg
      | _ => cfg
      end
  | ClickRestart =>
      match screen st with
      | FinishedScreen =>
          mkConfig (restartQuiz st) (pending cfg) (thrown cfg)
      | _ => cfg
      end
  end.

Definition runFrom (cfg : Config) (evs : list Event) : Config :=
  fold_left step evs cfg.

Definition run (evs : list Event) : Config :=
  runFrom (mkConfig initial [] []) evs.

End Quiz.

(* ================================================================== *)
(** ** The result view (AnalysisResult component)                      *)
(* ================================================================== *)

Module Result.
Import Str.

(** [data.k || []], the defensive reads of lines 720-725 and of the
    lists the view maps over. *)
Definition collection (data : JsVal) (k : string) : JsVal :=
  js_or (prop data k) (JArr []).

(** [v.length] *)
Definition lengthOf (v : JsVal) : Res JsVal :=
  match v with
  | JUndefined | JNull => Throw TypeError
  | JArr xs => Ok (num (Z.of_nat (List.length xs)) 0)
  | JStr s => Ok (num (Z.of_nat (String.length s)) 0)
  | JObj kvs => Ok (field kvs "length")
  | JBool _ | JNum _ _ => Ok JUndefined
  end.

Section Flags.

(** [v > 0] for a string, an array or an object [v] goes through the
    engine's conversion to a number, which the model does not spell out. *)
Variable positiveAfterConversion : JsVal -> bool.

(** [v > 0] *)
Definition positive (v : JsVal) : bool :=
  match v with
  | JNum m _ => (0 <? m)%Z
  | JBool b => b
  | JUndefined | JNull => false
  | JStr _ | JArr _ | JObj _ => positiveAfterConversion v
  end.

(** [hasReview], line 735. *)
Definition hasReview (data : JsVal) : Res bool :=
  let reviewDetails := prop data "reviewDetails" in
  if truthy reviewDetails then
    n <- lengthOf (prop reviewDetails "pros") ;;
    Ok (positive n || truthy (prop reviewDetails "rating"))
  else Ok false.

End Flags.

Definition is_alnum (c : ascii) : bool :=
  let n := code c in
  ((48 <=? n) && (n <=? 57) || (65 <=? n) && (n <=? 90)
   || (97 <=? n) && (n <=? 122))%N.

(** [title.replace(/[^a-z0-9]/gi, '_')] *)
Fixpoint underscored (title : string) : string :=
  match title with
  | EmptyString => EmptyString
  | String c r => String (if is_alnum c then c else "_"%char) (underscored r)
  end.

(** The name [handleExport] gives the download, line 807. *)
Definition exportFileName (title : string) : string :=
  toLowerCase (underscored title) ++ "_notes.md".

End Result.

(* ================================================================== *)
(** ** The vocabulary of the properties                              *)
(* ================================================================== *)

(** Predicates and sample data in which the properties below are stated.
    Nothing here is part of the program. *)

Module Spec.
Import Str App Chat.

(** *** The sanitizer *)

(** A value whose properties can be read. *)
Definition readable (v : JsVal) : Prop := v <> JNull /\ v <> JUndefined.

(** The study notes of [data], when they are an array, hold no null and no
    undefined section: the inputs on which [sanitizeData] returns. *)
Definition sections_ok (data : JsVal) : Prop :=
  Forall readable (items (ensureArray (prop data "studyNotes"))).

Definition sequenceFields : list string :=
  ["timestamps"; "themes"; "studyNotes"; "quotes"; "speakers"; "subTopics"].

(** The properties [sanitizeData] writes after the spread. *)
Definition defaultedFields : list string :=
  ["videoType"; "timestamps"; "themes"; "studyNotes"; "quotes";
   "speakers"; "subTopics"; "reviewDetails"].

(** A record as the model may send it: one field that is no array, one
    section that is no object, a review without most of its fields. *)
Definition sampleRecord : JsVal :=
  JObj [ ("videoId", JStr "dQw4w9WgXcQ");
         ("title", JStr "X");
         ("themes", JArr [JObj [("topic", JStr "T")]]);
         ("studyNotes", JArr [JObj [("title", JStr "S")]; JStr "loose"]);
         ("quotes", JNull);
         ("reviewDetails", JObj [("pros", JArr [JStr "fast"])]) ].

(** *** The history *)

(** The keys of the entries differ pairwise, as [!==] tells. *)
Fixpoint distinct_keys (entries : list Obj) : Prop :=
  match entries with
  | [] => True
  | h :: rest =>
      Forall (fun h' => strict_eq (item_id h') (item_id h) = false) rest /\
      distinct_keys rest
  end.

Definition tidy (entries : list Obj) : Prop :=
  distinct_keys entries /\ List.length entries <= 10.

(** The histories the component ever holds, given the one the mount
    effect loaded: the empty one of the first render, the loaded one, and
    what a save makes of a history held before.  The list a save reads is
    the one of the render its closure belongs to, which may be an older
    one than the latest; so this covers every caller of [saveToHistory],
    memoised or not, and handlers that overlap in time. *)
Inductive held (loaded : list Obj) : list Obj -> Prop :=
| held_initial : held loaded []
| held_loaded : held loaded loaded
| held_saved : forall older now_id now_date setItem newData updated refused,
    held loaded older ->
    saveToHistory now_id now_date setItem older newData
      = Ok (updated, refused) ->
    held loaded updated.

(** The analyse button is there and takes a click. *)
Definition analyseButton (sh : Shell) : bool :=
  negb (same_mode (inputMode (view sh)) ModeAudio)
  && negb (App.isLoading (view sh))
  && match isAnalysisComplete (view sh) with
     | Some false => true
     | _ => false
     end.

(** Does every click on the analyse button in [events] find the button
    enabled? *)
Fixpoint clickable (sh : Shell) (events : list Action) : bool :=
  match events with
  | [] => true
  | ev :: rest =>
      match ev with
      | ClickAnalyze _ _ _ _ _ _ => analyseButton sh
      | _ => true
      end && clickable (advance sh ev) rest
  end.

(** What the load makes of one stored item. *)
Definition revived (item : JsVal) (loaded : Obj) : Prop :=
  exists clean,
    sanitizeData (prop item "data") = Ok clean /\
    loaded = obj_set "data" clean (spread item) /\
    field loaded "data" = clean.

(** A JSON string literal. *)
Definition lit (s : string) : string := q ++ s ++ q.

(** A stored history of one item in an older shape. *)
Definition storedHistory : string :=
  "[{" ++ lit "id" ++ ":" ++ lit "dQw4w9WgXcQ" ++ ","
       ++ lit "data" ++ ":{" ++ lit "title" ++ ":" ++ lit "X" ++ "}}]".

(** A reply that names no video, and a click on the analyse button at
    the instant [now] that it answers. *)
Definition titledReply : string := "{" ++ lit "title" ++ ":" ++ lit "T" ++ "}".

Definition analyse (now : Z) : Action :=
  ClickAnalyze (fun _ => None) (fun _ _ => Throw (Error "offline"))
               (fun _ => Ok (Some titledReply)) now now None.

(** A transcript is typed, then the button is clicked three times. *)
Definition repeatedAnalyses : list Action :=
  [ SetInputMode ModeTranscript; SetTranscript "notes";
    analyse 1; analyse 2; analyse 3 ].

(** The same, with the transcript edited before each further click. *)
Definition editedAnalyses : list Action :=
  [ SetInputMode ModeTranscript; SetTranscript "notes"; analyse 1;
    SetTranscript "notes."; analyse 2;
    SetTranscript "notes.."; analyse 3 ].

(** Eleven analyses, the transcript edited before each. *)
Definition editThenAnalyse (now : Z) : list Action :=
  [SetTranscript ("notes " ++ Z_to_string now); analyse now].

Definition elevenEdited : list Action :=
  SetInputMode ModeTranscript
  :: flat_map editThenAnalyse [1; 2; 3; 4; 5; 6; 7; 8; 9; 10; 11]%Z.

(** *** Identifiers and the guard *)

Fixpoint all_chars (p : ascii -> bool) (s : string) : bool :=
  match s with
  | EmptyString => true
  | String c r => p c && all_chars p r
  end.

(** Does group 1 of the expression match at some position of [s]? *)
Fixpoint markers_in (s : string) : bool :=
  match s with
  | EmptyString => false
  | String _ r =>
      match marker_at s with
      | Some _ => true
      | None => markers_in r
      end
  end.

(** The literal alternatives of group 1. *)
Definition literalMarkers : list string :=
  ["youtu.be/"; "v/"; "embed/"; "watch?v="; "&v="].

(** The application in URL mode, before anything was analysed. *)
Definition urlState (u : string) : AppState :=
  mkApp ModeUrl u (JStr "") "Auto" false None None "" [].

(** The two error classes are told apart by the head of the message. *)
Definition isMismatch (e : Exn) : bool :=
  startsWith "Analysis Mismatch:" (message_of e).

Definition isNotFound (e : Exn) : bool :=
  startsWith "Video Not Found:" (message_of e).

(** *** The chat *)

(** The loading flag is up exactly while one question awaits its reply. *)
Definition balanced (cfg : Config) : Prop :=
  (Chat.isLoading (ui cfg) = true /\ exists c, inFlight cfg = [c]) \/
  (Chat.isLoading (ui cfg) = false /\ inFlight cfg = []).

(** A question put in the video context, then a switch to research. *)
Definition videoAwaiting : Config :=
  run [Submit 1 1 true (Some "first"); SwitchContext Research].

(** *** The extractor *)

(** The specification's step 2: the span from the first opening brace to
    the last closing brace, both included. *)
Definition braceSpan (text : string) : option string :=
  match indexOf "{" text, lastIndexOf "}" text with
  | Some start, Some stop => Some (substring start (stop + 1) text)
  | _, _ => None
  end.

(** The specification's reading of the extractor: strictly parse the brace
    span of the fence-stripped text. *)
Definition parseInnermostSpan (text : string) : Res JsVal :=
  match braceSpan (cleanJsonString text) with
  | Some span => Json.parse span
  | None => Throw SyntaxError
  end.

Definition no_backtick (c : ascii) : bool := negb (Ascii.eqb c "`").

(** The two token deletions that precede the fence handling. *)
Definition stripTokens (clean : string) : string :=
  removeAll "{:.language-json}" (removeAll "ABLES_START" clean).

(** Commentary in front of an object that no fence encloses. *)
Definition proseReply : string := "Here you go: {" ++ lit "a" ++ ":1}".

Definition sampleObject : string :=
  "{" ++ lit "title" ++ ":" ++ lit "X" ++ ","
      ++ lit "videoType" ++ ":" ++ lit "Educational" ++ ","
      ++ lit "timestamps" ++ ":[],"
      ++ lit "sentiment" ++ ":{" ++ lit "positivePercent" ++ ":10}}".

(** The object in a tagged fence, commentary before and after. *)
Definition fencedReply : string :=
  "Here you go:" ++ Legacy.newline ++ "```json" ++ Legacy.newline
  ++ sampleObject ++ Legacy.newline ++ "```" ++ Legacy.newline
  ++ "Anything else?".

(** *** The shape of a JSON text *)

(** Neither an array nor an object. *)
Definition scalar (v : JsVal) : bool :=
  match v with
  | JArr _ | JObj _ => false
  | _ => true
  end.

Definition scalar_token (t : Json.Token) : bool :=
  match t with
  | Json.TScalar v => scalar v
  | _ => true
  end.

(** The literal the scanner is reading, if it reads one, is a scalar. *)
Definition lex_sound (st : Json.LexState) : bool :=
  match st with
  | Json.LLit _ v => scalar v
  | _ => true
  end.

(** The scanner is inside a token. *)
Definition mid_token (st : Json.LexState) : bool :=
  match st with
  | Json.LDefault => false
  | _ => true
  end.

(** The outermost container under construction is an array. *)
Definition array_below (stack : list Json.Frame) : Prop :=
  exists done above, stack = above ++ [Json.FArr done].

(** The value the recogniser is reading is an array. *)
Definition array_rooted (st : Json.PState) : Prop :=
  match st with
  | Json.PValue _ stack | Json.PKey _ _ stack | Json.PColon _ _ stack =>
      array_below stack
  | Json.PAfter v stack => array_below stack \/ stack = [] /\ isArray v = true
  end.

(** Inline code in the commentary, an untagged fence, and backticks
    inside a string of the object. *)
Definition inlineReply : string :=
  "Use `title` as key:" ++ Legacy.newline ++ "```" ++ Legacy.newline
  ++ "{" ++ lit "title" ++ ":" ++ lit "a ``b`` c" ++ "}" ++ Legacy.newline
  ++ "```" ++ " Done.".

(** *** The repair step *)

(** The characters [repairJson] may delete. *)
Definition separator (c : ascii) : bool := Ascii.eqb c "," || is_space c.

(** The text without its commas and its whitespace. *)
Fixpoint significant (s : string) : string :=
  match s with
  | EmptyString => EmptyString
  | String c r =>
      if separator c then significant r else String c (significant r)
  end.

(** Is there a comma that only whitespace separates from a closing
    bracket? *)
Fixpoint dangling_comma (s : string) : bool :=
  match s with
  | EmptyString => false
  | String c r => Ascii.eqb c "," && closer_ahead r || dangling_comma r
  end.

Definition other_than (x c : ascii) : bool := negb (Ascii.eqb c x).

(** *** The research record and the two revisions of the sanitizer *)

Definition researchFields : list string :=
  ["topic"; "definition"; "history"; "keyConcepts"; "relevance"; "sources"].

Definition textFields : list string := ["definition"; "history"; "relevance"].

(** A research reply with a field of the wrong type and one the record
    does not know. *)
Definition sampleResearch : JsVal :=
  JObj [("topic", JStr "Fusion"); ("sources", JStr "none");
        ("extra", JBool true)].

(** An array, or a value that [||] replaces. *)
Definition array_or_falsy (v : JsVal) : bool := isArray v || negb (truthy v).

Definition section_conforms (s : JsVal) : Prop :=
  readable s /\ array_or_falsy (prop s "points") = true.

Definition review_conforms (rd : JsVal) : Prop :=
  truthy rd = false \/
  truthy (prop rd "item") = true /\ truthy (prop rd "verdict") = true /\
  array_or_falsy (prop rd "pros") = true /\
  array_or_falsy (prop rd "cons") = true.

(** A record that follows the declared types of [AnalysisData] where the
    two revisions of the sanitizer look. *)
Definition conforms (data : JsVal) : Prop :=
  truthy data = true /\
  (forall f, In f sequenceFields -> array_or_falsy (prop data f) = true) /\
  Forall section_conforms (items (ensureArray (prop data "studyNotes"))) /\
  review_conforms (prop data "reviewDetails").

Definition typedRecord : JsVal :=
  JObj [ ("title", JStr "X");
         ("themes", JArr [JObj [("topic", JStr "T")]]);
         ("studyNotes", JArr [JObj [("title", JStr "S")]]);
         ("quotes", JNull) ].

(** *** The history panel and the uploads *)

(** The characters of a video identifier: letters, digits, [_] and [-]. *)
Definition videoIdChar (c : ascii) : bool := is_word c || Ascii.eqb c "-".

Definition blank (s : string) : bool := trim s =? "".

(** An entry whose [data] came out of the sanitizer. *)
Definition sanitized_entry (item : Obj) : Prop :=
  exists raw, sanitizeData raw = Ok (field item "data").

(** An entry as a URL analysis stores it. *)
Definition sampleEntry : Obj :=
  [("id", JStr "dQw4w9WgXcQ");
   ("data", JObj [("videoId", JStr "dQw4w9WgXcQ")])].

(** *** The chat log *)

Definition is_user (m : ChatMessage) : bool :=
  match role m with
  | User => true
  | Model => false
  end.

Definition is_model (m : ChatMessage) : bool := negb (is_user m).

(** A log made of questions, each directly followed by a reply. *)
Fixpoint exchanges (log : list ChatMessage) : bool :=
  match log with
  | [] => true
  | question :: reply :: rest =>
      is_user question && is_model reply && exchanges rest
  | [_] => false
  end.

Definition same_context (c c' : Context) : bool :=
  match c, c' with
  | Video, Video | Research, Research => true
  | _, _ => false
  end.

(** Does a question of context [c] await its reply? *)
Definition awaits (c : Context) (cfg : Config) : bool :=
  match inFlight cfg with
  | [c'] => same_context c c'
  | _ => false
  end.

(** The log of context [c] since [start]: complete exchanges, and after
    them the open question when one awaits its reply. *)
Definition filed (c : Context) (start : ChatState) (cfg : Config) : Prop :=
  exists log,
    messagesOf c (ui cfg) = messagesOf c start ++ log /\
    if awaits c cfg
    then exists done question,
           log = done ++ [question] /\ exchanges done = true /\
           is_user question = true
    else exchanges log = true.

(** *** The quiz *)

(** The answers given so far. *)
Definition answered (st : Quiz.QuizState) : nat :=
  Quiz.currentQuestion st + (if Quiz.showResult st then 1 else 0).

(** The invariant of the quiz: no handler has thrown, the loading flag is
    up exactly while one request is awaited, the effect's request is only
    awaited before any quiz was loaded, the counters are at rest until
    then, and afterwards the current question exists and the score counts
    answers given. *)
Definition quiz_sound (cfg : Quiz.Config) : Prop :=
  let st := Quiz.ui cfg in
  Quiz.thrown cfg = [] /\
  (Quiz.isLoading st = true /\ (exists o, Quiz.pending cfg = [o]) \/
   Quiz.isLoading st = false /\ Quiz.pending cfg = []) /\
  (Quiz.pending cfg = [Quiz.Auto] -> Quiz.quizData st = None) /\
  match Quiz.quizData st with
  | None =>
      Quiz.currentQuestion st = 0 /\ Quiz.score st = 0 /\
      Quiz.showResult st = false /\ Quiz.isFinished st = false
  | Some questions =>
      Quiz.currentQuestion st < List.length questions /\
      Quiz.score st <= answered st /\
      (Quiz.isFinished st = true ->
         Quiz.showResult st = true /\
         S (Quiz.currentQuestion st) = List.length questions)
  end.

(** The quiz as a successful [startQuiz] leaves it. *)
Definition loaded (questions : list Quiz.QuizQuestion) : Quiz.Config :=
  Quiz.mkConfig
    (Quiz.mkQuiz (Some questions) false 0 None 0 false false None) [] [].

(** Answering every question in turn. *)
Definition play (answers : list nat) : list Quiz.Event :=
  flat_map (fun a => [Quiz.ClickOption a; Quiz.ClickNext]) answers.

(** The answers that name the correct option of their question. *)
Fixpoint correct (answers : list nat) (questions : list Quiz.QuizQuestion)
  : nat :=
  match answers, questions with
  | a :: answers', q :: questions' =>
      (if (Z.of_nat a =? Quiz.correctAnswer q)%Z then 1 else 0)
      + correct answers' questions'
  | _, _ => 0
  end.

(** One answer per question, each naming an option its question offers. *)
Fixpoint offered (answers : list nat) (questions : list Quiz.QuizQuestion)
  : bool :=
  match answers, questions with
  | [], [] => true
  | a :: answers', q :: questions' =>
      (a <? List.length (Quiz.options q))%nat && offered answers' questions'
  | _, _ => false
  end.

Definition sampleQuiz : list Quiz.QuizQuestion :=
  [ Quiz.mkQuestion "First?" ["a"; "b"] 1 "b it is";
    Quiz.mkQuestion "Second?" ["a"; "b"; "c"] 0 "a it is" ].

(** *** The export *)

(** A lower-case letter, a digit or the underscore. *)
Definition plain (c : ascii) : bool :=
  let n := code c in
  ((48 <=? n) && (n <=? 57) || (97 <=? n) && (n <=? 122) || (n =? 95))%N.

End Spec.
Export Spec.

(* ================================================================== *)
(** ** Properties: objects                                             *)
(* ================================================================== *)

Section ObjectFacts.

Lemma lookup_obj_set_eq (k : string) (v : JsVal) (o : Obj) :
  lookup k (obj_set k v o) = Some v.
Proof.
  induction o as [|[k' v'] o IH]; simpl.
  - now rewrite String.eqb_refl.
  - destruct (String.eqb_spec k' k) as [->|Hne]; simpl.
    + now rewrite String.eqb_refl.
    + destruct (String.eqb_spec k' k); [contradiction | exact IH].
Qed.

Lemma lookup_obj_set_ne (k k' : string) (v : JsVal) (o : Obj) :
  k <> k' -> lookup k' (obj_set k v o) = lookup k' o.
Proof.
  intros Hne. induction o as [|[k0 v0] o IH]; simpl.
  - destruct (String.eqb_spec k k'); [contradiction | reflexivity].
  - destruct (String.eqb_spec k0 k) as [->|Hk]; simpl.
    + destruct (String.eqb_spec k k'); [contradiction | reflexivity].
    + destruct (String.eqb_spec k0 k'); [reflexivity | exact IH].
Qed.

(** Writing the value a property already has changes nothing. *)
Lemma obj_set_same (k : string) (v : JsVal) (o : Obj) :
  lookup k o = Some v -> obj_set k v o = o.
Proof.
  induction o as [|[k' v'] o IH]; simpl; [discriminate|].
  destruct (String.eqb_spec k' k) as [->|Hne].
  - now intros [= ->].
  - intros H. now rewrite IH.
Qed.

Lemma lookup_literal_other (k : string) (props : list (string * JsVal)) :
  forall base, ~ In k (map fst props) ->
  lookup k (obj_literal base props) = lookup k base.
Proof.
  unfold obj_literal.
  induction props as [|[k' v'] props IH]; intros base Hk; simpl; [reflexivity|].
  simpl in Hk. rewrite IH by tauto.
  apply lookup_obj_set_ne. tauto.
Qed.

Lemma lookup_literal_written (k : string) (v : JsVal)
    (props : list (string * JsVal)) :
  forall base, NoDup (map fst props) -> In (k, v) props ->
  lookup k (obj_literal base props) = Some v.
Proof.
  unfold obj_literal.
  induction props as [|[k' v'] props IH]; intros base Hnd Hin; simpl in *.
  - contradiction.
  - inversion Hnd as [|? ? Hnotin Hnd']; subst.
    destruct Hin as [[= -> ->]|Hin].
    + fold (obj_literal (obj_set k v base) props).
      rewrite lookup_literal_other by assumption.
      apply lookup_obj_set_eq.
    + now apply IH.
Qed.

Lemma obj_literal_same (props : list (string * JsVal)) :
  forall o, (forall k v, In (k, v) props -> lookup k o = Some v) ->
  obj_literal o props = o.
Proof.
  unfold obj_literal.
  induction props as [|[k v] props IH]; intros o H; simpl; [reflexivity|].
  rewrite obj_set_same by (apply H; now left).
  apply IH. intros k' v' Hin. apply H. now right.
Qed.

Lemma field_literal_written (k : string) (v : JsVal)
    (props : list (string * JsVal)) (base : Obj) :
  NoDup (map fst props) -> In (k, v) props ->
  field (obj_literal base props) k = v.
Proof.
  intros Hnd Hin. unfold field.
  now rewrite (lookup_literal_written k v props base Hnd Hin).
Qed.

End ObjectFacts.

(* ================================================================== *)
(** ** Properties: the Domain Sanitizer                                *)
(* ================================================================== *)

Section SanitizerFacts.

Lemma ensureArray_isArray (v : JsVal) : isArray (ensureArray v) = true.
Proof. unfold ensureArray. destruct (isArray v) eqn:E; [exact E | reflexivity]. Qed.

Lemma ensureArray_array (v : JsVal) :
  isArray v = true -> ensureArray v = v.
Proof. unfold ensureArray. now intros ->. Qed.

Lemma ensureArray_default (v : JsVal) :
  isArray v = false -> ensureArray v = JArr [].
Proof. unfold ensureArray. now intros ->. Qed.

Lemma ensureArray_idem (v : JsVal) :
  ensureArray (ensureArray v) = ensureArray v.
Proof. apply ensureArray_array, ensureArray_isArray. Qed.

Lemma js_or_idem (a d : JsVal) :
  truthy d = true -> js_or (js_or a d) d = js_or a d.
Proof.
  intros Hd. unfold js_or. destruct (truthy a) eqn:Ea.
  - now rewrite Ea.
  - now rewrite Hd.
Qed.

Lemma isArray_items (v : JsVal) : isArray v = true -> v = JArr (items v).
Proof. destruct v; simpl; congruence. Qed.

Lemma mapM_Forall2 {A B : Type} (f : A -> Res B) (l : list A) (ys : list B) :
  mapM f l = Ok ys <-> Forall2 (fun x y => f x = Ok y) l ys.
Proof.
  revert ys. induction l as [|x l IH]; intros ys; simpl.
  - split.
    + intros [= <-]. constructor.
    + intros H. now inversion H.
  - split.
    + destruct (f x) as [y|] eqn:Ex; simpl; [|discriminate].
      destruct (mapM f l) as [ys'|] eqn:El; simpl; [|discriminate].
      intros [= <-]. constructor; [exact Ex | now apply IH].
    + intros H. inversion H as [|? y ? ys' Hx Hl]; subst.
      rewrite Hx. simpl. apply IH in Hl. now rewrite Hl.
Qed.

Lemma getProp_readable (v : JsVal) (k : string) :
  readable v -> getProp v k = Ok (prop v k).
Proof. intros [H1 H2]. destruct v; simpl; congruence. Qed.

Lemma getProp_Ok (v : JsVal) (k : string) (w : JsVal) :
  getProp v k = Ok w -> readable v /\ w = prop v k.
Proof.
  unfold readable. destruct v; simpl; intros [= <-] || discriminate;
    repeat split; discriminate.
Qed.

Lemma sanitizeSection_Ok (s s' : JsVal) :
  sanitizeSection s = Ok s' <->
  readable s /\
  s' = JObj (obj_set "points" (ensureArray (prop s "points")) (spread s)).
Proof.
  unfold sanitizeSection. split.
  - destruct (getProp s "points") as [w|] eqn:E; simpl; [|discriminate].
    apply getProp_Ok in E as [Hr ->]. intros [= <-]. now split.
  - intros [Hr ->]. now rewrite (getProp_readable _ _ Hr).
Qed.

Lemma sanitizeSection_points (s s' : JsVal) :
  sanitizeSection s = Ok s' ->
  prop s' "points" = ensureArray (prop s "points").
Proof.
  intros H. apply sanitizeSection_Ok in H as [_ ->].
  simpl. unfold field. now rewrite lookup_obj_set_eq.
Qed.

Lemma sanitizeSection_idem (s s' : JsVal) :
  sanitizeSection s = Ok s' -> sanitizeSection s' = Ok s'.
Proof.
  intros H. pose proof (sanitizeSection_points _ _ H) as Hp.
  apply sanitizeSection_Ok in H as [_ Hs].
  apply sanitizeSection_Ok. split.
  - subst s'. split; discriminate.
  - rewrite Hp, ensureArray_idem. rewrite Hs at 2. simpl.
    rewrite obj_set_same; [exact Hs|].
    apply lookup_obj_set_eq.
Qed.

Lemma sanitizedProps_keys (data : JsVal) (notes : list JsVal) :
  map fst (sanitizedProps data notes) =
  ["videoType"; "timestamps"; "themes"; "studyNotes"; "quotes";
   "speakers"; "subTopics"; "reviewDetails"].
Proof. reflexivity. Qed.

Lemma sanitizedProps_NoDup (data : JsVal) (notes : list JsVal) :
  NoDup (map fst (sanitizedProps data notes)).
Proof.
  rewrite sanitizedProps_keys.
  repeat (constructor; [simpl; intuition discriminate|]). constructor.
Qed.

(** The two branches of [sanitizeData]. *)
Lemma sanitizeData_falsy (data : JsVal) :
  truthy data = false -> sanitizeData data = Ok (JObj []).
Proof. unfold sanitizeData. now intros ->. Qed.

Lemma sanitizeData_truthy (data r : JsVal) :
  truthy data = true ->
  (sanitizeData data = Ok r <->
   exists notes,
     mapM sanitizeSection (items (ensureArray (prop data "studyNotes")))
       = Ok notes /\
     r = JObj (obj_literal (spread data) (sanitizedProps data notes))).
Proof.
  intros Ht. unfold sanitizeData. rewrite Ht. simpl. split.
  - destruct (mapM _ _) as [notes|] eqn:E; simpl; [|discriminate].
    intros [= <-]. now exists notes.
  - intros (notes & -> & ->). reflexivity.
Qed.

(** A written property of the sanitised record. *)
Lemma sanitized_written (data : JsVal) (notes : list JsVal) (k : string)
    (v : JsVal) :
  In (k, v) (sanitizedProps data notes) ->
  prop (JObj (obj_literal (spread data) (sanitizedProps data notes))) k = v.
Proof.
  intros Hin. unfold prop.
  apply field_literal_written; [apply sanitizedProps_NoDup | exact Hin].
Qed.

Lemma mapM_sanitizeSection_total (l : list JsVal) :
  Forall readable l -> exists notes, mapM sanitizeSection l = Ok notes.
Proof.
  induction 1 as [|s l Hs _ [notes IH]]; simpl.
  - now exists [].
  - unfold sanitizeSection at 1. rewrite (getProp_readable _ _ Hs). simpl.
    rewrite IH. simpl. eexists. reflexivity.
Qed.

Lemma sanitizeData_returns (data : JsVal) :
  sections_ok data <-> exists r, sanitizeData data = Ok r.
Proof.
  split.
  - intros Hok. destruct (truthy data) eqn:Ht.
    + destruct (mapM_sanitizeSection_total _ Hok) as [notes Hn].
      eexists. apply sanitizeData_truthy; [exact Ht|]. now exists notes.
    + eexists. now apply sanitizeData_falsy.
  - intros [r Hr]. destruct (truthy data) eqn:Ht.
    + apply sanitizeData_truthy in Hr as (notes & Hn & _); [|exact Ht].
      apply mapM_Forall2 in Hn. unfold sections_ok.
      induction Hn as [|s s' l l' Hs _ IH]; constructor; [|exact IH].
      now apply sanitizeSection_Ok in Hs.
    + unfold sections_ok. destruct data; simpl in *; try discriminate;
        constructor.
Qed.

Lemma notes_of_non_array (data : JsVal) (notes : list JsVal) :
  isArray (prop data "studyNotes") = false ->
  mapM sanitizeSection (items (ensureArray (prop data "studyNotes")))
    = Ok notes ->
  notes = [].
Proof.
  intros Hna. rewrite (ensureArray_default _ Hna). simpl. now intros [= <-].
Qed.

Lemma sanitized_sequence (data : JsVal) (notes : list JsVal) (f : string) :
  mapM sanitizeSection (items (ensureArray (prop data "studyNotes")))
    = Ok notes ->
  In f sequenceFields ->
  let r := JObj (obj_literal (spread data) (sanitizedProps data notes)) in
  isArray (prop r f) = true /\
  (isArray (prop data f) = false -> prop r f = JArr []).
Proof.
  intros Hn Hf r. unfold sequenceFields in Hf. simpl in Hf.
  destruct Hf as [<-|[<-|[<-|[<-|[<-|[<-|[]]]]]]]; subst r;
    try (rewrite (sanitized_written data notes _ (ensureArray (prop data _)))
           by (simpl; tauto);
         split; [apply ensureArray_isArray | apply ensureArray_default]).
  rewrite (sanitized_written data notes "studyNotes" (JArr notes))
    by (simpl; tauto).
  split; [reflexivity|].
  intros Hna. now rewrite (notes_of_non_array data notes Hna Hn).
Qed.

(** C2, counterexample: on [null] the guard answers the empty object, in
    which no sequence-valued field is an array. *)
Lemma sanitizeData_null_has_no_sequences :
  sanitizeData JNull = Ok (JObj []) /\
  isArray (prop (JObj []) "timestamps") = false /\
  prop (JObj []) "studyNotes" = JUndefined.
Proof. repeat split. Qed.

(** The slip next to it: a null section makes the sanitizer throw. *)
Lemma sanitizeData_null_section_throws :
  sanitizeData (JObj [("studyNotes", JArr [JNull])]) = Throw TypeError.
Proof. reflexivity. Qed.

(** C2, as amended: on every input whose study notes hold no null or
    undefined section, [sanitizeData] returns.  A falsy input (null,
    undefined, false, 0, the empty string) yields the empty object.  For a
    truthy input every sequence-valued field of the result is an array, the
    empty one whenever the input's value was absent or no array and the
    input's own array otherwise, and every section of [studyNotes] carries
    an array of points, empty whenever the section had none. *)
Theorem sanitizeData_sequences (data : JsVal) :
  sections_ok data ->
  exists r,
    sanitizeData data = Ok r /\
    (truthy data = false -> r = JObj []) /\
    (truthy data = true ->
       (forall f, In f sequenceFields ->
          isArray (prop r f) = true /\
          (isArray (prop data f) = false -> prop r f = JArr [])) /\
       (forall f, In f sequenceFields -> f <> "studyNotes" ->
          isArray (prop data f) = true -> prop r f = prop data f) /\
       Forall2
         (fun s s' =>
            isArray (prop s' "points") = true /\
            (isArray (prop s "points") = false -> prop s' "points" = JArr []) /\
            (isArray (prop s "points") = true ->
               prop s' "points" = prop s "points"))
         (items (ensureArray (prop data "studyNotes")))
         (items (prop r "studyNotes"))).
Proof.
  intros Hok. destruct (truthy data) eqn:Ht.
  - destruct (mapM_sanitizeSection_total _ Hok) as [notes Hn].
    exists (JObj (obj_literal (spread data) (sanitizedProps data notes))).
    split; [apply sanitizeData_truthy; [exact Ht | now exists notes]|].
    split; [discriminate|]. intros _. split; [|split].
    + intros f Hf. now apply sanitized_sequence.
    + intros f Hf Hne Harr. unfold sequenceFields in Hf. simpl in Hf.
      destruct Hf as [<-|[<-|[<-|[<-|[<-|[<-|[]]]]]]];
        try congruence;
        rewrite (sanitized_written data notes _ (ensureArray (prop data _)))
          by (simpl; tauto);
        now apply ensureArray_array.
    + rewrite (sanitized_written data notes "studyNotes" (JArr notes))
        by (simpl; tauto).
      simpl. apply mapM_Forall2 in Hn.
      induction Hn as [|s s' l l' Hs _ IH]; constructor; [|exact IH].
      rewrite (sanitizeSection_points _ _ Hs).
      split; [apply ensureArray_isArray|].
      split; [apply ensureArray_default | apply ensureArray_array].
  - exists (JObj []). split; [now apply sanitizeData_falsy|].
    split; [reflexivity | discriminate].
Qed.

Lemma sampleRecord_sections_ok : sections_ok sampleRecord.
Proof.
  unfold sections_ok. simpl.
  repeat constructor; discriminate.
Defined.

Lemma sanitizeData_sequences_witness :
  exists r,
    sanitizeData sampleRecord = Ok r /\
    (truthy sampleRecord = false -> r = JObj []) /\
    (truthy sampleRecord = true ->
       (forall f, In f sequenceFields ->
          isArray (prop r f) = true /\
          (isArray (prop sampleRecord f) = false -> prop r f = JArr [])) /\
       (forall f, In f sequenceFields -> f <> "studyNotes" ->
          isArray (prop sampleRecord f) = true ->
          prop r f = prop sampleRecord f) /\
       Forall2
         (fun s s' =>
            isArray (prop s' "points") = true /\
            (isArray (prop s "points") = false -> prop s' "points" = JArr []) /\
            (isArray (prop s "points") = true ->
               prop s' "points" = prop s "points"))
         (items (ensureArray (prop sampleRecord "studyNotes")))
         (items (prop r "studyNotes"))).
Proof.
  apply (sanitizeData_sequences sampleRecord).
  exact sampleRecord_sections_ok.
Defined.

(** *** Idempotence *)

Lemma mapM_fixed {A : Type} (f : A -> Res A) (l : list A) :
  Forall (fun y => f y = Ok y) l -> mapM f l = Ok l.
Proof.
  induction 1 as [|y l Hy _ IH]; simpl; [reflexivity|].
  now rewrite Hy, IH.
Qed.

Lemma sanitizeReview_idem (rd : JsVal) :
  sanitizeReview (sanitizeReview rd) = sanitizeReview rd.
Proof.
  unfold sanitizeReview at 1 3. simpl obj_literal.
  f_equal. unfold sanitizeReview. simpl.
  unfold field; simpl.
  rewrite !js_or_idem by reflexivity. rewrite !ensureArray_idem.
  reflexivity.
Qed.

Lemma sanitizeReview_truthy (rd : JsVal) : truthy (sanitizeReview rd) = true.
Proof. reflexivity. Qed.

(** C7, counterexample: [null] is sent to the empty object, which a second
    pass fills with every default. *)
Lemma sanitizeData_not_idempotent_at_null :
  sanitizeData JNull = Ok (JObj []) /\
  sanitizeData (JObj []) <> Ok (JObj []).
Proof. split; [reflexivity | discriminate]. Qed.

(** C7, as amended: on every truthy input on which it returns,
    [sanitizeData] is idempotent: sanitising its result again returns that
    same record. *)
Theorem sanitizeData_idempotent (x y : JsVal) :
  truthy x = true -> sanitizeData x = Ok y -> sanitizeData y = Ok y.
Proof.
  intros Ht Hy.
  apply sanitizeData_truthy in Hy as (notes & Hn & ->); [|exact Ht].
  set (y := JObj (obj_literal (spread x) (sanitizedProps x notes))).
  assert (Hw : forall k v, In (k, v) (sanitizedProps x notes) -> prop y k = v)
    by (intros k v Hin; now apply sanitized_written).
  apply sanitizeData_truthy; [reflexivity|]. exists notes. split.
  - rewrite (Hw "studyNotes" (JArr notes)) by (simpl; tauto).
    simpl. apply mapM_fixed. apply mapM_Forall2 in Hn.
    clear -Hn. induction Hn as [|s s' l l' Hs _ IH]; constructor; [|exact IH].
    now apply sanitizeSection_idem in Hs.
  - assert (Hprops : sanitizedProps y notes = sanitizedProps x notes).
    { unfold sanitizedProps.
      rewrite (Hw "videoType" _) by (simpl; left; reflexivity).
      rewrite (Hw "timestamps" _) by (simpl; right; left; reflexivity).
      rewrite (Hw "themes" _) by (simpl; do 2 right; left; reflexivity).
      rewrite (Hw "quotes" _) by (simpl; do 4 right; left; reflexivity).
      rewrite (Hw "speakers" _) by (simpl; do 5 right; left; reflexivity).
      rewrite (Hw "subTopics" _) by (simpl; do 6 right; left; reflexivity).
      rewrite (Hw "reviewDetails" _) by (simpl; do 7 right; left; reflexivity).
      rewrite js_or_idem by reflexivity. rewrite !ensureArray_idem.
      destruct (truthy (prop x "reviewDetails")).
      - now rewrite sanitizeReview_truthy, sanitizeReview_idem.
      - reflexivity. }
    rewrite Hprops. subst y.
    change (spread (JObj (obj_literal (spread x) (sanitizedProps x notes))))
      with (obj_literal (spread x) (sanitizedProps x notes)).
    f_equal. symmetry. apply obj_literal_same. intros k v Hin.
    apply lookup_literal_written; [apply sanitizedProps_NoDup | exact Hin].
Qed.

Lemma sanitizeData_idempotent_witness :
  exists y, sanitizeData sampleRecord = Ok y /\ sanitizeData y = Ok y.
Proof.
  eexists. split; [reflexivity|].
  apply (sanitizeData_idempotent sampleRecord); reflexivity.
Defined.

(** *** The review details *)



(** *** The frame *)

(** C10: on an object [sanitizeData] returns (whenever the study notes hold
    no null section), and every property that it does not write ([title],
    [summary], [transcript], [videoId], [sentiment] and any other key
    outside [defaultedFields]) is in the result exactly as it is in the
    input: present with the same value, or absent. *)
Theorem sanitizeData_frame (kvs : Obj) :
  (sections_ok (JObj kvs) <-> exists r, sanitizeData (JObj kvs) = Ok r) /\
  forall r,
    sanitizeData (JObj kvs) = Ok r ->
    exists out,
      r = JObj out /\
      (forall k, ~ In k defaultedFields -> lookup k out = lookup k kvs) /\
      (forall k,
         In k ["title"; "summary"; "transcript"; "videoId"; "sentiment"] ->
         prop r k = prop (JObj kvs) k).
Proof.
  split; [apply sanitizeData_returns|]. intros r Hr.
  apply sanitizeData_truthy in Hr as (notes & _ & ->); [|reflexivity].
  eexists. split; [reflexivity|].
  assert (Hframe : forall k, ~ In k defaultedFields ->
            lookup k (obj_literal (spread (JObj kvs))
                        (sanitizedProps (JObj kvs) notes)) = lookup k kvs).
  { intros k Hk. rewrite lookup_literal_other; [reflexivity|].
    now rewrite sanitizedProps_keys. }
  split; [exact Hframe|].
  intros k Hk. unfold prop, field. rewrite Hframe; [reflexivity|].
  simpl in Hk. unfold defaultedFields. simpl.
  intuition (subst; discriminate).
Qed.

Lemma sanitizeData_frame_witness :
  exists r,
    sanitizeData sampleRecord = Ok r /\
    prop r "videoId" = JStr "dQw4w9WgXcQ" /\
    prop r "summary" = JUndefined.
Proof.
  eexists. split; [reflexivity|].
  destruct (proj2 (sanitizeData_frame
              [ ("videoId", JStr "dQw4w9WgXcQ");
                ("title", JStr "X");
                ("themes", JArr [JObj [("topic", JStr "T")]]);
                ("studyNotes", JArr [JObj [("title", JStr "S")]; JStr "loose"]);
                ("quotes", JNull);
                ("reviewDetails", JObj [("pros", JArr [JStr "fast"])]) ])
              _ eq_refl) as (out & _ & _ & Hnamed).
  split; rewrite Hnamed; try reflexivity; simpl; tauto.
Defined.

End SanitizerFacts.

(* ================================================================== *)
(** ** Properties: the History Store                                   *)
(* ================================================================== *)

Section HistoryFacts.
Import App.

Lemma is_str_true (v : JsVal) (s : string) :
  is_str v s = true <-> v = JStr s.
Proof.
  destruct v; simpl; split; try discriminate.
  - intros H. apply String.eqb_eq in H. now subst.
  - intros [= ->]. apply String.eqb_refl.
Qed.

Lemma other_key_true (newItem h : Obj) :
  other_key newItem h = true <->
  strict_eq (item_id h) (item_id newItem) = false.
Proof. unfold other_key. apply negb_true_iff. Qed.

Lemma historyItem_Ok (now_id now_date : Z) (sd : JsVal) (newItem : Obj) :
  historyItem now_id now_date sd = Ok newItem ->
  item_id newItem = historyKey now_id sd /\
  field newItem "data" = sd /\
  thumbnailOf sd = Ok (field newItem "thumbnail").
Proof.
  unfold historyItem. destruct (thumbnailOf sd) as [thumbnail|e];
    cbn [bind]; [|discriminate].
  intros [= <-]. repeat split.
Qed.

Lemma saveToHistory_Ok (now_id now_date : Z) (setItem : option Exn)
    (history : list Obj) (newData : JsVal) (updated : list Obj)
    (refused : option Exn) :
  saveToHistory now_id now_date setItem history newData
    = Ok (updated, refused) <->
  exists sd newItem,
    sanitizeData newData = Ok sd /\
    historyItem now_id now_date sd = Ok newItem /\
    updated = pushRecent newItem history /\
    refused = setItem.
Proof.
  unfold saveToHistory. split.
  - destruct (sanitizeData newData) as [sd|] eqn:E; cbn [bind]; [|discriminate].
    destruct (historyItem now_id now_date sd) as [newItem|] eqn:Hi;
      cbn [bind]; [|discriminate].
    intros [= <- <-]. now exists sd, newItem.
  - intros (sd & newItem & -> & Hi & -> & ->). cbn [bind]. now rewrite Hi.
Qed.

Lemma pushRecent_shape (newItem : Obj) (history : list Obj) :
  pushRecent newItem history =
  newItem :: firstn 9 (filter (other_key newItem) history).
Proof. reflexivity. Qed.

Lemma pushRecent_length (newItem : Obj) (history : list Obj) :
  List.length (pushRecent newItem history) <= 10.
Proof. unfold pushRecent. apply firstn_le_length. Qed.

Lemma In_firstn {A : Type} (n : nat) (l : list A) (x : A) :
  In x (firstn n l) -> In x l.
Proof.
  revert l. induction n as [|n IH]; intros [|y l]; simpl; try tauto.
  intros [->|H]; [now left | right; now apply IH].
Qed.

(** Dropping entries keeps the keys distinct. *)
Lemma distinct_keys_filter (newItem : Obj) (history : list Obj) :
  distinct_keys history ->
  distinct_keys (filter (other_key newItem) history).
Proof.
  induction history as [|h history IH]; [trivial|].
  intros [Hh Hrest]. cbn [filter].
  destruct (other_key newItem h); [|now apply IH].
  split; [|now apply IH].
  apply Forall_forall. intros h' Hin. apply filter_In in Hin as [Hin _].
  rewrite Forall_forall in Hh. now apply Hh.
Qed.

Lemma distinct_keys_firstn (n : nat) (history : list Obj) :
  distinct_keys history -> distinct_keys (firstn n history).
Proof.
  revert history. induction n as [|n IH]; intros [|h history]; try easy.
  intros [Hh Hrest]. cbn [firstn]. split; [|now apply IH].
  apply Forall_forall. intros h' Hin. apply In_firstn in Hin.
  rewrite Forall_forall in Hh. now apply Hh.
Qed.

(** After a save no other item carries the key of the new one. *)
Lemma pushRecent_rest_other (newItem : Obj) (history : list Obj) :
  Forall (fun h => strict_eq (item_id h) (item_id newItem) = false)
         (firstn 9 (filter (other_key newItem) history)).
Proof.
  apply Forall_forall. intros h Hin. apply In_firstn in Hin.
  apply filter_In in Hin as [_ Hk]. now apply other_key_true.
Qed.

Lemma pushRecent_tidy (newItem : Obj) (history : list Obj) :
  distinct_keys history -> tidy (pushRecent newItem history).
Proof.
  intros Hd. split; [|apply pushRecent_length].
  unfold pushRecent. apply distinct_keys_firstn. split.
  - apply Forall_forall. intros h Hin. apply filter_In in Hin as [_ Hk].
    now apply other_key_true.
  - now apply distinct_keys_filter.
Qed.

(** The invariant of the store. *)
Lemma held_tidy (loaded entries : list Obj) :
  tidy loaded -> held loaded entries -> tidy entries.
Proof.
  intros Hl. induction 1 as [| |older now_id now_date setItem newData updated
                               refused _ [IH _] Hsave].
  - split; [exact I | simpl; lia].
  - exact Hl.
  - apply saveToHistory_Ok in Hsave as (sd & newItem & _ & _ & -> & _).
    now apply pushRecent_tidy.
Qed.

(** *** The handlers and the history *)

Lemma handleAnalyze_history (hostnameOf : string -> option string)
    (backend : string -> string -> Res BackendResponse)
    (generate : string -> Res (option string))
    (now_id now_date : Z) (setItem : option Exn) (closure : list Obj)
    (st : AppState) :
  let st' := after (handleAnalyze hostnameOf backend generate now_id
                      now_date setItem closure st) in
  history st' = history st \/
  exists result refused,
    saveToHistory now_id now_date setItem closure result
      = Ok (history st', refused).
Proof.
  cbv zeta. unfold handleAnalyze. cbv zeta.
  destruct (validate hostnameOf (with_error None st)) as [[message|]|e];
    [now left| |now left].
  destruct (analysis backend generate (with_error None st))
    as [[[result|e] step] requests]; [|now left].
  cbn [after].
  destruct (saveToHistory now_id now_date setItem closure result)
    as [[updated refused]|e] eqn:Hsave; [|now left].
  right. now exists result, refused.
Qed.

Lemma processPdfFile_history (generate : string -> Res (option string))
    (fileName : string) (document : Res (list (list (option string))))
    (now_id now_date : Z) (setItem : option Exn) (st : AppState) :
  let st' := fst (processPdfFile generate fileName document now_id now_date
                    setItem st) in
  history st' = history st \/
  exists result refused,
    saveToHistory now_id now_date setItem (history st) result
      = Ok (history st', refused).
Proof.
  cbv zeta. unfold processPdfFile. cbv zeta.
  destruct (bind (Pdf.extractTextFromPdf document) _) as [text|e];
    [|now left].
  destruct (bind (generate _) _) as [analysed|e]; [|now left].
  destruct (saveToHistory now_id now_date setItem (history st)
              (enhanceTitle fileName analysed))
    as [[updated [e|]]|e] eqn:Hsave; [right|right|now left];
    eexists; eexists; exact Hsave.
Qed.

Lemma loadFromHistory_history (item : Obj) (st : AppState) :
  history (fst (loadFromHistory item st)) = history st.
Proof.
  unfold loadFromHistory. cbv zeta.
  destruct (sanitizeData (field item "data")); [|reflexivity].
  destruct (getProp (field item "data") "videoId") as [videoId|];
    [|reflexivity].
  destruct (truthy videoId).
  - destruct (toText videoId); reflexivity.
  - destruct (truthy (prop (field item "data") "transcript")); reflexivity.
Qed.

(** Whatever the event, the component and the closure of the memoised
    handler hold histories of the kind [held] describes. *)
Lemma advance_held (loaded : list Obj) (sh : Shell) (ev : Action) :
  held loaded (history (view sh)) -> held loaded (closure sh) ->
  held loaded (history (view (advance sh ev))) /\
  held loaded (closure (advance sh ev)).
Proof.
  intros Hview Hclosure.
  assert (Hnew : held loaded (history (handle ev sh))).
  { destruct ev as [mode|text|text|videoType
                    |hostnameOf backend generate now_id now_date setItem
                    |generate fileName document now_id now_date setItem|i];
      cbn [handle]; try exact Hview.
    - destruct (handleAnalyze_history hostnameOf backend generate now_id
                  now_date setItem (closure sh) (view sh))
        as [->|(result & refused & Hsave)]; [exact Hview|].
      exact (held_saved _ _ _ _ _ _ _ _ Hclosure Hsave).
    - destruct (processPdfFile_history generate fileName document now_id
                  now_date setItem (view sh))
        as [->|(result & refused & Hsave)]; [exact Hview|].
      exact (held_saved _ _ _ _ _ _ _ _ Hview Hsave).
    - destruct (nth_error (history (view sh)) i) as [item|]; [|exact Hview].
      now rewrite loadFromHistory_history. }
  unfold advance, rerender. cbn [view closure]. split; [exact Hnew|].
  now destruct (same_deps (view sh) (handle ev sh)).
Qed.

Lemma session_held (saved : option string) (events : list Action) :
  held (fst (loadHistory saved)) (history (view (session saved events))) /\
  held (fst (loadHistory saved)) (closure (session saved events)).
Proof.
  unfold session.
  assert (Hstart : held (fst (loadHistory saved))
                        (history (view (mounted saved))) /\
                   held (fst (loadHistory saved)) (closure (mounted saved))).
  { split; [apply held_loaded | apply held_initial]. }
  revert Hstart. generalize (mounted saved) as sh.
  induction events as [|ev events IH]; intros sh Hsh; [exact Hsh|].
  cbn [fold_left]. apply IH. now apply advance_held.
Qed.

(** C4: what a save does, and where the component loses saved entries.  A
    save keys the new item by the record's video identifier when that is
    truthy and by the decimal text of the clock otherwise, puts the item
    with the sanitised record in front of the list it reads, drops every
    older item under that key and keeps ten items at most.  Every history
    the component ever holds has pairwise distinct keys and at most ten
    items, provided the loaded one has.  But the list a save reads is the
    one in the closure of its caller, and the memoised [handleAnalyze]
    keeps the closure of the render at which one of its inputs last
    changed: three analyses in a row, each click finding the button
    enabled, under the keys 1, 2 and 3, leave the single entry 3, where the
    same analyses with the transcript edited in between leave 3, 2, 1, and
    eleven such analyses leave the ten newest. *)
Theorem saveToHistory_stale_closure :
  (forall now_id now_date setItem history newData updated refused,
     saveToHistory now_id now_date setItem history newData
       = Ok (updated, refused) ->
     exists sd newItem,
       sanitizeData newData = Ok sd /\
       historyItem now_id now_date sd = Ok newItem /\
       item_id newItem =
         (if truthy (prop sd "videoId") then prop sd "videoId"
          else JStr (Z_to_string now_id)) /\
       field newItem "data" = sd /\
       updated = newItem :: firstn 9 (filter (other_key newItem) history) /\
       Forall (fun h => strict_eq (item_id h) (item_id newItem) = false)
              (tl updated) /\
       List.length updated <= 10) /\
  (forall saved events,
     tidy (fst (loadHistory saved)) ->
     tidy (history (view (session saved events)))) /\
  (clickable (mounted None) editedAnalyses = true /\
   map item_id (history (view (session None editedAnalyses)))
     = [JStr "3"; JStr "2"; JStr "1"]) /\
  (clickable (mounted None) elevenEdited = true /\
   map item_id (history (view (session None elevenEdited)))
     = [ JStr "11"; JStr "10"; JStr "9"; JStr "8"; JStr "7"; JStr "6";
         JStr "5"; JStr "4"; JStr "3"; JStr "2" ]) /\
  (clickable (mounted None) repeatedAnalyses = true /\
   map item_id (history (view (session None repeatedAnalyses)))
     = [JStr "3"]).
Proof.
  split; [|split; [|split; [|split]]].
  - intros now_id now_date setItem history newData updated refused Hsave.
    apply saveToHistory_Ok in Hsave as (sd & newItem & Hsd & Hitem & -> & _).
    exists sd, newItem. split; [exact Hsd|]. split; [exact Hitem|].
    apply historyItem_Ok in Hitem as (Hid & Hdata & _).
    split; [exact Hid|]. split; [exact Hdata|].
    rewrite pushRecent_shape. split; [reflexivity|].
    split; [apply pushRecent_rest_other|].
    rewrite <- pushRecent_shape. apply pushRecent_length.
  - intros saved events Hl.
    exact (held_tidy _ _ Hl (proj1 (session_held saved events))).
  - split; vm_compute; reflexivity.
  - split; vm_compute; reflexivity.
  - split; vm_compute; reflexivity.
Qed.

End HistoryFacts.

(* ================================================================== *)
(** ** Properties: loading the persisted history                       *)
(* ================================================================== *)

Section LoadFacts.
Import App Str.

Lemma reviveItem_Ok (item : JsVal) (loaded : Obj) :
  reviveItem item = Ok loaded <-> readable item /\ revived item loaded.
Proof.
  unfold reviveItem, revived. split.
  - destruct (getProp item "data") as [stored|] eqn:E; simpl; [|discriminate].
    apply getProp_Ok in E as [Hr ->].
    destruct (sanitizeData (prop item "data")) as [clean|]; simpl;
      [|discriminate].
    intros [= <-]. split; [exact Hr|]. exists clean.
    repeat split. unfold field. now rewrite lookup_obj_set_eq.
  - intros (Hr & clean & Hclean & -> & _).
    rewrite (getProp_readable _ _ Hr). simpl. now rewrite Hclean.
Qed.

Lemma reviveItem_total (item : JsVal) :
  readable item -> sections_ok (prop item "data") ->
  exists loaded, reviveItem item = Ok loaded.
Proof.
  intros Hr Hok. apply sanitizeData_returns in Hok as [clean Hclean].
  exists (obj_set "data" clean (spread item)).
  apply reviveItem_Ok. split; [exact Hr|]. exists clean.
  repeat split; [exact Hclean|]. unfold field. now rewrite lookup_obj_set_eq.
Qed.

Lemma mapM_total {A B : Type} (f : A -> Res B) (l : list A) :
  Forall (fun x => exists y, f x = Ok y) l -> exists ys, mapM f l = Ok ys.
Proof.
  induction 1 as [|x l [y Hy] _ [ys IH]]; simpl.
  - now exists [].
  - rewrite Hy. simpl. rewrite IH. simpl. now eexists.
Qed.

Lemma parse_empty : Json.parse "" = Throw SyntaxError.
Proof. reflexivity. Qed.

(** C5: the load never throws (it is a function into states).  A stored
    text that does not parse, or parses to something that is no array,
    leaves the history empty, and, unless the text is empty, removes the
    stored entry.  A stored array is either discarded in the same way (an
    item that cannot be revived throws inside the [try]) or loaded whole,
    and then every loaded item is the stored one with its [data] replaced
    by [sanitizeData] of the stored [data]; it is loaded whenever every
    item is readable and carries study notes without null sections. *)
Theorem loadHistory_recovers (saved : option string) :
  let history := fst (loadHistory saved) in
  let kept := snd (loadHistory saved) in
  (saved = None -> history = [] /\ kept = None) /\
  (forall text,
     saved = Some text ->
     (forall e, Json.parse text = Throw e ->
        history = [] /\ (text <> "" -> kept = None)) /\
     (forall v, Json.parse text = Ok v -> isArray v = false ->
        history = [] /\ kept = None) /\
     (forall xs, Json.parse text = Ok (JArr xs) ->
        (history = [] /\ kept = None \/
         kept = saved /\ Forall2 revived xs history) /\
        (Forall (fun item => readable item /\ sections_ok (prop item "data"))
                xs ->
         kept = saved /\ Forall2 revived xs history))).
Proof.
  cbv zeta. split; [now intros ->|].
  intros text ->. unfold loadHistory.
  destruct text as [|c r]; [rewrite parse_empty|].
  { repeat split; try discriminate. congruence. }
  unfold parseHistory.
  destruct (Json.parse (String c r)) as [v|e0]; simpl.
  - split; [discriminate|]. split.
    + intros v' [= <-] Hna. now rewrite Hna.
    + intros xs [= ->]. simpl.
      destruct (mapM reviveItem xs) as [loaded|e1] eqn:Hload; simpl.
      * assert (Hall : Forall2 revived xs loaded).
        { apply mapM_Forall2 in Hload.
          induction Hload as [|x y l l' Hx _ IH]; constructor; [|exact IH].
          now apply reviveItem_Ok in Hx. }
        split; [right|]; now split.
      * split; [left; now split|].
        intros Hok. exfalso.
        destruct (mapM_total reviveItem xs) as [ys Hys]; [|congruence].
        eapply Forall_impl; [|exact Hok].
        intros item [Hr Hs]. now apply reviveItem_total.
  - split; [|split; discriminate].
    intros _ _. now split.
Qed.

Lemma loadHistory_recovers_witness :
  loadHistory (Some "{not json") = ([], None) /\
  loadHistory (Some "{}") = ([], None) /\
  loadHistory (Some "[null]") = ([], None) /\
  snd (loadHistory (Some storedHistory)) = Some storedHistory /\
  Forall2 revived
    [JObj [("id", JStr "dQw4w9WgXcQ"); ("data", JObj [("title", JStr "X")])]]
    (fst (loadHistory (Some storedHistory))).
Proof.
  repeat (split; [reflexivity|]).
  destruct (loadHistory_recovers (Some storedHistory)) as [_ Hsome].
  destruct (Hsome storedHistory eq_refl) as (_ & _ & Harray).
  destruct (Harray
              [JObj [("id", JStr "dQw4w9WgXcQ");
                     ("data", JObj [("title", JStr "X")])]]
              eq_refl) as [_ Hloaded].
  apply Hloaded. repeat constructor; discriminate.
Defined.

End LoadFacts.

(* ================================================================== *)
(** ** Properties: video identifiers and the validation gate           *)
(* ================================================================== *)

Section IdentifierFacts.
Import App Str.

Lemma getYouTubeId_unfold (url : string) :
  getYouTubeId url =
  match after_last_marker url with
  | Some rest =>
      let token := take_while id_char rest in
      if (String.length token =? 11)%nat then Some token else None
  | None => None
  end.
Proof. destruct url; reflexivity. Qed.

Lemma drop_app_length (m x : string) : drop (String.length m) (m ++ x) = x.
Proof. induction m as [|c m IH]; simpl; [reflexivity | exact IH]. Qed.

Lemma take_drop (n : nat) (s : string) : (take n s ++ drop n s)%string = s.
Proof.
  revert s. induction n as [|n IH]; intros [|c s]; simpl; try reflexivity.
  now rewrite IH.
Qed.

Lemma drop_length (n : nat) (s : string) :
  String.length (drop n s) = String.length s - n.
Proof.
  revert s. induction n as [|n IH]; intros [|c s]; simpl; try lia.
  apply IH.
Qed.

Lemma take_length (n : nat) (s : string) :
  n <= String.length s -> String.length (take n s) = n.
Proof.
  revert s. induction n as [|n IH]; intros [|c s]; simpl; try lia.
  intros H. rewrite IH; lia.
Qed.

Lemma startsWith_length (p s : string) :
  startsWith p s = true -> String.length p <= String.length s.
Proof.
  revert s. induction p as [|a p IH]; intros [|b s]; simpl; try lia;
    try discriminate.
  intros H. apply andb_prop in H as [_ H]. apply IH in H. lia.
Qed.

Lemma marker_at_length (t : string) (n : nat) :
  marker_at t = Some n -> n <= String.length t.
Proof.
  unfold marker_at.
  repeat match goal with
  | |- (if ?b then _ else _) = _ -> _ => destruct b eqn:?
  end; intros [= <-];
  repeat match goal with
  | H : _ && _ = true |- _ => apply andb_prop in H as [? ?]
  end;
  repeat match goal with
  | H : startsWith _ _ = true |- _ => apply startsWith_length in H
  end;
  rewrite ?drop_length in *; simpl in *; lia.
Qed.

Lemma markers_in_none (s : string) :
  markers_in s = false -> after_last_marker s = None.
Proof.
  induction s as [|c r IH]; [reflexivity|].
  cbn [markers_in after_last_marker].
  destruct (marker_at (String c r)); [discriminate|].
  intros H. rewrite (IH H). now destruct (is_line_terminator c).
Qed.

Lemma after_last_marker_app (pre t : string) (n : nat) :
  all_chars not_terminator pre = true ->
  marker_at t = Some n ->
  markers_in (drop 1 t) = false ->
  after_last_marker (pre ++ t) = Some (drop n t).
Proof.
  intros Hpre Hm Hlater. induction pre as [|a pre IH].
  - destruct t as [|c r]; [discriminate Hm|].
    change (String.append "" (String c r)) with (String c r).
    cbn [after_last_marker]. simpl in Hlater.
    rewrite (markers_in_none _ Hlater), Hm.
    now destruct (is_line_terminator c).
  - simpl in Hpre. apply andb_prop in Hpre as [Ha Hpre].
    change (String.append (String a pre) t) with (String a (pre ++ t)).
    cbn [after_last_marker]. unfold not_terminator in Ha.
    destruct (is_line_terminator a); [discriminate Ha|].
    now rewrite (IH Hpre).
Qed.

Lemma after_last_marker_sound (s r : string) :
  after_last_marker s = Some r ->
  exists pre t n,
    s = (pre ++ t)%string /\ all_chars not_terminator pre = true /\
    marker_at t = Some n /\ r = drop n t.
Proof.
  revert r. induction s as [|c s IH]; intros r; [discriminate|].
  cbn [after_last_marker].
  destruct (is_line_terminator c) eqn:Hc.
  - destruct (marker_at (String c s)) as [n|] eqn:Hm; [|discriminate].
    intros [= <-]. exists "", (String c s), n. now repeat split.
  - destruct (after_last_marker s) as [r'|] eqn:Hs.
    + intros [= <-]. destruct (IH r' eq_refl) as (pre & t & n & -> & Hp & Hm & ->).
      exists (String c pre), t, n. split; [reflexivity|].
      split; [|now split]. cbn [all_chars]. unfold not_terminator at 1.
      rewrite Hc. exact Hp.
    + destruct (marker_at (String c s)) as [n|] eqn:Hm; [|discriminate].
      intros [= <-]. exists "", (String c s), n. now repeat split.
Qed.

Lemma take_while_app (p : ascii -> bool) (id rest : string) :
  all_chars p id = true -> head_is p rest = false ->
  take_while p (id ++ rest) = id.
Proof.
  intros Hid Hrest. induction id as [|c id IH]; simpl in *.
  - destruct rest as [|c r]; [reflexivity|]. simpl in *. now rewrite Hrest.
  - apply andb_prop in Hid as [Hc Hid]. now rewrite Hc, IH.
Qed.

Lemma take_while_split (p : ascii -> bool) (s : string) :
  exists rest,
    s = (take_while p s ++ rest)%string /\
    all_chars p (take_while p s) = true /\ head_is p rest = false.
Proof.
  induction s as [|c s (rest & Hs & Hall & Hrest)]; simpl.
  - now exists "".
  - destruct (p c) eqn:Hc.
    + exists rest. simpl. rewrite Hc, Hall. repeat split; [|exact Hrest].
      now rewrite <- Hs.
    + exists (String c s). simpl. now rewrite Hc.
Qed.

Lemma literal_marker_at (m tail : string) :
  In m literalMarkers ->
  marker_at (m ++ tail) = Some (String.length m).
Proof.
  unfold literalMarkers. simpl.
  intros [<-|[<-|[<-|[<-|[<-|[]]]]]]; reflexivity.
Qed.

(** An identifier that follows a marker is resolved when no marker occurs
    later in the URL. *)
Lemma getYouTubeId_after_marker (pre m id rest : string) :
  all_chars not_terminator pre = true ->
  marker_at (m ++ id ++ rest) = Some (String.length m) ->
  markers_in (drop 1 (m ++ id ++ rest)) = false ->
  String.length id = 11 ->
  all_chars id_char id = true ->
  head_is id_char rest = false ->
  getYouTubeId (pre ++ m ++ id ++ rest) = Some id.
Proof.
  intros Hpre Hm Hlater Hlen Hid Hrest.
  rewrite getYouTubeId_unfold.
  rewrite (after_last_marker_app pre _ _ Hpre Hm Hlater).
  rewrite drop_app_length. cbv zeta.
  rewrite (take_while_app _ _ _ Hid Hrest), Hlen. reflexivity.
Qed.

Lemma validateYouTubeUrl_gate (hostnameOf : string -> option string)
    (u : string) :
  getYouTubeId u = None ->
  exists e, validateYouTubeUrl hostnameOf u = Some e.
Proof.
  intros Hid. unfold validateYouTubeUrl.
  destruct (trim u =? ""); [now eexists|].
  destruct (hostnameOf u) as [host|]; [|now eexists].
  destruct (_ && _); [now eexists|].
  rewrite Hid. now eexists.
Qed.

(** C6: [getYouTubeId] resolves ["dQw4w9WgXcQ"] from
    ["https://youtu.be/dQw4w9WgXcQ"]; more generally it resolves the eleven
    characters that follow a marker of a known shape ([youtu.be/], [v/],
    [embed/], [watch?v=], [&v=]) and end at [#], [&], [?] or the end of the
    URL, provided no marker occurs later.  Whatever it returns has exactly
    eleven characters and stands right after a marker; otherwise it returns
    null.  When it returns null, as on ["https://example.com/video"],
    [handleAnalyze] in URL mode stops at the validation with an error
    message and has made no request. *)
Theorem getYouTubeId_resolves :
  getYouTubeId "https://youtu.be/dQw4w9WgXcQ" = Some "dQw4w9WgXcQ" /\
  getYouTubeId "https://example.com/video" = None /\
  (forall pre m id rest,
     In m literalMarkers ->
     all_chars not_terminator pre = true ->
     markers_in (drop 1 (m ++ id ++ rest)) = false ->
     String.length id = 11 ->
     all_chars id_char id = true ->
     head_is id_char rest = false ->
     getYouTubeId (pre ++ m ++ id ++ rest) = Some id) /\
  (forall url id,
     getYouTubeId url = Some id ->
     String.length id = 11 /\
     exists pre m rest,
       url = (pre ++ m ++ id ++ rest)%string /\
       marker_at (m ++ id ++ rest) = Some (String.length m) /\
       all_chars id_char id = true /\
       head_is id_char rest = false) /\
  (forall hostnameOf backend generate now_id now_date setItem closure st,
     inputMode st = ModeUrl ->
     getYouTubeId (url st) = None ->
     exists e,
       handleAnalyze hostnameOf backend generate now_id now_date setItem
                     closure st =
       mkOutcome (with_error (Some e) (with_error None st)) [] None).
Proof.
  split; [reflexivity|]. split; [reflexivity|]. split; [|split].
  - intros pre m id rest Hm Hpre Hlater Hlen Hid Hrest.
    apply getYouTubeId_after_marker; try assumption.
    now apply literal_marker_at.
  - intros url id. rewrite getYouTubeId_unfold.
    destruct (after_last_marker url) as [r|] eqn:Hr; [|discriminate].
    cbv zeta.
    destruct (String.length (take_while id_char r) =? 11)%nat eqn:Hlen;
      [|discriminate].
    intros [= <-]. apply Nat.eqb_eq in Hlen. split; [exact Hlen|].
    apply after_last_marker_sound in Hr as (pre & t & n & -> & _ & Hm & ->).
    destruct (take_while_split id_char (drop n t)) as (rest & Hsplit & Hall & Hrest).
    exists pre, (take n t), rest.
    rewrite <- Hsplit, take_drop.
    rewrite (take_length n t (marker_at_length t n Hm)).
    now repeat split.
  - intros hostnameOf backend generate now_id now_date setItem closure st
           Hmode Hid.
    destruct (validateYouTubeUrl_gate hostnameOf (url st) Hid) as [e He].
    exists e. unfold handleAnalyze, validate. cbv zeta.
    replace (inputMode (with_error None st)) with ModeUrl by (now rewrite <- Hmode).
    replace (url (with_error None st)) with (url st) by reflexivity.
    now rewrite He.
Qed.

Lemma getYouTubeId_resolves_witness :
  getYouTubeId "https://www.youtube.com/watch?v=dQw4w9WgXcQ&t=10s"
    = Some "dQw4w9WgXcQ" /\
  exists e,
    handleAnalyze (fun _ => Some "example.com")
      (fun _ _ => Throw (Error "offline")) (fun _ => Ok None) 0 0 None []
      (urlState "https://example.com/video")
    = mkOutcome (with_error (Some e)
                   (with_error None (urlState "https://example.com/video")))
                [] None.
Proof.
  destruct getYouTubeId_resolves as (_ & Hnone & Hshape & _ & Hgate).
  split.
  - apply (Hshape "https://www.youtube.com/" "watch?v=" "dQw4w9WgXcQ" "&t=10s");
      try reflexivity.
    unfold literalMarkers. simpl. tauto.
  - apply Hgate; [reflexivity | exact Hnone].
Defined.

End IdentifierFacts.

(* ================================================================== *)
(** ** Properties: the identity guard                                  *)
(* ================================================================== *)

Section GuardFacts.
Import App Str.

Lemma sanitized_is_object (raw r : JsVal) :
  sanitizeData raw = Ok r -> exists kvs, r = JObj kvs.
Proof.
  intros H. destruct (truthy raw) eqn:Ht.
  - apply sanitizeData_truthy in H as (notes & _ & ->); [|exact Ht].
    eexists. reflexivity.
  - rewrite (sanitizeData_falsy _ Ht) in H. injection H as <-. now exists [].
Qed.

Lemma analyzeUrlWithGrounding_Ok (fetched : Res BackendResponse)
    (result : JsVal) :
  analyzeUrlWithGrounding fetched = Ok result ->
  exists body, sanitizeData body = Ok result.
Proof.
  unfold analyzeUrlWithGrounding. cbv zeta.
  destruct fetched as [resp|e]; cbn [bind]; [|discriminate].
  destruct (ok resp); cbn [negb].
  - destruct (json resp) as [body|e]; cbn [bind]; [|discriminate].
    destruct (sanitizeData body) as [d|e] eqn:E; [|discriminate].
    intros [= <-]. now exists body.
  - destruct (json resp) as [err|e]; cbn [bind]; [|discriminate].
    destruct (getProp err "error"); cbn [bind]; discriminate.
Qed.

Lemma legacy_analysis_Ok (videoTitle : string) (responseText : option string)
    (record : JsVal) :
  Legacy.analyzeUrlWithGrounding videoTitle responseText = Ok record ->
  exists kvs, record = JObj kvs.
Proof.
  unfold Legacy.analyzeUrlWithGrounding.
  destruct responseText as [[|c r]|]; try discriminate.
  destruct (Legacy.parseGenerativeJson (String c r)) as [raw|];
    cbn [bind]; [|discriminate].
  unfold Legacy.sanitizeData.
  destruct (getProp raw "videoType"); cbn [bind]; [|discriminate].
  destruct (if isArray _ then _ else _) as [notes|]; cbn [bind];
    [|discriminate].
  unfold Legacy.notFoundGuard. destruct (is_str _ _); [discriminate|].
  intros [= <-]. eexists. reflexivity.
Qed.

Lemma JsVal_elements_ind (P : JsVal -> Prop) :
  P JUndefined -> P JNull -> (forall b, P (JBool b)) ->
  (forall m e, P (JNum m e)) -> (forall s, P (JStr s)) ->
  (forall xs, Forall P xs -> P (JArr xs)) ->
  (forall kvs, P (JObj kvs)) ->
  forall v, P v.
Proof.
  intros H1 H2 H3 H4 H5 H6 H7. fix IH 1.
  intros [| |b|m e|s|xs|kvs];
    [exact H1 | exact H2 | apply H3 | apply H4 | apply H5 | | apply H7].
  apply H6. revert xs. fix IHxs 1.
  intros [|x xs]; constructor; [apply IH | apply IHxs].
Qed.

(** The conversion to text throws nothing but the engine's TypeError. *)
Lemma toText_Throw (v : JsVal) (thrown : Exn) :
  toText v = Throw thrown -> thrown = TypeError.
Proof.
  revert thrown.
  induction v as [| |b|m k|s|xs IH|kvs] using JsVal_elements_ind;
    intros thrown; try discriminate.
  - cbn [toText]. induction IH as [|x r Hx _ IHr]; [discriminate|].
    destruct (match x with
              | JUndefined | JNull => Ok ""
              | _ => toText x
              end) as [head|e'] eqn:Hhead; cbn [bind].
    + destruct r as [|y r']; [discriminate|].
      match goal with
      | |- bind ?tail _ = _ -> _ => destruct tail as [t|e''] eqn:Ht
      end; cbn [bind]; [discriminate|].
      intros [= <-]. now apply IHr.
    + intros [= <-]. apply Hx.
      destruct x; try discriminate Hhead; exact Hhead.
  - cbn [toText]. destruct (lookup "toString" kvs); [|discriminate].
    now intros [= <-].
Qed.

(** C3, counterexample.  The mismatch error names the identifier the
    record carries and not the one that was requested, in the current
    revision and in the earlier one; and in the current revision a record
    whose identifier is the sentinel raises no error at all. *)
Lemma mismatch_omits_requested :
  let other := JObj [("videoId", JStr "aaaaaaaaaaa")] in
  let sentinel := JObj [("videoId", JStr "NOT_FOUND")] in
  urlAnalysis (Some "dQw4w9WgXcQ") (Ok (mkResponse true (Ok other)))
    = Throw (Error (mismatchMessage "aaaaaaaaaaa")) /\
  includes "dQw4w9WgXcQ" (mismatchMessage "aaaaaaaaaaa") = false /\
  LegacyApp.urlAnalysis "YouTube Video" (Some "dQw4w9WgXcQ")
      (Some ("{" ++ lit "videoId" ++ ":" ++ lit "aaaaaaaaaaa" ++ "}")%string)
    = Throw (Error (LegacyApp.mismatchMessage "aaaaaaaaaaa")) /\
  includes "dQw4w9WgXcQ" (LegacyApp.mismatchMessage "aaaaaaaaaaa") = false /\
  exists record,
    urlAnalysis (Some "dQw4w9WgXcQ") (Ok (mkResponse true (Ok sentinel)))
      = Ok record /\
    prop record "videoId" = JStr "NOT_FOUND".
Proof.
  cbv zeta. repeat split. eexists. split; reflexivity.
Qed.

Lemma startsWith_app (p b : string) : startsWith p (p ++ b) = true.
Proof.
  induction p as [|c p IH]; simpl; [reflexivity|].
  now rewrite Ascii.eqb_refl.
Qed.

Lemma indexOf_head (p s : string) :
  startsWith p s = true -> indexOf p s = Some 0.
Proof. intros H. destruct s; cbn [indexOf]; now rewrite H. Qed.

Lemma includes_app (p a b : string) : includes p (a ++ p ++ b) = true.
Proof.
  unfold includes. induction a as [|c a IH].
  - change (String.append "" (p ++ b)) with (p ++ b)%string.
    now rewrite (indexOf_head _ _ (startsWith_app p b)).
  - change (String.append (String c a) (p ++ b))
      with (String c (a ++ p ++ b)).
    cbn [indexOf]. destruct (startsWith p _); [reflexivity|].
    destruct (indexOf p (a ++ p ++ b)); [reflexivity | discriminate].
Qed.

Lemma includes_after (p a b : string) :
  includes p b = true -> includes p (a ++ b) = true.
Proof.
  unfold includes. intros Hb. induction a as [|c a IH]; [exact Hb|].
  change (String.append (String c a) b) with (String c (a ++ b)).
  cbn [indexOf]. destruct (startsWith p _); [reflexivity|].
  destruct (indexOf p (a ++ b)); [reflexivity | discriminate].
Qed.

(** The comparison of line 265 on a record that can be read. *)
Lemma mismatchGuard_object (requested : string) (kvs : Obj) :
  requested <> "" ->
  let record := JObj kvs in
  let resolved := prop record "videoId" in
  mismatchGuard (Some requested) record =
  if truthy resolved && negb (is_str resolved requested)
     && negb (is_str resolved "NOT_FOUND")
  then bind (toText resolved) (fun id => Throw (Error (mismatchMessage id)))
  else Ok record.
Proof. intros Hne. destruct requested; [congruence | reflexivity]. Qed.

Lemma legacy_mismatchGuard_object (requested : string) (kvs : Obj) :
  requested <> "" ->
  let record := JObj kvs in
  let resolved := prop record "videoId" in
  LegacyApp.mismatchGuard (Some requested) record =
  if truthy resolved && negb (is_str resolved requested)
     && negb (is_str resolved "NOT_FOUND")
  then bind (toText resolved)
            (fun id => Throw (Error (LegacyApp.mismatchMessage id)))
  else Ok record.
Proof. intros Hne. destruct requested; [congruence | reflexivity]. Qed.

Lemma is_str_false (v : JsVal) (s : string) :
  v <> JStr s -> is_str v s = false.
Proof.
  intros H. destruct (is_str v s) eqn:E; [|reflexivity].
  now apply is_str_true in E.
Qed.

(** C3, as amended.  In both revisions of [handleAnalyze] a URL analysis
    whose record carries a truthy identifier that is neither the requested
    one nor the sentinel ["NOT_FOUND"] ends in a Mismatch error, whose
    message names the record's identifier, as text, and nothing of the
    request (an identifier that has no text makes the conversion throw
    instead); a record whose identifier is falsy or the requested one
    passes, and without a requested identifier nothing is compared.  In
    the earlier revision a reply whose identifier is the sentinel makes
    [analyzeUrlWithGrounding] raise the NotFound error, which is no
    Mismatch; its text differs from every Mismatch text, and the two
    advise differently. *)
Theorem identity_guard_outcomes :
  (forall requested fetched record,
     requested <> "" ->
     analyzeUrlWithGrounding fetched = Ok record ->
     let resolved := prop record "videoId" in
     (truthy resolved = true -> resolved <> JStr requested ->
      resolved <> JStr Legacy.NOT_FOUND ->
        (forall id, toText resolved = Ok id ->
           urlAnalysis (Some requested) fetched
             = Throw (Error (mismatchMessage id)) /\
           isMismatch (Error (mismatchMessage id)) = true /\
           isNotFound (Error (mismatchMessage id)) = false /\
           includes id (mismatchMessage id) = true) /\
        (forall e, toText resolved = Throw e ->
           urlAnalysis (Some requested) fetched = Throw e)) /\
     (truthy resolved = false \/ resolved = JStr requested ->
        urlAnalysis (Some requested) fetched = Ok record)) /\
  (forall fetched, urlAnalysis None fetched = analyzeUrlWithGrounding fetched) /\
  (forall videoTitle responseText,
     LegacyApp.urlAnalysis videoTitle None responseText
       = Legacy.analyzeUrlWithGrounding videoTitle responseText) /\
  (forall videoTitle requested responseText record,
     requested <> "" ->
     Legacy.analyzeUrlWithGrounding videoTitle responseText = Ok record ->
     let resolved := prop record "videoId" in
     (truthy resolved = true -> resolved <> JStr requested ->
        (forall id, toText resolved = Ok id ->
           LegacyApp.urlAnalysis videoTitle (Some requested) responseText
             = Throw (Error (LegacyApp.mismatchMessage id)) /\
           isMismatch (Error (LegacyApp.mismatchMessage id)) = true /\
           isNotFound (Error (LegacyApp.mismatchMessage id)) = false /\
           includes id (LegacyApp.mismatchMessage id) = true /\
           includes "paste the transcript" (LegacyApp.mismatchMessage id)
             = true) /\
        (forall e, toText resolved = Throw e ->
           LegacyApp.urlAnalysis videoTitle (Some requested) responseText
             = Throw e)) /\
     (truthy resolved = false \/ resolved = JStr requested ->
        LegacyApp.urlAnalysis videoTitle (Some requested) responseText
          = Ok record)) /\
  (forall videoTitle requested text raw data,
     text <> "" ->
     Legacy.parseGenerativeJson text = Ok raw ->
     Legacy.sanitizeData raw = Ok data ->
     prop data "videoId" = JStr Legacy.NOT_FOUND ->
     LegacyApp.urlAnalysis videoTitle requested (Some text)
       = Throw (Error (Legacy.notFoundMessage videoTitle)) /\
     isNotFound (Error (Legacy.notFoundMessage videoTitle)) = true /\
     isMismatch (Error (Legacy.notFoundMessage videoTitle)) = false /\
     includes "Try 'Audio / Upload' mode" (Legacy.notFoundMessage videoTitle)
       = true /\
     forall id, LegacyApp.mismatchMessage id
                <> Legacy.notFoundMessage videoTitle).
Proof.
  split; [|split; [|split; [|split]]].
  - intros requested fetched record Hne Hcall. cbv zeta.
    destruct (analyzeUrlWithGrounding_Ok _ _ Hcall) as [body Hbody].
    destruct (sanitized_is_object _ _ Hbody) as [kvs ->].
    unfold urlAnalysis. rewrite Hcall. cbn [bind].
    rewrite (mismatchGuard_object requested kvs Hne). cbv zeta. split.
    + intros Ht Hreq Hnf. unfold Legacy.NOT_FOUND in Hnf.
      rewrite Ht, (is_str_false _ _ Hreq), (is_str_false _ _ Hnf).
      cbn [negb andb]. split.
      * intros id ->. cbn [bind]. repeat split.
        unfold mismatchMessage. apply includes_app.
      * intros e ->. reflexivity.
    + intros [->| ->]; [reflexivity|].
      cbn [is_str]. now rewrite String.eqb_refl, andb_false_r.
  - intros fetched. unfold urlAnalysis.
    destruct (analyzeUrlWithGrounding fetched); reflexivity.
  - intros videoTitle responseText. unfold LegacyApp.urlAnalysis.
    destruct (Legacy.analyzeUrlWithGrounding videoTitle responseText);
      reflexivity.
  - intros videoTitle requested responseText record Hne Hcall. cbv zeta.
    destruct (legacy_analysis_Ok _ _ _ Hcall) as [kvs ->].
    assert (Hnf : prop (JObj kvs) "videoId" <> JStr Legacy.NOT_FOUND).
    { unfold Legacy.analyzeUrlWithGrounding in Hcall.
      destruct responseText as [[|c r]|]; try discriminate.
      destruct (Legacy.parseGenerativeJson (String c r)); cbn [bind] in Hcall;
        [|discriminate].
      destruct (Legacy.sanitizeData _) as [d|]; cbn [bind] in Hcall;
        [|discriminate].
      unfold Legacy.notFoundGuard in Hcall.
      destruct (is_str (prop d "videoId") Legacy.NOT_FOUND) eqn:E;
        [discriminate|].
      injection Hcall as ->. intros H. apply is_str_true in H. congruence. }
    unfold LegacyApp.urlAnalysis. rewrite Hcall. cbn [bind].
    rewrite (legacy_mismatchGuard_object requested kvs Hne). cbv zeta. split.
    + intros Ht Hreq. unfold Legacy.NOT_FOUND in Hnf.
      rewrite Ht, (is_str_false _ _ Hreq), (is_str_false _ _ Hnf).
      cbn [negb andb]. split.
      * intros id ->. cbn [bind]. repeat split.
        -- unfold LegacyApp.mismatchMessage. apply includes_app.
        -- unfold LegacyApp.mismatchMessage.
           do 2 apply includes_after. reflexivity.
      * intros e ->. reflexivity.
    + intros [->| ->]; [reflexivity|].
      cbn [is_str]. now rewrite String.eqb_refl, andb_false_r.
  - intros videoTitle requested text raw data Hne Hraw Hdata Hid.
    unfold LegacyApp.urlAnalysis, Legacy.analyzeUrlWithGrounding.
    destruct text as [|c r]; [congruence|].
    rewrite Hraw. cbn [bind]. rewrite Hdata. cbn [bind].
    unfold Legacy.notFoundGuard. rewrite Hid. cbn [is_str].
    rewrite String.eqb_refl. cbn [bind].
    split; [reflexivity|]. split; [reflexivity|]. split; [reflexivity|].
    split; [|intros id; discriminate].
    unfold Legacy.notFoundMessage. do 3 apply includes_after. reflexivity.
Qed.

Lemma identity_guard_outcomes_witness :
  urlAnalysis (Some "dQw4w9WgXcQ")
      (Ok (mkResponse true (Ok (JObj [("videoId", JNum 12345 0)]))))
    = Throw (Error (mismatchMessage "12345")) /\
  LegacyApp.urlAnalysis "Launch Event" (Some "dQw4w9WgXcQ")
      (Some ("{" ++ lit "videoId" ++ ":" ++ lit "NOT_FOUND" ++ "}")%string)
    = Throw (Error (Legacy.notFoundMessage "Launch Event")) /\
  urlAnalysis (Some "dQw4w9WgXcQ")
      (Ok (mkResponse true (Ok (JObj [("videoId", JNum 0 0)]))))
    = analyzeUrlWithGrounding
        (Ok (mkResponse true (Ok (JObj [("videoId", JNum 0 0)])))).
Proof.
  destruct identity_guard_outcomes as (Hcurrent & _ & _ & _ & Hsentinel).
  split; [|split].
  - destruct (Hcurrent "dQw4w9WgXcQ"
                (Ok (mkResponse true (Ok (JObj [("videoId", JNum 12345 0)]))))
                _ ltac:(discriminate) eq_refl) as [Hmismatch _].
    destruct (Hmismatch eq_refl ltac:(discriminate) ltac:(discriminate))
      as [Hid _].
    exact (proj1 (Hid "12345" eq_refl)).
  - assert (Htext : ("{" ++ lit "videoId" ++ ":" ++ lit "NOT_FOUND" ++ "}")%string
                    <> "") by discriminate.
    exact (proj1 (Hsentinel "Launch Event" (Some "dQw4w9WgXcQ") _ _ _
                    Htext eq_refl eq_refl eq_refl)).
  - destruct (Hcurrent "dQw4w9WgXcQ"
                (Ok (mkResponse true (Ok (JObj [("videoId", JNum 0 0)]))))
                _ ltac:(discriminate) eq_refl) as [_ Hpass].
    exact (Hpass (or_introl eq_refl)).
Defined.

(** The current revision of the service has no sentinel check of its own:
    a sentinel record that the backend returns passes [handleAnalyze]
    without any error and is shown and saved. *)
Lemma handleAnalyze_accepts_sentinel :
  let reply := mkResponse true (Ok (JObj [("videoId", JStr "NOT_FOUND")])) in
  let st := after (handleAnalyze (fun _ => Some "youtu.be")
                     (fun _ _ => Ok reply) (fun _ => Ok None) 0 0 None []
                     (urlState "https://youtu.be/dQw4w9WgXcQ")) in
  error st = None /\
  option_map (fun d => prop d "videoId") (data st) = Some (JStr "NOT_FOUND") /\
  map item_id (history st) = [JStr "NOT_FOUND"].
Proof. repeat split. Qed.

End GuardFacts.

(* ================================================================== *)
(** ** Properties: the conversational context router                   *)
(* ================================================================== *)

Section ChatFacts.
Import Chat Str.

Lemma handleSend_loading (now later : Z) (researchData : bool)
    (textInput : option string) (st : ChatState) :
  isLoading st = true ->
  handleSend now later researchData textInput st = Rejected.
Proof.
  intros H. unfold handleSend. rewrite H. now rewrite orb_true_r.
Qed.

Lemma handleSend_awaiting (now later : Z) (researchData : bool)
    (textInput : option string) (st st' : ChatState) (c : Context)
    (question : string) :
  handleSend now later researchData textInput st = Awaiting c question st' ->
  isLoading st = false /\ c = activeContext st /\ isLoading st' = true /\
  st' = setLoading true
          (setInput "" (append c (mkMessage User question now) st)).
Proof.
  unfold handleSend.
  destruct (_ || _) eqn:Hguard; [discriminate|].
  apply orb_false_elim in Hguard as [_ Hload].
  destruct (activeContext st) eqn:Hc; [|destruct researchData];
    intros [= <- <- <-] || discriminate; now repeat split.
Qed.

Lemma handleSend_answered (now later : Z) (researchData : bool)
    (textInput : option string) (st st' : ChatState) :
  handleSend now later researchData textInput st = Answered st' ->
  isLoading st = false /\ isLoading st' = false /\
  activeContext st = Research /\
  exists question,
    st' = setLoading false
            (append Research (mkMessage Model "Context unavailable." later)
               (setLoading true
                  (setInput ""
                     (append Research (mkMessage User question now) st)))).
Proof.
  unfold handleSend.
  destruct (_ || _) eqn:Hguard; [discriminate|].
  apply orb_false_elim in Hguard as [_ Hload].
  destruct (activeContext st) eqn:Hc; [discriminate|].
  destruct researchData; [discriminate|].
  intros [= <-]. repeat split; try assumption. now eexists.
Qed.

Lemma messagesOf_append (c c' : Context) (m : ChatMessage) (st : ChatState) :
  messagesOf c (append c' m st) =
  messagesOf c st ++ (if match c, c' with
                         | Video, Video | Research, Research => true
                         | _, _ => false
                         end then [m] else []).
Proof. destruct c, c'; simpl; now rewrite ?app_nil_r. Qed.

Lemma messagesOf_setLoading (c : Context) (b : bool) (st : ChatState) :
  messagesOf c (setLoading b st) = messagesOf c st.
Proof. now destruct c. Qed.

Lemma messagesOf_setInput (c : Context) (text : string) (st : ChatState) :
  messagesOf c (setInput text st) = messagesOf c st.
Proof. now destruct c. Qed.

Lemma step_balanced (cfg : Config) (ev : Event) :
  balanced cfg -> balanced (step cfg ev).
Proof.
  intros Hb. destruct ev as [now later rd text|text|c|n now reply]; simpl.
  - destruct (handleSend now later rd text (ui cfg)) as [|c q st'|st'] eqn:Hs.
    + exact Hb.
    + apply handleSend_awaiting in Hs as (Hidle & _ & Hbusy & _).
      destruct Hb as [[Hl _]|[_ Hnone]]; [congruence|].
      left. simpl. rewrite Hnone. split; [exact Hbusy | now exists c].
    + apply handleSend_answered in Hs as (Hidle & Hidle' & _).
      destruct Hb as [[Hl _]|[_ Hnone]]; [congruence|].
      right. now split.
  - exact Hb.
  - exact Hb.
  - destruct Hb as [[Hl [c Hc]]|[Hl Hnone]].
    + rewrite Hc. destruct n as [|[|n]]; simpl.
      * right. now split.
      * left. simpl. rewrite Hc. split; [exact Hl | now exists c].
      * left. simpl. rewrite Hc. split; [exact Hl | now exists c].
    + rewrite Hnone. destruct n; simpl; right; simpl; now split.
Qed.

Lemma run_balanced (evs : list Event) : balanced (run evs).
Proof.
  unfold run. induction evs as [|ev evs IH] using rev_ind.
  - right. now split.
  - rewrite fold_left_app. simpl. now apply step_balanced.
Qed.

(** Every step only appends to the messages of a context. *)
Lemma step_appends (cfg : Config) (ev : Event) (c : Context) :
  exists added,
    messagesOf c (ui (step cfg ev)) = messagesOf c (ui cfg) ++ added.
Proof.
  destruct ev as [now later rd text|text|c'|n now reply]; simpl.
  - destruct (handleSend now later rd text (ui cfg)) as [|c' q st'|st'] eqn:Hs.
    + exists []. now rewrite app_nil_r.
    + apply handleSend_awaiting in Hs as (_ & _ & _ & ->).
      eexists. cbn [ui].
      rewrite messagesOf_setLoading, messagesOf_setInput.
      apply messagesOf_append.
    + apply handleSend_answered in Hs as (_ & _ & _ & q & ->).
      eexists. cbn [ui].
      rewrite messagesOf_setLoading, messagesOf_append.
      rewrite messagesOf_setLoading, messagesOf_setInput.
      rewrite messagesOf_append, <- app_assoc. reflexivity.
  - exists []. rewrite app_nil_r. now destruct c.
  - exists []. rewrite app_nil_r. now destruct c.
  - destruct (nth_error (inFlight cfg) n) as [c'|].
    + eexists. cbn [ui]. unfold resume.
      rewrite messagesOf_setLoading. apply messagesOf_append.
    + exists []. now rewrite app_nil_r.
Qed.

(** C8, counterexample: while a question of the video context awaits its
    reply, a question put in the research context, which has nothing in
    flight, is rejected. *)
Lemma research_blocked_by_video :
  inFlight videoAwaiting = [Video] /\
  activeContext (ui videoAwaiting) = Research /\
  handleSend 2 2 true (Some "second") (ui videoAwaiting) = Rejected /\
  step videoAwaiting (Submit 2 2 true (Some "second")) = videoAwaiting.
Proof. repeat split. Qed.

(** C8, as amended: in every state the component reaches, at most one
    question is in flight, over both contexts together, and the loading
    flag is up exactly then; while it is, every submission is rejected,
    whichever context is active.  Every step leaves the messages of each
    context in place and only appends to them, and an accepted submission
    appends the user's message to the active context at once. *)
Theorem chat_single_flight (evs : list Event) :
  let cfg := run evs in
  List.length (inFlight cfg) <= 1 /\
  (isLoading (ui cfg) = true <-> inFlight cfg <> []) /\
  (forall now later researchData textInput,
     inFlight cfg <> [] ->
     handleSend now later researchData textInput (ui cfg) = Rejected /\
     step cfg (Submit now later researchData textInput) = cfg) /\
  (forall ev c, exists added,
     messagesOf c (ui (step cfg ev)) = messagesOf c (ui cfg) ++ added) /\
  (forall now later researchData textInput c question st',
     handleSend now later researchData textInput (ui cfg)
       = Awaiting c question st' ->
     c = activeContext (ui cfg) /\
     messagesOf c st' =
       messagesOf c (ui cfg) ++ [mkMessage User question now]).
Proof.
  cbv zeta. pose proof (run_balanced evs) as Hb.
  set (cfg := run evs) in *.
  assert (Hflag : isLoading (ui cfg) = true <-> inFlight cfg <> []).
  { destruct Hb as [[Hl [c Hc]]|[Hl Hnone]]; rewrite Hl.
    - rewrite Hc. split; [discriminate | reflexivity].
    - rewrite Hnone. split; [discriminate | congruence]. }
  split; [|split; [exact Hflag | split; [|split]]].
  - destruct Hb as [[_ [c Hc]]|[_ Hnone]]; [rewrite Hc | rewrite Hnone];
      simpl; lia.
  - intros now later rd text Hbusy. apply Hflag in Hbusy.
    pose proof (handleSend_loading now later rd text _ Hbusy) as Hrej.
    split; [exact Hrej|]. simpl. now rewrite Hrej.
  - intros ev c. apply step_appends.
  - intros now later rd text c question st' Hs.
    apply handleSend_awaiting in Hs as (_ & Hc & _ & ->).
    split; [exact Hc|].
    rewrite messagesOf_setLoading, messagesOf_setInput, messagesOf_append.
    now destruct c.
Qed.

Lemma chat_single_flight_witness :
  inFlight videoAwaiting = [Video] /\
  videoMessages (ui videoAwaiting) = [mkMessage User "first" 1] /\
  step videoAwaiting (Submit 2 2 true (Some "second")) = videoAwaiting.
Proof.
  split; [reflexivity|]. split; [reflexivity|].
  apply (proj1 (proj2 (proj2
           (chat_single_flight
              [Submit 1 1 true (Some "first"); SwitchContext Research])))).
  discriminate.
Defined.

End ChatFacts.

(* ================================================================== *)
(** ** Properties: the Tolerant JSON Extractor                         *)
(* ================================================================== *)

Section ExtractorFacts.
Import Str.

Lemma cleanJsonString_unfold (text : string) :
  cleanJsonString text = trim (unfence (stripTokens (trim text))).
Proof. reflexivity. Qed.

(** *** [trim] is idempotent *)

Lemma trimEnd_cons (c : ascii) (r : string) :
  trimEnd (String c r) =
  match trimEnd r with
  | EmptyString => if is_space c then EmptyString else String c EmptyString
  | r' => String c r'
  end.
Proof. reflexivity. Qed.

Lemma trimEnd_idem (s : string) : trimEnd (trimEnd s) = trimEnd s.
Proof.
  induction s as [|c r IH]; [reflexivity|].
  rewrite trimEnd_cons. destruct (trimEnd r) as [|d r'] eqn:Hr.
  - destruct (is_space c) eqn:Hc; [reflexivity|].
    rewrite trimEnd_cons. cbn [trimEnd]. now rewrite Hc.
  - rewrite trimEnd_cons, IH. reflexivity.
Qed.

Lemma trimEnd_head (c : ascii) (r : string) :
  is_space c = false ->
  exists r', trimEnd (String c r) = String c r'.
Proof.
  intros Hc. rewrite trimEnd_cons.
  destruct (trimEnd r); [rewrite Hc|]; now eexists.
Qed.

Lemma trimStart_head (s : string) :
  trimStart s = "" \/
  exists c r, trimStart s = String c r /\ is_space c = false.
Proof.
  induction s as [|c r IH]; [now left|].
  cbn [trimStart]. destruct (is_space c) eqn:Hc; [exact IH|].
  right. now exists c, r.
Qed.

Lemma trim_idem (s : string) : trim (trim s) = trim s.
Proof.
  unfold trim. destruct (trimStart_head s) as [->|(c & r & -> & Hc)].
  - reflexivity.
  - destruct (trimEnd_head c r Hc) as [r' Hr'].
    rewrite Hr' at 1. cbn [trimStart]. rewrite Hc, <- Hr'.
    apply trimEnd_idem.
Qed.

(** *** Cutting a string at a known offset *)

Lemma drop_app (n : nat) (a b : string) :
  drop (String.length a + n) (a ++ b) = drop n b.
Proof. induction a as [|c a IH]; simpl; [reflexivity | exact IH]. Qed.

Lemma take_app_length (a b : string) : take (String.length a) (a ++ b) = a.
Proof. induction a as [|c a IH]; simpl; [reflexivity | now rewrite IH]. Qed.

Lemma parseGenerativeJson_strict (text : string) (v : JsVal) :
  Json.parse (cleanJsonString text) = Ok v ->
  parseGenerativeJson text = Ok v.
Proof. unfold parseGenerativeJson. now intros ->. Qed.

(** C1, counterexample: commentary in front of an object that no fence
    encloses.  The brace span of the (unchanged) text parses, the extractor
    throws. *)
Lemma parseGenerativeJson_rejects_prose :
  cleanJsonString proseReply = proseReply /\
  parseInnermostSpan proseReply = Ok (JObj [("a", JNum 1 0)]) /\
  parseGenerativeJson proseReply
    = Throw (Error "Failed to parse AI response.").
Proof. repeat split. Qed.

(** The earlier revision, which cuts the brace span out first, accepts the
    same text. *)
Lemma legacy_parse_accepts_prose :
  Legacy.parseGenerativeJson proseReply = Ok (JObj [("a", JNum 1 0)]).
Proof. reflexivity. Qed.

End ExtractorFacts.

(* ================================================================== *)
(** ** Scenarios of the specification                                  *)
(* ================================================================== *)

Section Scenarios.
Import Str App Chat.

(** The repair pass on a text that ends in trailing commas. *)
Example repairJson_trailing_commas :
  repairJson ("{" ++ lit "a" ++ ":[1,2,],}") = ("{" ++ lit "a" ++ ":[1,2]}")%string
  /\ parseGenerativeJson ("{" ++ lit "a" ++ ":[1,2,],}")
     = Ok (JObj [("a", JArr [JNum 1 0; JNum 2 0])]).
Proof. split; reflexivity. Qed.

(** A fenced reply without study notes, through the transcript strategy. *)
Example analyzeTranscript_fenced_reply :
  exists record,
    analyzeTranscript (Some fencedReply) = Ok record /\
    prop record "studyNotes" = JArr [] /\
    prop record "videoType" = JStr "Educational" /\
    prop (prop record "sentiment") "positivePercent" = JNum 1 1.
Proof. eexists. repeat split. Qed.

(** A question in the research context before any research was done is
    answered on the spot, and nothing is left in flight. *)
Example research_context_unavailable :
  let cfg := [Chat.SwitchContext Research; Submit 1 2 false (Some "why?")] in
  inFlight (run cfg) = [] /\
  researchMessages (ui (run cfg)) =
    [mkMessage User "why?" 1; mkMessage Model "Context unavailable." 2].
Proof. split; reflexivity. Qed.

End Scenarios.

(* ================================================================== *)
(** ** Properties: the repair step and plain replies                   *)
(* ================================================================== *)

Section RepairFacts.
Import Str.

Lemma repair_from_significant (s : string) :
  forall inside, significant (repair_from inside s) = significant s.
Proof.
  induction s as [|c r IH]; intros inside; [reflexivity|].
  cbn [repair_from significant].
  destruct (inside && is_space c) eqn:Hw.
  - apply andb_prop in Hw as [_ Hs]. unfold separator. rewrite Hs, orb_true_r.
    apply IH.
  - destruct (Ascii.eqb c "," && closer_ahead r) eqn:Hc.
    + apply andb_prop in Hc as [Hc _]. unfold separator. rewrite Hc. apply IH.
    + cbn [significant]. now rewrite IH.
Qed.

Lemma repair_from_length (s : string) :
  forall inside, String.length (repair_from inside s) <= String.length s.
Proof.
  induction s as [|c r IH]; intros inside; [apply Nat.le_refl|].
  cbn [repair_from].
  destruct (inside && is_space c);
    [|destruct (Ascii.eqb c "," && closer_ahead r)]; cbn [String.length];
    specialize (IH true) as Ht; specialize (IH false) as Hf; lia.
Qed.

Lemma repair_from_shrinks (s : string) :
  forall inside, dangling_comma s = true ->
  String.length (repair_from inside s) < String.length s.
Proof.
  induction s as [|c r IH]; intros inside; [discriminate|].
  cbn [repair_from dangling_comma]. intros Hd.
  destruct (inside && is_space c).
  - pose proof (repair_from_length r true). cbn [String.length]. lia.
  - destruct (Ascii.eqb c "," && closer_ahead r).
    + pose proof (repair_from_length r true). cbn [String.length]. lia.
    + simpl in Hd. specialize (IH false Hd). cbn [String.length]. lia.
Qed.

Lemma repair_from_clean (s : string) :
  dangling_comma s = false -> repair_from false s = s.
Proof.
  induction s as [|c r IH]; [reflexivity|].
  cbn [repair_from dangling_comma]. intros Hd.
  apply orb_false_elim in Hd as [Hc Hr].
  rewrite Hc. cbn [andb]. now rewrite IH.
Qed.

(** X1: [repairJson] deletes nothing but commas and whitespace.  The
    characters of its result that are neither are those of its argument,
    in the same order, and the result is never longer than the argument. *)
Theorem repairJson_keeps_content (jsonStr : string) :
  significant (repairJson jsonStr) = significant jsonStr /\
  String.length (repairJson jsonStr) <= String.length jsonStr.
Proof.
  split; [apply repair_from_significant | apply repair_from_length].
Qed.

(** X2: [repairJson] returns its argument unchanged exactly when the
    argument holds no comma that only whitespace separates from a closing
    bracket or brace.  On a reply whose cleaned text holds none, the second
    attempt of [parseGenerativeJson] reads the same text as the first, so
    the extractor answers what the strict parse of the cleaned text
    answers, its own error standing for the parser's. *)
Theorem repairJson_fixed_points :
  (forall jsonStr,
     repairJson jsonStr = jsonStr <-> dangling_comma jsonStr = false) /\
  (forall text,
     dangling_comma (cleanJsonString text) = false ->
     parseGenerativeJson text =
       match Json.parse (cleanJsonString text) with
       | Ok v => Ok v
       | Throw _ => Throw (Error "Failed to parse AI response.")
       end).
Proof.
  split.
  - intros jsonStr. split.
    + intros Hfix. destruct (dangling_comma jsonStr) eqn:Hd; [|reflexivity].
      pose proof (repair_from_shrinks jsonStr false Hd) as Hlt.
      unfold repairJson in Hfix. rewrite Hfix in Hlt. lia.
    + apply repair_from_clean.
  - intros text Hd. unfold parseGenerativeJson. cbv zeta.
    unfold repairJson. rewrite (repair_from_clean _ Hd).
    now destruct (Json.parse (cleanJsonString text)).
Qed.

End RepairFacts.

Section PlainFacts.
Import Str.

Lemma indexOf_tail (p : string) (c : ascii) (r : string) :
  indexOf p (String c r) = None ->
  startsWith p (String c r) = false /\ indexOf p r = None.
Proof.
  cbn [indexOf]. destruct (startsWith p (String c r)); [discriminate|].
  destruct (indexOf p r); [discriminate|]. now split.
Qed.

Lemma indexOf_cons (p : string) (c : ascii) (r : string) :
  indexOf p (String c r) =
  if startsWith p (String c r) then Some 0 else option_map S (indexOf p r).
Proof. reflexivity. Qed.

Lemma removeAll_absent (p s : string) :
  includes p s = false -> removeAll p s = s.
Proof.
  unfold includes, removeAll.
  induction s as [|c r IH]; [reflexivity|].
  destruct (indexOf p (String c r)) eqn:E; [discriminate|]. intros _.
  apply indexOf_tail in E as [Hs Hr]. cbn [remove_from]. rewrite Hs.
  f_equal. apply IH. now rewrite Hr.
Qed.

Lemma all_chars_trimStart (p : ascii -> bool) (s : string) :
  all_chars p s = true -> all_chars p (trimStart s) = true.
Proof.
  induction s as [|c r IH]; [reflexivity|].
  cbn [trimStart]. destruct (is_space c); [|trivial].
  cbn [all_chars]. intros H. apply andb_prop in H as [_ H]. now apply IH.
Qed.

Lemma all_chars_trimEnd (p : ascii -> bool) (s : string) :
  all_chars p s = true -> all_chars p (trimEnd s) = true.
Proof.
  induction s as [|c r IH]; [reflexivity|].
  cbn [all_chars]. intros H. apply andb_prop in H as [Hc Hr].
  rewrite trimEnd_cons. specialize (IH Hr).
  destruct (trimEnd r) as [|c' r'].
  - destruct (is_space c); [reflexivity|]. cbn [all_chars]. now rewrite Hc.
  - cbn [all_chars] in *. now rewrite Hc, IH.
Qed.

Lemma includes_trimStart (p s : string) :
  includes p s = false -> includes p (trimStart s) = false.
Proof.
  unfold includes. induction s as [|c r IH]; [trivial|].
  cbn [trimStart]. destruct (is_space c); [|trivial].
  destruct (indexOf p (String c r)) eqn:E; [discriminate|]. intros _.
  apply indexOf_tail in E as [_ Hr]. apply IH. now rewrite Hr.
Qed.

Lemma startsWith_trimEnd (p s : string) :
  startsWith p (trimEnd s) = true -> startsWith p s = true.
Proof.
  revert p. induction s as [|c r IH]; intros p; [trivial|].
  rewrite trimEnd_cons. destruct p as [|a p']; [reflexivity|].
  destruct (trimEnd r) as [|c' r'] eqn:E.
  - destruct (is_space c); [discriminate|].
    cbn [startsWith]. intros H. apply andb_prop in H as [Ha Hp].
    rewrite Ha. cbn [andb]. apply IH. exact Hp.
  - cbn [startsWith]. intros H. apply andb_prop in H as [Ha Hp].
    rewrite Ha. cbn [andb]. apply IH. exact Hp.
Qed.

Lemma includes_trimEnd (p s : string) :
  includes p s = false -> includes p (trimEnd s) = false.
Proof.
  unfold includes. induction s as [|c r IH].
  - trivial.
  - destruct (indexOf p (String c r)) eqn:E; [discriminate|]. intros _.
    apply indexOf_tail in E as [Hs Hr].
    assert (Hr' : indexOf p (trimEnd r) = None).
    { specialize (IH ltac:(now rewrite Hr)).
      destruct (indexOf p (trimEnd r)); [discriminate|reflexivity]. }
    assert (Hs' : startsWith p (trimEnd (String c r)) = false).
    { destruct (startsWith p (trimEnd (String c r))) eqn:E; [|reflexivity].
      apply startsWith_trimEnd in E. congruence. }
    revert Hs'. rewrite trimEnd_cons.
    destruct (trimEnd r) as [|c' r'] eqn:Et.
    + destruct (is_space c); intros Hs'.
      * cbn [indexOf]. now rewrite Hs'.
      * rewrite indexOf_cons, Hs', Hr'. reflexivity.
    + intros Hs'. rewrite indexOf_cons, Hs', Hr'. reflexivity.
Qed.

Lemma no_backtick_no_fence (s : string) :
  all_chars no_backtick s = true -> includes fence s = false.
Proof.
  unfold includes. induction s as [|c r IH]; [reflexivity|].
  cbn [all_chars]. intros H. apply andb_prop in H as [Hc Hr].
  specialize (IH Hr). cbn [indexOf].
  assert (Hs : startsWith fence (String c r) = false).
  { unfold fence. cbn [startsWith]. unfold no_backtick in Hc.
    rewrite Ascii.eqb_sym. now destruct (Ascii.eqb c "`"). }
  rewrite Hs. destruct (indexOf fence r); [discriminate|reflexivity].
Qed.

Lemma unfence_plain (s : string) :
  all_chars no_backtick s = true -> unfence s = s.
Proof.
  intros H. unfold unfence. now rewrite (no_backtick_no_fence _ H).
Qed.

(** X3: a reply that holds no backtick and neither of the two tokens the
    cleaner deletes passes through [cleanJsonString] with nothing but its
    surrounding whitespace removed; so whenever the trimmed reply is JSON,
    [parseGenerativeJson] returns the value it denotes. *)
Theorem cleanJsonString_plain (text : string) :
  all_chars no_backtick text = true ->
  includes "ABLES_START" text = false ->
  includes "{:.language-json}" text = false ->
  cleanJsonString text = trim text /\
  forall v, Json.parse (trim text) = Ok v -> parseGenerativeJson text = Ok v.
Proof.
  intros Hb Ha Hl.
  assert (Hclean : cleanJsonString text = trim text).
  { rewrite cleanJsonString_unfold. unfold stripTokens.
    rewrite (removeAll_absent "ABLES_START")
      by (unfold trim; now apply includes_trimEnd, includes_trimStart).
    rewrite (removeAll_absent "{:.language-json}")
      by (unfold trim; now apply includes_trimEnd, includes_trimStart).
    rewrite unfence_plain
      by (unfold trim; now apply all_chars_trimEnd, all_chars_trimStart).
    apply trim_idem. }
  split; [exact Hclean|].
  intros v Hv. apply parseGenerativeJson_strict. now rewrite Hclean.
Qed.

Lemma cleanJsonString_plain_witness :
  cleanJsonString "  [1, 2]  " = trim "  [1, 2]  " /\
  parseGenerativeJson "  [1, 2]  " = Ok (JArr [JNum 1 0; JNum 2 0]).
Proof.
  destruct (cleanJsonString_plain "  [1, 2]  ") as [Hc Hp];
    [reflexivity | reflexivity | reflexivity |].
  split; [exact Hc | apply Hp; reflexivity].
Defined.

(** *** The brace span of the earlier revision *)

Lemma indexOf_char_fresh (x : ascii) (pre rest : string) :
  all_chars (other_than x) pre = true ->
  indexOf (String x "") (pre ++ String x rest)%string
    = Some (String.length pre).
Proof.
  induction pre as [|c r IH]; cbn [all_chars].
  - intros _. cbn [append indexOf startsWith]. now rewrite Ascii.eqb_refl.
  - intros H. apply andb_prop in H as [Hc Hr].
    cbn [append indexOf startsWith]. unfold other_than in Hc.
    rewrite Ascii.eqb_sym. destruct (Ascii.eqb c x); [discriminate|].
    cbn [andb]. now rewrite (IH Hr).
Qed.

Lemma lastIndexOf_absent (x : ascii) (s : string) :
  all_chars (other_than x) s = true -> lastIndexOf x s = None.
Proof.
  induction s as [|c r IH]; [reflexivity|]. cbn [all_chars lastIndexOf].
  intros H. apply andb_prop in H as [Hc Hr]. rewrite (IH Hr).
  unfold other_than in Hc. now destruct (Ascii.eqb c x).
Qed.

Lemma lastIndexOf_char_last (x : ascii) (pre post : string) :
  all_chars (other_than x) post = true ->
  lastIndexOf x (pre ++ String x post)%string = Some (String.length pre).
Proof.
  intros Hp. induction pre as [|c r IH].
  - cbn [append lastIndexOf]. rewrite (lastIndexOf_absent _ _ Hp).
    now rewrite Ascii.eqb_refl.
  - cbn [append lastIndexOf]. now rewrite IH.
Qed.

Lemma trimEnd_closed (s : string) (c : ascii) :
  is_space c = false ->
  trimEnd (s ++ String c "")%string = (s ++ String c "")%string.
Proof.
  intros Hc. induction s as [|a r IH].
  - cbn [append]. rewrite trimEnd_cons. cbn [trimEnd]. now rewrite Hc.
  - cbn [append]. rewrite trimEnd_cons, IH.
    destruct r; reflexivity.
Qed.

Lemma all_chars_app (p : ascii -> bool) (a b : string) :
  all_chars p (a ++ b)%string = all_chars p a && all_chars p b.
Proof.
  induction a as [|c r IH]; [reflexivity|].
  cbn [append all_chars]. now rewrite IH, andb_assoc.
Qed.

Lemma span_assoc (a b c : string) :
  ((a ++ b) ++ c = a ++ (b ++ c))%string.
Proof.
  induction a as [|x a IH]; [reflexivity|]. cbn [append]. now rewrite IH.
Qed.

Lemma span_length (a b : string) :
  String.length (a ++ b)%string = String.length a + String.length b.
Proof.
  induction a as [|x a IH]; [reflexivity|].
  cbn [append String.length]. now rewrite IH.
Qed.

(** X5: the earlier revision of [parseGenerativeJson] ignores what
    surrounds the object.  On a reply made of a text without an opening
    brace, then a brace-delimited span that holds no backtick, then a text
    without a closing brace, it answers what the strict parse of the span
    alone answers, its own error standing for the parser's. *)
Theorem legacy_parse_brace_span (pre mid post : string) :
  all_chars (other_than "{") pre = true ->
  all_chars (other_than "}") post = true ->
  all_chars no_backtick mid = true ->
  Legacy.parseGenerativeJson (pre ++ "{" ++ mid ++ "}" ++ post)%string =
  match Json.parse ("{" ++ mid ++ "}")%string with
  | Ok v => Ok v
  | Throw _ => Throw (Error "Failed to parse AI response as JSON.")
  end.
Proof.
  intros Hpre Hpost Hmid.
  unfold Legacy.parseGenerativeJson. cbv zeta.
  change ("{" ++ mid ++ "}" ++ post)%string
    with (String "{" (mid ++ String "}" post)).
  rewrite (indexOf_char_fresh "{" pre _ Hpre).
  replace (pre ++ String "{" (mid ++ String "}" post))%string
    with ((pre ++ String "{" mid) ++ String "}" post)%string
    by (rewrite span_assoc; reflexivity).
  rewrite (lastIndexOf_char_last "}" _ post Hpost).
  assert (Hspan : substring (String.length pre)
                    (String.length (pre ++ String "{" mid)%string + 1)
                    ((pre ++ String "{" mid) ++ String "}" post)%string
                  = String "{" (mid ++ "}")%string).
  { unfold substring. rewrite span_length. cbn [String.length].
    replace (String.length pre <=? String.length pre + S (String.length mid) + 1)%nat
      with true by (symmetry; apply Nat.leb_le; lia).
    rewrite span_assoc. rewrite drop_app_length.
    replace (String.length pre + S (String.length mid) + 1 - String.length pre)
      with (String.length (String "{" (mid ++ "}")%string))
      by (cbn [String.length]; rewrite span_length; cbn [String.length]; lia).
    change (String "{" mid ++ String "}" post)%string
      with (String "{" (mid ++ String "}" post)).
    replace (String "{" (mid ++ String "}" post)%string)
      with (String "{" (mid ++ "}") ++ post)%string
      by (cbn [append]; rewrite span_assoc; reflexivity).
    apply take_app_length. }
  rewrite Hspan.
  assert (Hclean : Legacy.cleanJsonString (String "{" (mid ++ "}")%string)
                   = String "{" (mid ++ "}")%string).
  { unfold Legacy.cleanJsonString.
    assert (Ht : trim (String "{" (mid ++ "}")%string)
                 = String "{" (mid ++ "}")%string).
    { unfold trim. cbn [trimStart].
      change (is_space "{") with false. cbv iota.
      change (String "{" (mid ++ "}")%string)
        with ((String "{" mid) ++ "}")%string.
      now apply trimEnd_closed. }
    rewrite Ht. apply unfence_plain.
    cbn [all_chars]. rewrite all_chars_app, Hmid. reflexivity. }
  rewrite Hclean. reflexivity.
Qed.

Lemma legacy_parse_brace_span_witness :
  Legacy.parseGenerativeJson
    ("Sure: " ++ "{" ++ (lit "a" ++ ":1") ++ "}" ++ " Done.")%string
  = Ok (JObj [("a", JNum 1 0)]).
Proof.
  rewrite (legacy_parse_brace_span "Sure: " (lit "a" ++ ":1")%string " Done.");
    reflexivity.
Defined.

End PlainFacts.

(* ================================================================== *)
(** ** Properties: the extractor on objects                            *)
(* ================================================================== *)

Section ObjectSpanFacts.
Import Str Json.

Lemma scalar_num (m e : Z) : scalar (num m e) = true.
Proof. unfold num. now destruct (strip_zeros _ _ _). Qed.

(** What one character read between tokens gives. *)
Lemma lex_default_cases (c : ascii) (st : LexState) (out : list Token) :
  lex_default c = Some (st, out) ->
  (out = [] /\ (st = LDefault /\ is_json_ws c = true \/
                mid_token st = true /\ lex_sound st = true)) \/
  (st = LDefault /\ is_json_ws c = false /\
   exists t, out = [t] /\ scalar_token t = true /\
             (t = TLBrace -> c = "{"%char) /\ (t = TRBrace -> c = "}"%char)).
Proof.
  destruct c as [[] [] [] [] [] [] [] []]; vm_compute;
    intros [= <- <-] || discriminate;
    solve [ left; split; [reflexivity|]; (left; now split) || (right; now split)
          | right; split; [reflexivity|]; split; [reflexivity|];
            eexists; split; [reflexivity|]; split; [reflexivity|];
            split; (reflexivity || discriminate) ].
Qed.

(** One character read inside a token: either the token goes on, or it
    ends with a scalar in front of what the character itself gives. *)
Lemma lex_step_mid (st st' : LexState) (c : ascii) (out : list Token) :
  mid_token st = true -> lex_sound st = true ->
  lex_step st c = Some (st', out) ->
  lex_sound st' = true /\
  (out = [] /\ mid_token st' = true \/
   exists v rest, out = TScalar v :: rest /\ scalar v = true /\
     (rest = [] /\ (st' = LDefault \/ mid_token st' = true) \/
      st' = LDefault /\ is_json_ws c = false /\
      exists t, rest = [t] /\ scalar_token t = true /\
                (t = TRBrace -> c = "}"%char))).
Proof.
  intros Hmid Hsound.
  assert (Hend : forall a,
    end_number a c = Some (st', out) ->
    lex_sound st' = true /\
    (out = [] /\ mid_token st' = true \/
     exists v rest, out = TScalar v :: rest /\ scalar v = true /\
       (rest = [] /\ (st' = LDefault \/ mid_token st' = true) \/
        st' = LDefault /\ is_json_ws c = false /\
        exists t, rest = [t] /\ scalar_token t = true /\
                  (t = TRBrace -> c = "}"%char)))).
  { intros a. unfold end_number.
    destruct (lex_default c) as [[st1 out1]|] eqn:Hd; [|discriminate].
    intros [= <- <-].
    apply lex_default_cases in Hd
      as [[-> [[-> _]|[Hm Hs]]]|(-> & Hws & t & -> & Ht & _ & Hclose)].
    - split; [reflexivity|]. right. exists (number_of a), [].
      split; [reflexivity|]. split; [apply scalar_num|]. left. now split; [|left].
    - split; [exact Hs|]. right. exists (number_of a), [].
      split; [reflexivity|]. split; [apply scalar_num|]. left. now split; [|right].
    - split; [reflexivity|]. right. exists (number_of a), [t].
      split; [reflexivity|]. split; [apply scalar_num|]. right.
      split; [reflexivity|]. split; [exact Hws|]. now exists t. }
  destruct st as [|rest v|acc|acc|acc k cu|ph a]; try discriminate Hmid;
    cbn [lex_step].
  - (* literal *)
    cbn [lex_sound] in Hsound.
    destruct rest as [|c' [|c'' rest']]; [discriminate| |];
      (destruct (Ascii.eqb c c'); [|discriminate]); intros [= <- <-].
    + split; [reflexivity|]. right. exists v, []. repeat split; try assumption.
      left. now split; [|left].
    + split; [exact Hsound|]. left. now split.
  - (* string *)
    destruct (Ascii.eqb c dquote).
    + intros [= <- <-]. split; [reflexivity|]. right.
      exists (JStr acc), []. repeat split. left. now split; [|left].
    + destruct (Ascii.eqb c "\").
      * intros [= <- <-]. split; [reflexivity|]. left. now split.
      * destruct (code c <? 32)%N; [discriminate|].
        intros [= <- <-]. split; [reflexivity|]. left. now split.
  - (* escape *)
    unfold lex_escape. destruct (Ascii.eqb c dquote).
    + intros [= <- <-]. split; [reflexivity|]. left. now split.
    + destruct c as [[] [] [] [] [] [] [] []]; try discriminate;
        intros [= <- <-]; (split; [reflexivity|]); left; now split.
  - (* unicode escape *)
    destruct (hex c); [|discriminate].
    destruct (k =? 3)%nat; intros [= <- <-];
      (split; [reflexivity|]); left; now split.
  - (* number *)
    unfold lex_number.
    destruct ph;
      repeat match goal with
      | |- context [match digit c with _ => _ end] =>
          destruct (digit c) as [[|?|?]|]
      | |- context [if ?b then _ else _] => destruct b
      end;
      try discriminate; try apply Hend;
      intros [= <- <-]; (split; [reflexivity|]); left; now split.
Qed.

Lemma lex_end_mid (st : LexState) (e : list Token) :
  mid_token st = true -> lex_end st = Some e ->
  exists v, e = [TScalar v] /\ scalar v = true.
Proof.
  destruct st as [| | | | |ph a]; try discriminate.
  intros _. destruct ph; try discriminate; intros [= <-];
    eexists; (split; [reflexivity | apply scalar_num]).
Qed.

(** One character, whatever the state: the state stays sound and what is
    emitted are scalars and punctuation. *)
Lemma lex_step_sound (st st' : LexState) (c : ascii) (out : list Token) :
  lex_sound st = true -> lex_step st c = Some (st', out) ->
  lex_sound st' = true /\ forallb scalar_token out = true.
Proof.
  intros Hsound Hstep. destruct (mid_token st) eqn:Hmid.
  - destruct (lex_step_mid _ _ _ _ Hmid Hsound Hstep)
      as [Hs [[-> _]|(v & rest & -> & Hv & Hrest)]]; split; trivial.
    cbn [forallb scalar_token]. rewrite Hv.
    destruct Hrest as [[-> _]|(_ & _ & t & -> & Ht & _)]; [reflexivity|].
    cbn [forallb]. now rewrite Ht.
  - destruct st; try discriminate Hmid. cbn [lex_step] in Hstep.
    apply lex_default_cases in Hstep
      as [[-> [[-> _]|[_ Hs]]]|(-> & _ & t & -> & Ht & _)]; split; trivial.
    cbn [forallb]. now rewrite Ht.
Qed.

Lemma lex_from_cons (st : LexState) (c : ascii) (r : string)
    (toks : list Token) :
  lex_from st (String c r) = Some toks ->
  exists st' out rest,
    lex_step st c = Some (st', out) /\ lex_from st' r = Some rest /\
    toks = out ++ rest.
Proof.
  cbn [lex_from]. destruct (lex_step st c) as [[st' out]|]; [|discriminate].
  destruct (lex_from st' r) as [rest|] eqn:Hrest; [|discriminate].
  intros [= <-]. now exists st', out, rest.
Qed.

(** The tokens of a text are scalars and punctuation. *)
Lemma lex_from_scalars (s : string) :
  forall st toks,
  lex_sound st = true -> lex_from st s = Some toks ->
  forallb scalar_token toks = true.
Proof.
  induction s as [|c r IH]; intros st toks Hsound Hlex.
  - cbn [lex_from] in Hlex. destruct (mid_token st) eqn:Hmid.
    + destruct (lex_end_mid _ _ Hmid Hlex) as (v & -> & Hv).
      cbn [forallb scalar_token]. now rewrite Hv.
    + destruct st; try discriminate Hmid. now injection Hlex as <-.
  - apply lex_from_cons in Hlex as (st' & out & rest & Hstep & Hrest & ->).
    destruct (lex_step_sound _ _ _ _ Hsound Hstep) as [Hs Hout].
    rewrite forallb_app, Hout. cbn [andb]. exact (IH _ _ Hs Hrest).
Qed.

(** Inside a token the next thing emitted is a scalar. *)
Lemma lex_from_mid (r : string) :
  forall st toks,
  mid_token st = true -> lex_sound st = true ->
  lex_from st r = Some toks ->
  exists v rest, toks = TScalar v :: rest.
Proof.
  induction r as [|c r IH]; intros st toks Hmid Hsound Hlex.
  - cbn [lex_from] in Hlex.
    destruct (lex_end_mid _ _ Hmid Hlex) as (v & -> & _). now exists v, [].
  - apply lex_from_cons in Hlex as (st' & out & rest & Hstep & Hrest & ->).
    destruct (lex_step_mid _ _ _ _ Hmid Hsound Hstep)
      as [Hs [[-> Hm]|(v & tail & -> & _)]].
    + exact (IH _ _ Hm Hs Hrest).
    + now exists v, (tail ++ rest).
Qed.

(** A text whose first token is the opening brace begins with it, or with
    whitespace. *)
Lemma lex_first_brace (c : ascii) (r : string) (rest : list Token) :
  lex (String c r) = Some (TLBrace :: rest) ->
  is_json_ws c = false -> c = "{"%char.
Proof.
  unfold lex. intros Hlex Hws.
  apply lex_from_cons in Hlex as (st' & out & tail & Hstep & Htail & Heq).
  cbn [lex_step] in Hstep.
  apply lex_default_cases in Hstep
    as [[-> [[_ Hw]|[Hm Hs]]]|(-> & _ & t & -> & _ & Hopen & _)].
  - congruence.
  - destruct (lex_from_mid _ _ _ Hm Hs Htail) as (v & tail' & ->).
    discriminate Heq.
  - injection Heq as <- _. now apply Hopen.
Qed.

(** The last token of a text that ends in a character other than
    whitespace is a closing brace only if that character is one. *)
Lemma lex_last_brace (c : ascii) (s : string) :
  is_json_ws c = false ->
  forall st toks,
  lex_sound st = true ->
  lex_from st (s ++ String c "") = Some toks ->
  exists front t, toks = front ++ [t] /\ (t = TRBrace -> c = "}"%char).
Proof.
  intros Hws. induction s as [|d s IH]; intros st toks Hsound Hlex.
  - change (String.append "" (String c "")) with (String c "") in Hlex.
    apply lex_from_cons in Hlex as (st' & out & e & Hstep & Hend & ->).
    cbn [lex_from] in Hend.
    destruct (mid_token st) eqn:Hmid.
    + destruct (lex_step_mid _ _ _ _ Hmid Hsound Hstep)
        as [_ [[-> Hm]|(v & rest & -> & _ & Hrest)]].
      * destruct (lex_end_mid _ _ Hm Hend) as (x & -> & _).
        exists [], (TScalar x). split; [reflexivity | discriminate].
      * destruct Hrest as [[-> [->|Hm]]|(-> & _ & t & -> & _ & Hclose)].
        -- injection Hend as <-. exists [], (TScalar v).
           split; [reflexivity | discriminate].
        -- destruct (lex_end_mid _ _ Hm Hend) as (x & -> & _).
           exists [TScalar v], (TScalar x).
           split; [reflexivity | discriminate].
        -- injection Hend as <-. exists [TScalar v], t.
           split; [reflexivity | exact Hclose].
    + destruct st; try discriminate Hmid. cbn [lex_step] in Hstep.
      apply lex_default_cases in Hstep
        as [[-> [[_ Hw]|[Hm _]]]|(-> & _ & t & -> & _ & _ & Hclose)].
      * congruence.
      * destruct (lex_end_mid _ _ Hm Hend) as (x & -> & _).
        exists [], (TScalar x). split; [reflexivity | discriminate].
      * injection Hend as <-. exists [], t.
        split; [reflexivity | exact Hclose].
  - change (String.append (String d s) (String c ""))
      with (String d (s ++ String c "")) in Hlex.
    apply lex_from_cons in Hlex as (st' & out & rest & Hstep & Hrest & ->).
    destruct (lex_step_sound _ _ _ _ Hsound Hstep) as [Hs _].
    destruct (IH _ _ Hs Hrest) as (front & t & -> & Hclose).
    exists (out ++ front), t. split; [apply app_assoc | exact Hclose].
Qed.

(** *** The recogniser *)

Lemma array_below_push (f : Frame) (stack : list Frame) :
  array_below stack -> array_below (f :: stack).
Proof. intros (done & above & ->). now exists done, (f :: above). Qed.

Lemma array_below_pop (f : Frame) (stack : list Frame) :
  array_below (f :: stack) ->
  (exists done, f = FArr done) /\ stack = [] \/ array_below stack.
Proof.
  intros (done & [|g above] & H).
  - injection H as -> ->. left. split; [now exists done | reflexivity].
  - injection H as _ ->. right. now exists done, above.
Qed.

Lemma array_below_nil : ~ array_below [].
Proof. intros (done & [|g above] & H); discriminate H. Qed.

Lemma array_rooted_step (st st' : PState) (t : Token) :
  array_rooted st -> parse_step st t = Some st' -> array_rooted st'.
Proof.
  destruct st as [mc stack|mc members stack|members k stack|v stack];
    cbn [array_rooted parse_step]; intros Hroot.
  - destruct t as [| | | | | |v]; try discriminate.
    + intros [= <-]. exact Hroot.
    + intros [= <-]. now apply array_below_push.
    + destruct mc; [|discriminate].
      destruct stack as [|[[|x done]|members k] stack']; try discriminate.
      intros [= <-]. cbn [array_rooted].
      apply array_below_pop in Hroot as [[_ ->]|H]; [right|left]; easy.
    + intros [= <-]. now left.
  - destruct t as [| | | | | |[| | | |k| |]]; try discriminate.
    + destruct mc; [|discriminate]. intros [= <-]. now left.
    + intros [= <-]. exact Hroot.
  - destruct t; try discriminate. intros [= <-].
    now apply array_below_push.
  - destruct Hroot as [Hroot|[-> _]]; [|discriminate].
    destruct stack as [|[done|members k] stack'];
      [now apply array_below_nil in Hroot| |].
    + destruct t; try discriminate; intros [= <-]; cbn [array_rooted].
      * apply array_below_pop in Hroot as [[_ ->]|H]; [right|left]; easy.
      * apply array_below_pop in Hroot as [[_ ->]|H].
        -- now exists (v :: done), [].
        -- now apply array_below_push.
    + apply array_below_pop in Hroot as [[[done H] _]|Hroot];
        [discriminate H|].
      destruct t; try discriminate; intros [= <-]; cbn [array_rooted];
        [now left | exact Hroot].
Qed.

(** What begins with an opening bracket is an array. *)
Lemma array_rooted_value (toks : list Token) :
  forall st v,
  array_rooted st -> parse_from st toks = Some v -> isArray v = true.
Proof.
  induction toks as [|t toks IH]; intros st v Hroot; cbn [parse_from].
  - destruct st as [| | |w [|f stack]]; try discriminate.
    intros [= <-]. destruct Hroot as [H|[_ H]]; [|exact H].
    now apply array_below_nil in H.
  - destruct (parse_step st t) as [st'|] eqn:Hstep; [|discriminate].
    apply IH. exact (array_rooted_step _ _ _ Hroot Hstep).
Qed.

(** The tokens of an object begin with an opening brace. *)
Lemma object_first_token (toks : list Token) (kvs : Obj) :
  forallb scalar_token toks = true ->
  parse_from (PValue false []) toks = Some (JObj kvs) ->
  exists rest, toks = TLBrace :: rest.
Proof.
  destruct toks as [|t rest]; [discriminate|].
  cbn [forallb parse_from parse_step]. intros Hs.
  apply andb_prop in Hs as [Ht _].
  destruct t as [| | | | | |v]; try discriminate.
  - intros _. now exists rest.
  - intros H. apply array_rooted_value in H; [discriminate|].
    now exists [], [].
  - destruct rest as [|t' rest']; cbn [parse_from parse_step];
      [|discriminate].
    intros [= ->]. discriminate Ht.
Qed.

(** The tokens of an object end with a closing brace. *)
Lemma object_last_token (kvs : Obj) (toks : list Token) :
  forall st,
  forallb scalar_token toks = true ->
  parse_from st toks = Some (JObj kvs) ->
  toks = [] /\ st = PAfter (JObj kvs) [] \/
  exists front, toks = front ++ [TRBrace].
Proof.
  induction toks as [|t toks IH]; intros st Hs; cbn [parse_from].
  - destruct st as [| | |w [|f stack]]; try discriminate.
    intros [= ->]. now left.
  - cbn [forallb] in Hs. apply andb_prop in Hs as [Ht Hs].
    destruct (parse_step st t) as [st'|] eqn:Hstep; [|discriminate].
    intros Hrest. right.
    destruct (IH st' Hs Hrest) as [[-> ->]|[front ->]].
    + exists []. cbn [app]. f_equal.
      destruct st as [mc stack|mc members stack|members k stack|v stack];
        cbn [parse_step] in Hstep.
      * destruct t as [| | | | | |v]; try discriminate.
        -- destruct mc; [|discriminate].
           destruct stack as [|[[|x done]|members k] stack'];
             discriminate.
        -- injection Hstep as -> _. discriminate Ht.
      * destruct t as [| | | | | |[| | | |k| |]]; try discriminate.
        reflexivity.
      * destruct t; discriminate.
      * destruct stack as [|[done|members k] stack']; [discriminate| |];
          destruct t; try discriminate; reflexivity.
    + now exists (t :: front).
Qed.

(** *** The ends of a trimmed text *)

Lemma json_ws_space (c : ascii) : is_json_ws c = true -> is_space c = true.
Proof. destruct c as [[] [] [] [] [] [] [] []]; vm_compute; congruence. Qed.

Lemma trim_first (u : string) (c : ascii) (r : string) :
  trim u = String c r -> is_space c = false.
Proof.
  unfold trim. destruct (trimStart_head u) as [->|(c' & r' & -> & Hc)];
    [discriminate|].
  destruct (trimEnd_head c' r' Hc) as [r'' ->]. now intros [= <- _].
Qed.

Lemma trimEnd_last (u s : string) (c : ascii) :
  trimEnd u = (s ++ String c "")%string -> is_space c = false.
Proof.
  revert s. induction u as [|a u IH]; intros s.
  - destruct s; discriminate.
  - rewrite trimEnd_cons. destruct (trimEnd u) as [|b u'] eqn:Hu.
    + destruct (is_space a) eqn:Ha; [destruct s; discriminate|].
      destruct s as [|x [|y s]]; try discriminate. now intros [= <-].
    + destruct s as [|x s]; [discriminate|].
      cbn [append]. intros [= _ H]. now apply (IH s).
Qed.

Lemma string_last (c : ascii) (r : string) :
  exists s d, String c r = (s ++ String d "")%string.
Proof.
  revert c. induction r as [|b r IH]; intros c.
  - exists EmptyString, c. reflexivity.
  - destruct (IH b) as (s & d & ->). exists (String c s), d. reflexivity.
Qed.

Lemma take_whole (s : string) : take (String.length s) s = s.
Proof.
  induction s as [|c r IH]; [reflexivity|].
  cbn [String.length take]. now rewrite IH.
Qed.

(** A text that begins with an opening brace and ends with a closing one
    is its own brace span. *)
Lemma braceSpan_whole (r s : string) :
  String "{" r = (s ++ String "}" "")%string ->
  braceSpan (String "{" r) = Some (String "{" r).
Proof.
  intros H. unfold braceSpan.
  rewrite (indexOf_head "{" (String "{" r)) by reflexivity.
  rewrite H at 1 2.
  rewrite (lastIndexOf_char_last "}" s "") by reflexivity.
  unfold substring. cbn [Nat.leb Nat.sub drop].
  rewrite Nat.sub_0_r.
  replace (String.length s + 1) with (String.length (s ++ String "}" ""))
    by (rewrite span_length; reflexivity).
  rewrite <- H. now rewrite take_whole.
Qed.

(** A trimmed text that parses to an object is its own brace span. *)
Lemma object_text_span (u : string) (kvs : Obj) :
  Json.parse (trim u) = Ok (JObj kvs) ->
  braceSpan (trim u) = Some (trim u).
Proof.
  unfold Json.parse.
  destruct (lex (trim u)) as [toks|] eqn:Hlex; [|discriminate].
  destruct (parse_from (PValue false []) toks) as [v|] eqn:Hparse;
    [|discriminate].
  intros [= ->].
  pose proof (lex_from_scalars _ LDefault _ eq_refl Hlex) as Hscalars.
  destruct (object_first_token _ _ Hscalars Hparse) as [rest ->].
  destruct (trim u) as [|c r] eqn:Htrim; [discriminate Hlex|].
  pose proof (trim_first _ _ _ Htrim) as Hfirst.
  assert (Hopen : c = "{"%char).
  { apply (lex_first_brace c r rest Hlex).
    destruct (is_json_ws c) eqn:E; [|reflexivity].
    apply json_ws_space in E. congruence. }
  subst c.
  destruct (string_last "{" r) as (s & d & Hsplit).
  assert (Hd : is_space d = false).
  { apply (trimEnd_last (trimStart u) s). unfold trim in Htrim.
    now rewrite Htrim. }
  assert (Hclose : d = "}"%char).
  { destruct (object_last_token _ _ _ Hscalars Hparse)
      as [[H _]|[front Hfront]]; [discriminate H|].
    unfold lex in Hlex. rewrite Hsplit in Hlex.
    destruct (lex_last_brace d s) with (st := LDefault) (toks := TLBrace :: rest)
      as (front' & t & Heq & Hbrace); trivial.
    { destruct (is_json_ws d) eqn:E; [|reflexivity].
      apply json_ws_space in E. congruence. }
    apply Hbrace. rewrite Hfront in Heq.
    apply app_inj_tail in Heq as [_ Heq]. now symmetry. }
  subst d. exact (braceSpan_whole r s Hsplit).
Qed.

(** *** The first fence *)

Lemma startsWith_within (p : string) :
  forall a rest,
  String.length p <= String.length a ->
  startsWith p (a ++ rest) = startsWith p a.
Proof.
  induction p as [|x p IH]; intros a rest; [reflexivity|].
  destruct a as [|y a]; cbn [String.length]; [lia|]. intros Hlen.
  cbn [append startsWith]. rewrite (IH a rest) by lia. reflexivity.
Qed.

(** Where a text ends with the first occurrence of [p], what follows
    brings no earlier one. *)
Lemma indexOf_first (p rest : string) (pre : string) :
  indexOf p (pre ++ p) = Some (String.length pre) ->
  indexOf p (pre ++ p ++ rest) = Some (String.length pre).
Proof.
  induction pre as [|c pre IH].
  - intros _. apply indexOf_head. apply (startsWith_app p rest).
  - change (String.append (String c pre) p) with (String c (pre ++ p)).
    change (String.append (String c pre) (p ++ rest))
      with (String c (pre ++ p ++ rest)).
    rewrite !indexOf_cons.
    destruct (startsWith p (String c (pre ++ p))) eqn:Hs; [discriminate|].
    assert (Hs' : startsWith p (String c (pre ++ p ++ rest)) = false).
    { rewrite <- Hs. rewrite <- span_assoc.
      apply (startsWith_within p (String c (pre ++ p)) rest).
      cbn [String.length]. rewrite span_length. lia. }
    rewrite Hs'.
    destruct (indexOf p (pre ++ p)) as [i|] eqn:Hi; [|discriminate].
    intros [= ->]. now rewrite IH.
Qed.

(** Without the tag, the fenced text is taken whole only when it does not
    itself begin with [json]. *)
Lemma untagged_fence (body rest : string) :
  startsWith "json" body = false ->
  startsWith "json" (body ++ fence ++ rest) = false.
Proof.
  intros Hj.
  destruct body as [|c1 [|c2 [|c3 [|c4 body]]]]; simpl in *;
    repeat match goal with
    | |- context [Ascii.eqb ?a ?b] =>
        destruct (Ascii.eqb a b) eqn:?; simpl; try reflexivity
    end; try discriminate; assumption.
Qed.

Lemma fenced_block_first (pre tag body post : string) :
  indexOf fence (pre ++ fence) = Some (String.length pre) ->
  indexOf fence (body ++ fence) = Some (String.length body) ->
  tag = "json" \/ tag = "" /\ startsWith "json" body = false ->
  fenced_block (pre ++ fence ++ tag ++ body ++ fence ++ post) = Some body.
Proof.
  intros Hpre Hbody Htag. unfold fenced_block.
  rewrite (indexOf_first fence _ pre Hpre). cbv zeta.
  rewrite drop_app.
  change (drop 3 (fence ++ tag ++ body ++ fence ++ post))
    with (tag ++ body ++ fence ++ post)%string.
  assert (Hafter :
    (if startsWith "json" (tag ++ body ++ fence ++ post)
     then drop 4 (tag ++ body ++ fence ++ post)
     else (tag ++ body ++ fence ++ post)%string)
    = (body ++ fence ++ post)%string).
  { destruct Htag as [->|[-> Hj]].
    - reflexivity.
    - change (String.append "" (body ++ fence ++ post))
        with (body ++ fence ++ post)%string.
      now rewrite (untagged_fence body post Hj). }
  rewrite Hafter, (indexOf_first fence post body Hbody).
  now rewrite take_app_length.
Qed.

Lemma unfence_first (pre tag body post : string) :
  indexOf fence (pre ++ fence) = Some (String.length pre) ->
  indexOf fence (body ++ fence) = Some (String.length body) ->
  tag = "json" \/ tag = "" /\ startsWith "json" body = false ->
  body <> "" ->
  unfence (pre ++ fence ++ tag ++ body ++ fence ++ post) = trim body.
Proof.
  intros Hpre Hbody Htag Hne. unfold unfence.
  unfold includes. rewrite (indexOf_first fence _ pre Hpre).
  rewrite (fenced_block_first pre tag body post Hpre Hbody Htag).
  destruct body; [congruence | reflexivity].
Qed.

(** C1, as amended.  Whenever the fence-stripped text is a JSON object by
    itself, it is its own span from the first opening brace to the last
    closing brace, and the extractor returns what strictly parsing that
    span returns.  This is the case of a reply whose first code fence,
    tagged [json] or not, holds the object and nothing else but
    whitespace, whatever commentary stands before and after the fence
    (inline code included): the fence-stripped text is then the trimmed
    content of the fence. *)
Theorem parseGenerativeJson_fenced_object :
  (forall text kvs,
     Json.parse (cleanJsonString text) = Ok (JObj kvs) ->
     braceSpan (cleanJsonString text) = Some (cleanJsonString text) /\
     parseInnermostSpan text = Ok (JObj kvs) /\
     parseGenerativeJson text = Ok (JObj kvs)) /\
  (forall text pre tag body post kvs,
     stripTokens (trim text)
       = (pre ++ fence ++ tag ++ body ++ fence ++ post)%string ->
     indexOf fence (pre ++ fence) = Some (String.length pre) ->
     indexOf fence (body ++ fence) = Some (String.length body) ->
     tag = "json" \/ tag = "" /\ startsWith "json" body = false ->
     Json.parse (trim body) = Ok (JObj kvs) ->
     cleanJsonString text = trim body /\
     braceSpan (trim body) = Some (trim body) /\
     parseInnermostSpan text = Ok (JObj kvs) /\
     parseGenerativeJson text = Ok (JObj kvs)).
Proof.
  assert (Hwhole : forall text kvs,
     Json.parse (cleanJsonString text) = Ok (JObj kvs) ->
     braceSpan (cleanJsonString text) = Some (cleanJsonString text) /\
     parseInnermostSpan text = Ok (JObj kvs) /\
     parseGenerativeJson text = Ok (JObj kvs)).
  { intros text kvs Hparse.
    assert (Hspan : braceSpan (cleanJsonString text)
                    = Some (cleanJsonString text)).
    { rewrite cleanJsonString_unfold in *.
      exact (object_text_span _ _ Hparse). }
    split; [exact Hspan|]. split.
    - unfold parseInnermostSpan. now rewrite Hspan.
    - now apply parseGenerativeJson_strict. }
  split; [exact Hwhole|].
  intros text pre tag body post kvs Htext Hpre Hbody Htag Hparse.
  assert (Hne : body <> "") by (intros ->; discriminate Hparse).
  assert (Hclean : cleanJsonString text = trim body).
  { rewrite cleanJsonString_unfold, Htext.
    rewrite (unfence_first pre tag body post Hpre Hbody Htag Hne).
    apply trim_idem. }
  split; [exact Hclean|]. rewrite <- Hclean in Hparse |- *.
  exact (Hwhole text kvs Hparse).
Qed.

Lemma parseGenerativeJson_fenced_object_witness :
  cleanJsonString fencedReply = sampleObject /\
  parseGenerativeJson fencedReply
    = Ok (JObj [ ("title", JStr "X"); ("videoType", JStr "Educational");
                 ("timestamps", JArr []);
                 ("sentiment", JObj [("positivePercent", JNum 1 1)]) ]) /\
  parseGenerativeJson inlineReply = Ok (JObj [("title", JStr "a ``b`` c")]) /\
  parseInnermostSpan inlineReply = Ok (JObj [("title", JStr "a ``b`` c")]).
Proof.
  destruct (proj2 parseGenerativeJson_fenced_object fencedReply
              ("Here you go:" ++ Legacy.newline)%string "json"
              (Legacy.newline ++ sampleObject ++ Legacy.newline)%string
              (Legacy.newline ++ "Anything else?")%string _
              eq_refl eq_refl eq_refl (or_introl eq_refl) eq_refl)
    as (Hclean & _ & _ & Hparse).
  destruct (proj2 parseGenerativeJson_fenced_object inlineReply
              ("Use `title` as key:" ++ Legacy.newline)%string ""
              (Legacy.newline ++ "{" ++ lit "title" ++ ":" ++ lit "a ``b`` c"
               ++ "}" ++ Legacy.newline)%string
              " Done." _
              eq_refl eq_refl eq_refl (or_intror (conj eq_refl eq_refl))
              eq_refl)
    as (_ & _ & Hspan & Hinline).
  now repeat split.
Defined.

End ObjectSpanFacts.

(* ================================================================== *)
(** ** Properties: the research record and the two sanitizers          *)
(* ================================================================== *)

Section ResearchFacts.

Lemma js_or_absorb (a d : JsVal) : js_or (js_or a d) d = js_or a d.
Proof.
  unfold js_or. destruct (truthy a) eqn:E; [now rewrite E|].
  now destruct (truthy d).
Qed.

(** X4: on a truthy reply [sanitizeResearchResult] builds a record of
    exactly the six fields of [ResearchResult], in their order, whatever
    else the reply carried.  Its [topic] is truthy, its [keyConcepts] and
    [sources] are arrays; a truthy text field and an array field of the
    reply are kept, a falsy text field becomes the empty string; and the
    function returns that record unchanged when applied to it again. *)
Theorem sanitizeResearchResult_normal_form (data : JsVal) :
  truthy data = true ->
  let r := sanitizeResearchResult data in
  map fst (spread r) = researchFields /\
  truthy (prop r "topic") = true /\
  isArray (prop r "keyConcepts") = true /\
  isArray (prop r "sources") = true /\
  (forall k, In k ("topic" :: textFields) -> truthy (prop data k) = true ->
     prop r k = prop data k) /\
  (forall k, In k textFields -> truthy (prop data k) = false ->
     prop r k = JStr "") /\
  (forall k, In k ["keyConcepts"; "sources"] ->
     isArray (prop data k) = true -> prop r k = prop data k) /\
  sanitizeResearchResult r = r.
Proof.
  intros Ht. cbv zeta.
  assert (Hr : sanitizeResearchResult data =
    JObj [ ("topic", js_or (prop data "topic") (JStr "Unknown"));
           ("definition", js_or (prop data "definition") (JStr ""));
           ("history", js_or (prop data "history") (JStr ""));
           ("keyConcepts", ensureArray (prop data "keyConcepts"));
           ("relevance", js_or (prop data "relevance") (JStr ""));
           ("sources", ensureArray (prop data "sources")) ])
    by (unfold sanitizeResearchResult; now rewrite Ht).
  rewrite Hr. clear Hr. set (r := JObj _).
  repeat split.
  - subst r. simpl. unfold field. simpl. unfold js_or.
    destruct (truthy (prop data "topic")) eqn:E; [exact E | reflexivity].
  - apply ensureArray_isArray.
  - apply ensureArray_isArray.
  - intros k Hin Hv. simpl in Hin.
    destruct Hin as [<-|[<-|[<-|[<-|[]]]]]; subst r; simpl; unfold field; simpl;
      unfold js_or; now rewrite Hv.
  - intros k Hin Hv. simpl in Hin.
    destruct Hin as [<-|[<-|[<-|[]]]]; subst r; simpl; unfold field; simpl;
      unfold js_or; now rewrite Hv.
  - intros k Hin Harr. simpl in Hin.
    destruct Hin as [<-|[<-|[]]]; subst r; simpl; unfold field; simpl;
      now apply ensureArray_array.
  - assert (H1 : prop r "topic" = js_or (prop data "topic") (JStr "Unknown"))
      by reflexivity.
    assert (H2 : prop r "definition" = js_or (prop data "definition") (JStr ""))
      by reflexivity.
    assert (H3 : prop r "history" = js_or (prop data "history") (JStr ""))
      by reflexivity.
    assert (H4 : prop r "keyConcepts" = ensureArray (prop data "keyConcepts"))
      by reflexivity.
    assert (H5 : prop r "relevance" = js_or (prop data "relevance") (JStr ""))
      by reflexivity.
    assert (H6 : prop r "sources" = ensureArray (prop data "sources"))
      by reflexivity.
    unfold sanitizeResearchResult.
    change (truthy r) with true. cbn [negb]. cbv iota.
    rewrite H1, H2, H3, H4, H5, H6.
    rewrite !js_or_absorb, !ensureArray_idem. reflexivity.
Qed.

Lemma sanitizeResearchResult_normal_form_witness :
  let r := sanitizeResearchResult sampleResearch in
  map fst (spread r) = researchFields /\
  prop r "topic" = JStr "Fusion" /\
  prop r "sources" = JArr [] /\
  sanitizeResearchResult r = r.
Proof.
  cbv zeta.
  pose proof (sanitizeResearchResult_normal_form sampleResearch eq_refl) as H.
  cbv zeta in H. destruct H as (Hk & _ & _ & _ & _ & _ & _ & Hi).
  split; [exact Hk|]. split; [reflexivity|]. split; [reflexivity | exact Hi].
Defined.

End ResearchFacts.

Section RevisionFacts.

Lemma or_empty_ensureArray (v : JsVal) :
  array_or_falsy v = true -> js_or v (JArr []) = ensureArray v.
Proof.
  unfold array_or_falsy, js_or, ensureArray.
  destruct (isArray v) eqn:Ha.
  - intros _. destruct v; try discriminate. reflexivity.
  - cbn [orb]. intros Hf. apply negb_true_iff in Hf. now rewrite Hf.
Qed.

Lemma truthy_readable (v : JsVal) : truthy v = true -> readable v.
Proof. destruct v; try discriminate; intros _; split; discriminate. Qed.

Lemma legacy_section_agrees (s : JsVal) :
  section_conforms s -> Legacy.sanitizeSection s = sanitizeSection s.
Proof.
  intros [Hr Hp]. unfold Legacy.sanitizeSection, sanitizeSection.
  rewrite (getProp_readable _ _ Hr). cbn [bind].
  now rewrite (or_empty_ensureArray _ Hp).
Qed.

Lemma legacy_sections_agree (l : list JsVal) :
  Forall section_conforms l ->
  mapM Legacy.sanitizeSection l = mapM sanitizeSection l.
Proof.
  induction 1 as [|s l Hs _ IH]; [reflexivity|].
  cbn [mapM]. now rewrite (legacy_section_agrees _ Hs), IH.
Qed.

Lemma legacy_review_agrees (rd : JsVal) :
  truthy rd = true -> review_conforms rd ->
  Legacy.sanitizeReview rd = sanitizeReview rd.
Proof.
  intros Ht [Hf|(Hi & Hv & Hp & Hc)]; [congruence|].
  unfold Legacy.sanitizeReview, sanitizeReview.
  rewrite (or_empty_ensureArray _ Hp), (or_empty_ensureArray _ Hc).
  unfold js_or. now rewrite Hi, Hv.
Qed.

(** X6: the two revisions of [sanitizeData] agree on the records that
    follow the declared types: a truthy record whose six sequence fields
    are arrays or falsy, whose study sections are objects with [points] an
    array or falsy, and whose review, if it has one, names its item and
    its verdict and has [pros] and [cons] that are arrays or falsy.  On
    such a record both revisions return, and they return the same
    record. *)
Theorem sanitizeData_revisions_agree (data : JsVal) :
  conforms data ->
  exists r, Legacy.sanitizeData data = Ok r /\ sanitizeData data = Ok r.
Proof.
  intros (Ht & Hseq & Hsec & Hrev).
  assert (Hf : forall f, In f sequenceFields ->
                 js_or (prop data f) (JArr []) = ensureArray (prop data f))
    by (intros f Hin; apply or_empty_ensureArray, Hseq, Hin).
  destruct (mapM_sanitizeSection_total
              (items (ensureArray (prop data "studyNotes")))) as [notes Hn].
  { eapply Forall_impl; [|exact Hsec]. now intros s [Hr _]. }
  exists (JObj (obj_literal (spread data) (sanitizedProps data notes))).
  split.
  - unfold Legacy.sanitizeData.
    rewrite (getProp_readable _ _ (truthy_readable _ Ht)). cbn [bind].
    rewrite !Hf by (simpl; tauto).
    rewrite ensureArray_isArray.
    rewrite (legacy_sections_agree _ Hsec), Hn. cbn [bind].
    do 2 f_equal. unfold sanitizedProps.
    destruct (truthy (prop data "reviewDetails")) eqn:Er; [|reflexivity].
    now rewrite (legacy_review_agrees _ Er Hrev).
  - apply sanitizeData_truthy; [exact Ht|]. now exists notes.
Qed.

Lemma sanitizeData_revisions_agree_witness :
  exists r,
    Legacy.sanitizeData typedRecord = Ok r /\ sanitizeData typedRecord = Ok r.
Proof.
  apply sanitizeData_revisions_agree.
  split; [reflexivity|]. split; [|split].
  - intros f Hin. simpl in Hin.
    destruct Hin as [<-|[<-|[<-|[<-|[<-|[<-|[]]]]]]]; reflexivity.
  - repeat constructor; discriminate.
  - now left.
Defined.

End RevisionFacts.

(* ================================================================== *)
(** ** Properties: the analysis handler, the history panel, uploads    *)
(* ================================================================== *)

Section CommitFacts.
Import Str App.

(** What [sanitizeData] returns it accepts again, and the result of a
    truthy input comes back unchanged. *)
Lemma sanitizeData_again (raw result : JsVal) :
  sanitizeData raw = Ok result ->
  exists stored,
    sanitizeData result = Ok stored /\
    (truthy raw = true -> stored = result).
Proof.
  intros Hr. destruct (truthy raw) eqn:Ht.
  - exists result. split; [|reflexivity].
    apply sanitizeData_truthy in Hr as (notes & Hn & ->); [|exact Ht].
    set (y := JObj (obj_literal (spread raw) (sanitizedProps raw notes))).
    assert (Hw : forall k v, In (k, v) (sanitizedProps raw notes) ->
                   prop y k = v)
      by (intros k v Hin; now apply sanitized_written).
    assert (Hnotes : mapM sanitizeSection notes = Ok notes).
    { apply mapM_fixed. apply mapM_Forall2 in Hn. clear -Hn.
      induction Hn as [|s s' l l' Hs _ IH]; constructor; [|exact IH].
      now apply sanitizeSection_idem in Hs. }
    assert (Hprops : sanitizedProps y notes = sanitizedProps raw notes).
    { unfold sanitizedProps.
      rewrite (Hw "videoType" _) by (simpl; left; reflexivity).
      rewrite (Hw "timestamps" _) by (simpl; right; left; reflexivity).
      rewrite (Hw "themes" _) by (simpl; do 2 right; left; reflexivity).
      rewrite (Hw "quotes" _) by (simpl; do 4 right; left; reflexivity).
      rewrite (Hw "speakers" _) by (simpl; do 5 right; left; reflexivity).
      rewrite (Hw "subTopics" _) by (simpl; do 6 right; left; reflexivity).
      rewrite (Hw "reviewDetails" _) by (simpl; do 7 right; left; reflexivity).
      rewrite js_or_idem by reflexivity. rewrite !ensureArray_idem.
      destruct (truthy (prop raw "reviewDetails")).
      - now rewrite sanitizeReview_truthy, sanitizeReview_idem.
      - reflexivity. }
    apply sanitizeData_truthy; [reflexivity|]. exists notes. split.
    + rewrite (Hw "studyNotes" (JArr notes)) by (simpl; tauto). exact Hnotes.
    + rewrite Hprops. subst y.
      change (spread (JObj (obj_literal (spread raw) (sanitizedProps raw notes))))
        with (obj_literal (spread raw) (sanitizedProps raw notes)).
      f_equal. symmetry. apply obj_literal_same. intros k v Hin.
      apply lookup_literal_written; [apply sanitizedProps_NoDup | exact Hin].
  - rewrite (sanitizeData_falsy _ Ht) in Hr. injection Hr as <-.
    eexists. split; [reflexivity | discriminate].
Qed.

(** The sanitizer leaves the properties it does not default as they
    were. *)
Lemma sanitizeData_keeps (kvs : Obj) (result : JsVal) (k : string) :
  sanitizeData (JObj kvs) = Ok result ->
  ~ In k defaultedFields ->
  prop result k = prop (JObj kvs) k.
Proof.
  intros Hr Hk.
  apply sanitizeData_truthy in Hr as (notes & _ & ->); [|reflexivity].
  unfold prop, field.
  now rewrite lookup_literal_other by (now rewrite sanitizedProps_keys).
Qed.

Lemma mapM_sanitizeSection_Throw (l : list JsVal) (e : Exn) :
  mapM sanitizeSection l = Throw e -> e = TypeError.
Proof.
  induction l as [|s l IH]; [discriminate|]. cbn [mapM].
  unfold sanitizeSection at 1.
  destruct s; cbn [getProp bind]; try (intros [= <-]; reflexivity);
    destruct (mapM sanitizeSection l); cbn [bind];
    try discriminate; intros [= <-]; now apply IH.
Qed.

(** The one exception [sanitizeData] throws. *)
Lemma sanitizeData_Throw (d : JsVal) (e : Exn) :
  sanitizeData d = Throw e -> e = TypeError.
Proof.
  unfold sanitizeData. destruct (negb (truthy d)); [discriminate|].
  destruct (mapM sanitizeSection _) as [notes|e'] eqn:E; cbn [bind];
    [discriminate|].
  intros [= <-]. now apply mapM_sanitizeSection_Throw in E.
Qed.

Lemma analyzeUrlWithGrounding_Throw (fetched : Res BackendResponse)
    (e : Exn) :
  analyzeUrlWithGrounding fetched = Throw e ->
  exists m, e = Error ("Analysis Failed: " ++ m).
Proof.
  unfold analyzeUrlWithGrounding. cbv zeta.
  match goal with |- match ?a with _ => _ end = _ -> _ => destruct a end;
    [discriminate|].
  intros [= <-]. eexists. reflexivity.
Qed.

Lemma analyzeTranscript_Ok (responseText : option string) (result : JsVal) :
  analyzeTranscript responseText = Ok result ->
  exists raw, sanitizeData raw = Ok result.
Proof.
  unfold analyzeTranscript. cbv zeta.
  destruct (parseGenerativeJson _) as [raw|e]; cbn [bind]; [|discriminate].
  intros H. now exists raw.
Qed.

Lemma analyzeTranscript_Throw (responseText : option string) (e : Exn) :
  analyzeTranscript responseText = Throw e ->
  e = Error "Failed to parse AI response." \/ e = TypeError.
Proof.
  unfold analyzeTranscript. cbv zeta.
  destruct (parseGenerativeJson _) as [raw|e'] eqn:E; cbn [bind].
  - intros H. right. now apply sanitizeData_Throw in H.
  - intros [= <-]. left. unfold parseGenerativeJson in E. cbv zeta in E.
    destruct (Json.parse (cleanJsonString _)); [discriminate|].
    destruct (Json.parse (repairJson _)); [discriminate|].
    now injection E as <-.
Qed.

Lemma mismatchGuard_Ok (videoId : option string) (result out : JsVal) :
  mismatchGuard videoId result = Ok out ->
  out = result /\
  forall id, videoId = Some id -> id <> "" ->
    truthy (prop result "videoId") = false \/
    prop result "videoId" = JStr id \/
    prop result "videoId" = JStr "NOT_FOUND".
Proof.
  unfold mismatchGuard. destruct videoId as [[|c r]|].
  - intros [= <-]. split; [reflexivity|]. intros id [= <-] Hne. now elim Hne.
  - destruct (getProp result "videoId") as [resolved|] eqn:Hread;
      cbn [bind]; [|discriminate].
    apply getProp_Ok in Hread as [_ ->].
    destruct (truthy (prop result "videoId")) eqn:Ht; cbn [andb].
    + destruct (is_str (prop result "videoId") (String c r)) eqn:E1;
        cbn [negb andb].
      * intros [= <-]. split; [reflexivity|]. intros id [= <-] _.
        apply is_str_true in E1. tauto.
      * destruct (is_str (prop result "videoId") "NOT_FOUND") eqn:E2;
          cbn [negb].
        -- intros [= <-]. split; [reflexivity|]. intros id _ _.
           apply is_str_true in E2. tauto.
        -- destruct (toText (prop result "videoId")); discriminate.
    + intros [= <-]. split; [reflexivity|]. intros; tauto.
  - intros [= <-]. split; [reflexivity|]. discriminate.
Qed.

Lemma mismatchGuard_Throw (videoId : option string) (result : JsVal)
    (e : Exn) :
  mismatchGuard videoId result = Throw e ->
  (exists id, e = Error (mismatchMessage id)) \/ e = TypeError.
Proof.
  unfold mismatchGuard.
  destruct videoId as [[|c r]|]; try discriminate.
  destruct (getProp result "videoId") as [resolved|e'] eqn:Hread;
    cbn [bind].
  - destruct (_ && _ && _); [|discriminate].
    destruct (toText resolved) as [id|e'] eqn:Htext; cbn [bind].
    + intros [= <-]. left. now exists id.
    + intros [= <-]. right. now apply toText_Throw in Htext.
  - intros [= <-]. right. destruct result; simpl in Hread; congruence.
Qed.

Lemma historyItem_Throw (now_id now_date : Z) (sd : JsVal) (e : Exn) :
  historyItem now_id now_date sd = Throw e ->
  e = TypeError /\ toText (prop sd "videoId") = Throw TypeError.
Proof.
  unfold historyItem, thumbnailOf.
  destruct (truthy (prop sd "videoId")); [|discriminate].
  destruct (toText (prop sd "videoId")) as [id|e'] eqn:Htext; cbn [bind];
    [discriminate|].
  intros [= <-]. apply toText_Throw in Htext as ->. now split.
Qed.

Lemma validateYouTubeUrl_pass (hostnameOf : string -> option string)
    (u : string) :
  validateYouTubeUrl hostnameOf u = None ->
  blank u = false /\
  (exists host,
     hostnameOf u = Some host /\
     includes "youtube.com" (toLowerCase host)
     || includes "youtu.be" (toLowerCase host) = true) /\
  exists id, getYouTubeId u = Some id.
Proof.
  unfold validateYouTubeUrl, blank.
  destruct (trim u =? ""); [discriminate|].
  destruct (hostnameOf u) as [host|]; [|discriminate]. cbv zeta.
  destruct (includes "youtube.com" (toLowerCase host)) eqn:E1;
    destruct (includes "youtu.be" (toLowerCase host)) eqn:E2;
    cbn [negb andb]; try discriminate;
    (destruct (getYouTubeId u) as [id|]; [|discriminate]; intros _;
     split; [reflexivity|]; split; [|now exists id];
     exists host; split; [reflexivity|]; now rewrite E1, E2).
Qed.

Lemma getYouTubeId_length (u id : string) :
  getYouTubeId u = Some id -> String.length id = 11.
Proof.
  rewrite getYouTubeId_unfold.
  destruct (after_last_marker u) as [rest|]; [|discriminate]. cbv zeta.
  destruct (String.length (take_while id_char rest) =? 11)%nat eqn:E;
    [|discriminate].
  intros [= <-]. now apply Nat.eqb_eq.
Qed.

End CommitFacts.

Section AnalyzeFacts.
Import Str App.

Variable hostnameOf : string -> option string.
Variable backend : string -> string -> Res BackendResponse.
Variable generate : string -> Res (option string).

(** What the [try] block of [handleAnalyze] can end with. *)
Lemma analysis_Ok (st : AppState) (result : JsVal) (step : string)
    (requests : list NetCall) :
  analysis backend generate st = (Ok result, step, requests) ->
  (exists raw, sanitizeData raw = Ok result) /\
  List.length requests = 1.
Proof.
  unfold analysis. destruct (inputMode st).
  - intros [= Hcall _ <-]. split; [|reflexivity].
    unfold urlAnalysis in Hcall.
    destruct (analyzeUrlWithGrounding _) as [analysed|] eqn:Hfetch;
      cbn [bind] in Hcall; [|discriminate].
    apply mismatchGuard_Ok in Hcall as [-> _].
    exact (analyzeUrlWithGrounding_Ok _ _ Hfetch).
  - intros [= Hcall _ <-]. split; [|reflexivity].
    destruct (generate _) as [response|]; cbn [bind] in Hcall;
      [|discriminate].
    exact (analyzeTranscript_Ok _ _ Hcall).
  - discriminate.
Qed.

Lemma analysis_Throw (st : AppState) (e : Exn) (step : string)
    (requests : list NetCall) :
  analysis backend generate st = (Throw e, step, requests) ->
  List.length requests <= 1 /\
  (inputMode st = ModeUrl ->
     startsWith "Analysis Failed: " (message_of e) = true \/
     startsWith "Analysis Mismatch: " (message_of e) = true \/
     e = TypeError).
Proof.
  unfold analysis. destruct (inputMode st).
  - intros [= Hcall _ <-]. split; [apply Nat.le_refl|]. intros _.
    unfold urlAnalysis in Hcall.
    destruct (analyzeUrlWithGrounding _) as [analysed|e'] eqn:Hfetch;
      cbn [bind] in Hcall.
    + apply mismatchGuard_Throw in Hcall as [[id ->]| ->]; [|tauto].
      right. left. reflexivity.
    + injection Hcall as <-.
      apply analyzeUrlWithGrounding_Throw in Hfetch as [m ->].
      left. apply startsWith_app.
  - intros [= _ _ <-]. split; [apply Nat.le_refl | discriminate].
  - intros [= _ _ <-]. split; [apply Nat.le_0_l | discriminate].
Qed.

(** X7: the five ways in which [handleAnalyze] ends.  Thrown: in
    transcript mode with a transcript that is no string the validation
    throws a TypeError that nothing catches; the error message is cleared
    and nothing else happens.  Refused: only the error message changes and
    no request is made.  Failed: an error is shown, no record is shown,
    the history is the one the component had, and in URL mode the message
    starts with [Analysis Failed: ] or [Analysis Mismatch: ] or is the
    engine's for an identifier without text.  Otherwise exactly one
    request was made and the record shown is one the sanitizer returned;
    then either the entry of that record was put in front of the history
    in the closure of the memoised handler, which need not be the history
    the component had, and the error shown is the one of a refused write,
    if any; or building the entry threw, the history is the one the
    component had and the engine's error is shown beside the record. *)
Theorem handleAnalyze_outcomes (now_id now_date : Z) (setItem : option Exn)
    (closure : list Obj) (st : AppState) :
  let out := handleAnalyze hostnameOf backend generate now_id now_date
               setItem closure st in
  let st' := after out in
  (uncaught out = Some TypeError /\
   inputMode st = ModeTranscript /\
   (forall text, transcript st <> JStr text) /\
   st' = with_error None st /\ calls out = []) \/
  uncaught out = None /\
  ((exists message, st' = with_error (Some message) st /\ calls out = []) \/
   (exists message,
      error st' = Some message /\ data st' = None /\
      history st' = history st /\ isLoading st' = false /\
      List.length (calls out) <= 1 /\
      (inputMode st = ModeUrl ->
         startsWith "Analysis Failed: " message = true \/
         startsWith "Analysis Mismatch: " message = true \/
         message = message_of TypeError)) \/
   (exists raw result stored,
      sanitizeData raw = Ok result /\
      sanitizeData result = Ok stored /\
      (truthy raw = true -> stored = result) /\
      data st' = Some result /\ isLoading st' = false /\
      List.length (calls out) = 1 /\
      ((exists newItem,
          historyItem now_id now_date stored = Ok newItem /\
          history st' = pushRecent newItem closure /\
          error st' = option_map message_of setItem) \/
       (historyItem now_id now_date stored = Throw TypeError /\
        history st' = history st /\
        error st' = Some (message_of TypeError))))).
Proof.
  cbv zeta. unfold handleAnalyze. cbv zeta.
  destruct (validate hostnameOf (with_error None st))
    as [[message|]|e] eqn:Hval.
  - right. split; [reflexivity|]. left. now exists message.
  - destruct (analysis backend generate (with_error None st))
      as [[[result|e] step] requests] eqn:Hrun;
      (right; split; [reflexivity|]; right).
    + right. apply analysis_Ok in Hrun as [[raw Hraw] Hlen].
      destruct (sanitizeData_again _ _ Hraw) as (stored & Hs & Heq).
      exists raw, result, stored.
      split; [exact Hraw|]. split; [exact Hs|]. split; [exact Heq|].
      unfold saveToHistory. rewrite Hs. cbn [bind].
      destruct (historyItem now_id now_date stored) as [newItem|e]
        eqn:Hitem; cbn [bind after calls].
      * repeat split; [exact Hlen|]. left. now exists newItem.
      * apply historyItem_Throw in Hitem as [-> _].
        repeat split; [exact Hlen|]. right. now repeat split.
    + left. apply analysis_Throw in Hrun as [Hlen Hurl].
      exists (message_of e). cbn [after calls].
      repeat split; [exact Hlen|].
      intros Hmode. destruct (Hurl Hmode) as [H|[H| ->]]; tauto.
  - left. unfold validate in Hval.
    cbn [with_error inputMode transcript] in Hval.
    destruct (inputMode st); try discriminate.
    destruct (transcript st) eqn:Ht; try discriminate;
      injection Hval as <-; repeat split; discriminate.
Qed.

(** X8: in URL mode [handleAnalyze] lets no exception escape and makes no
    request or posts the URL with the chosen type once; it contacts the
    backend only for a URL whose host names YouTube and that carries an
    identifier of eleven characters; and a record it shows after a request
    was not analysed for another video: the record's [videoId] is falsy
    (absent, say), the identifier of the URL, or the sentinel
    [NOT_FOUND]. *)
Theorem handleAnalyze_same_video (now_id now_date : Z)
    (setItem : option Exn) (closure : list Obj) (st : AppState) :
  inputMode st = ModeUrl ->
  let out := handleAnalyze hostnameOf backend generate now_id now_date
               setItem closure st in
  uncaught out = None /\
  (calls out = [] \/ calls out = [PostAnalyze (url st) (videoTypeFilter st)]) /\
  (calls out <> [] ->
     exists id host,
       getYouTubeId (url st) = Some id /\
       String.length id = 11 /\
       hostnameOf (url st) = Some host /\
       includes "youtube.com" (toLowerCase host)
       || includes "youtu.be" (toLowerCase host) = true /\
       forall result,
         data (after out) = Some result ->
         truthy (prop result "videoId") = false \/
         prop result "videoId" = JStr id \/
         prop result "videoId" = JStr "NOT_FOUND").
Proof.
  intros Hmode. cbv zeta. unfold handleAnalyze, validate, analysis. cbv zeta.
  cbn [with_error inputMode url transcript videoTypeFilter history].
  rewrite Hmode.
  destruct (validateYouTubeUrl hostnameOf (url st)) as [e|] eqn:Hval.
  - cbn [uncaught calls]. split; [reflexivity|]. split; [now left|].
    intros Hcalls. now elim Hcalls.
  - destruct (validateYouTubeUrl_pass _ _ Hval)
      as (_ & (host & Hhost & Hyt) & (id & Hid)).
    rewrite Hid. pose proof (getYouTubeId_length _ _ Hid) as Hlen.
    assert (Hne : id <> "") by (intros ->; discriminate).
    unfold urlAnalysis.
    destruct (analyzeUrlWithGrounding (backend (url st) (videoTypeFilter st)))
      as [analysed|e] eqn:Hcall; cbn [bind].
    + destruct (mismatchGuard (Some id) analysed) as [shown|e] eqn:Hguard;
        cbn [uncaught calls after];
        (split; [reflexivity|]); (split; [now right|]); intros _;
        exists id, host; repeat split; try assumption.
      * apply mismatchGuard_Ok in Hguard as [-> Hsame].
        intros result Hshown. specialize (Hsame id eq_refl Hne).
        destruct (saveToHistory _ _ _ _ _) as [[updated refused]|];
          cbn [settled data] in Hshown; injection Hshown as <-; exact Hsame.
      * cbn [settled data]. discriminate.
    + cbn [uncaught calls after].
      split; [reflexivity|]. split; [now right|]. intros _.
      exists id, host. repeat split; try assumption.
      cbn [settled data]. discriminate.
Qed.

End AnalyzeFacts.

Section AnalyzeWitnesses.
Import Str App.

Lemma handleAnalyze_same_video_witness :
  let out := handleAnalyze (fun _ => Some "youtu.be")
               (fun _ _ => Ok (mkResponse true (Ok (JObj [("title", JStr "T")]))))
               (fun _ => Ok None) 0 0 None []
               (urlState "https://youtu.be/dQw4w9WgXcQ") in
  uncaught out = None /\
  calls out = [PostAnalyze "https://youtu.be/dQw4w9WgXcQ" "Auto"] /\
  exists id, getYouTubeId "https://youtu.be/dQw4w9WgXcQ" = Some id /\
             String.length id = 11.
Proof.
  cbv zeta.
  destruct (handleAnalyze_same_video (fun _ => Some "youtu.be")
              (fun _ _ => Ok (mkResponse true (Ok (JObj [("title", JStr "T")]))))
              (fun _ => Ok None) 0 0 None []
              (urlState "https://youtu.be/dQw4w9WgXcQ") eq_refl)
    as (Hnone & Hcalls & Hmade).
  split; [exact Hnone|]. split; [reflexivity|].
  destruct Hmade as (id & host & Hid & Hlen & _); [discriminate|].
  exists id. now split.
Defined.

End AnalyzeWitnesses.

Section ReopenFacts.
Import Str App.

Lemma startsWith_all_chars (f : ascii -> bool) (p s : string) :
  startsWith p s = true -> all_chars f s = true -> all_chars f p = true.
Proof.
  revert s. induction p as [|a p IH]; intros s; [reflexivity|].
  destruct s as [|b s]; [discriminate|]. cbn [startsWith all_chars].
  intros H1 H2. apply andb_prop in H1 as [Hab Hp].
  apply andb_prop in H2 as [Hb Hs].
  apply Ascii.eqb_eq in Hab. subst b. rewrite Hb. cbn [andb].
  now apply (IH s).
Qed.

Lemma all_chars_drop (f : ascii -> bool) (n : nat) (s : string) :
  all_chars f s = true -> all_chars f (drop n s) = true.
Proof.
  revert s. induction n as [|n IH]; intros s; [trivial|].
  destruct s as [|c r]; [trivial|]. cbn [drop all_chars].
  intros H. apply andb_prop in H as [_ H]. now apply IH.
Qed.

(** Every alternative of the marker group holds a character that no
    identifier holds. *)
Lemma marker_at_identifier (s : string) :
  all_chars videoIdChar s = true -> marker_at s = None.
Proof.
  intros Hs. unfold marker_at.
  assert (Hno : forall p t, all_chars videoIdChar p = false ->
                  all_chars videoIdChar t = true -> startsWith p t = false).
  { intros p t Hp Ht. destruct (startsWith p t) eqn:E; [|reflexivity].
    rewrite (startsWith_all_chars _ _ _ E Ht) in Hp. discriminate. }
  rewrite (Hno "be/" (drop 6 s)) by (reflexivity || now apply all_chars_drop).
  rewrite andb_false_r.
  rewrite (Hno "v/" s) by (reflexivity || assumption).
  rewrite (Hno "/" (drop 3 s)) by (reflexivity || now apply all_chars_drop).
  rewrite andb_false_r.
  rewrite (Hno "embed/" s) by (reflexivity || assumption).
  rewrite (Hno "watch?v=" s) by (reflexivity || assumption).
  rewrite (Hno "&v=" s) by (reflexivity || assumption).
  reflexivity.
Qed.

Lemma markers_in_identifier (s : string) :
  all_chars videoIdChar s = true -> markers_in s = false.
Proof.
  induction s as [|c r IH]; [reflexivity|]. intros Hs.
  cbn [markers_in]. rewrite (marker_at_identifier _ Hs).
  apply IH. cbn [all_chars] in Hs. now apply andb_prop in Hs as [_ Hs].
Qed.

Lemma identifier_id_chars (s : string) :
  all_chars videoIdChar s = true -> all_chars id_char s = true.
Proof.
  induction s as [|c r IH]; [reflexivity|]. cbn [all_chars].
  intros H. apply andb_prop in H as [Hc Hr]. rewrite (IH Hr), andb_true_r.
  revert Hc. unfold videoIdChar, id_char, is_word, code.
  destruct c as [[] [] [] [] [] [] [] []]; vm_compute; congruence.
Qed.

Lemma watchUrl_end (s : string) : (s ++ "")%string = s.
Proof.
  induction s as [|c r IH]; [reflexivity|]. cbn [append]. now rewrite IH.
Qed.

(** The address [loadFromHistory] writes leads back to the identifier. *)
Lemma getYouTubeId_watchUrl (id : string) :
  String.length id = 11 -> all_chars videoIdChar id = true ->
  getYouTubeId (watchUrl id) = Some id.
Proof.
  intros Hlen Hid.
  pose proof (getYouTubeId_after_marker "https://www.youtube.com/" "watch?v="
                id "") as H.
  rewrite watchUrl_end in H. apply H; clear H.
  - reflexivity.
  - apply (literal_marker_at "watch?v=" id). simpl. tauto.
  - change (drop 1 ("watch?v=" ++ id)%string) with ("atch?v=" ++ id)%string.
    cbn. now apply markers_in_identifier.
  - exact Hlen.
  - now apply identifier_id_chars.
  - reflexivity.
Qed.

(** X9: reopening a stored analysis of a video restores the input it
    came from.  For an entry whose record names a video by an identifier
    of eleven letters, digits, [_] or [-], [loadFromHistory] ends without
    an exception, shows the sanitised record, which still names that
    video, switches to URL mode and writes a watch address from which
    [getYouTubeId] reads the same identifier back; so, unless an analysis
    is running, [isAnalysisComplete] holds and the analyse button is
    disabled.  The history is left as it was. *)
Theorem loadFromHistory_marks_generated (item : Obj) (st : AppState)
    (id : string) :
  prop (field item "data") "videoId" = JStr id ->
  String.length id = 11 ->
  all_chars videoIdChar id = true ->
  sections_ok (field item "data") ->
  exists clean,
    sanitizeData (field item "data") = Ok clean /\
    prop clean "videoId" = JStr id /\
    let st' := fst (loadFromHistory item st) in
    snd (loadFromHistory item st) = None /\
    data st' = Some clean /\
    inputMode st' = ModeUrl /\
    url st' = watchUrl id /\
    getYouTubeId (url st') = Some id /\
    history st' = history st /\
    (isLoading st = false -> isAnalysisComplete st' = Some true).
Proof.
  intros Hid Hlen Hchars Hok.
  destruct (field item "data") as [| | | | |xs|kvs] eqn:Hstored;
    try discriminate Hid.
  destruct (proj1 (sanitizeData_returns _) Hok) as [clean Hclean].
  assert (Hkeep : prop clean "videoId" = JStr id).
  { rewrite (sanitizeData_keeps _ _ "videoId" Hclean); [exact Hid|].
    simpl. intuition discriminate. }
  assert (Htruthy : truthy (JStr id) = true) by (now destruct id).
  exists clean. split; [exact Hclean|]. split; [exact Hkeep|].
  unfold loadFromHistory. rewrite Hstored. cbv zeta.
  rewrite Hclean. cbn [getProp]. rewrite Hid, Htruthy.
  cbn [toText fst snd].
  repeat split.
  - cbn [with_url with_mode with_data url]. now apply getYouTubeId_watchUrl.
  - intros Hload. unfold isAnalysisComplete.
    cbn [with_url with_mode with_data data inputMode url isLoading].
    rewrite Hload, (getYouTubeId_watchUrl _ Hlen Hchars), Hkeep.
    cbn [is_str]. rewrite String.eqb_refl.
    apply sanitizeData_truthy in Hclean as (notes & _ & ->); reflexivity.
Qed.

Lemma loadFromHistory_marks_generated_witness :
  let st' := fst (loadFromHistory sampleEntry (urlState "")) in
  url st' = watchUrl "dQw4w9WgXcQ" /\ isAnalysisComplete st' = Some true.
Proof.
  cbv zeta.
  destruct (loadFromHistory_marks_generated sampleEntry (urlState "")
              "dQw4w9WgXcQ")
    as (clean & _ & _ & H); [reflexivity | reflexivity | reflexivity | |].
  - repeat constructor.
  - cbv zeta in H. destruct H as (_ & _ & _ & Hu & _ & _ & Hc).
    split; [exact Hu | apply Hc; reflexivity].
Defined.

End ReopenFacts.

Section EntryFacts.
Import Str App.

Lemma loaded_entries (saved : option string) :
  Forall sanitized_entry (fst (loadHistory saved)).
Proof.
  unfold loadHistory. destruct saved as [[|c r]|]; try constructor.
  unfold parseHistory.
  destruct (Json.parse (String c r)) as [v|e]; cbn [bind]; [|constructor].
  destruct (isArray v); [|constructor].
  destruct (mapM reviveItem (items v)) as [safe|e] eqn:E; cbn [bind fst];
    [|constructor].
  apply mapM_Forall2 in E. clear -E.
  induction E as [|item loaded l l' Hi _ IH]; constructor; [|exact IH].
  apply reviveItem_Ok in Hi as [_ (clean & Hclean & _ & Hfield)].
  exists (prop item "data"). now rewrite Hfield.
Qed.

Lemma saved_entries (now_id now_date : Z) (setItem refused : option Exn)
    (entries updated : list Obj) (newData : JsVal) :
  Forall sanitized_entry entries ->
  saveToHistory now_id now_date setItem entries newData
    = Ok (updated, refused) ->
  Forall sanitized_entry updated.
Proof.
  intros Hh Hsave.
  apply saveToHistory_Ok in Hsave as (sd & newItem & Hsd & Hitem & -> & _).
  apply historyItem_Ok in Hitem as (_ & Hdata & _).
  rewrite pushRecent_shape. constructor.
  - exists newData. now rewrite Hdata.
  - apply Forall_forall. intros item Hin.
    apply In_firstn in Hin. apply filter_In in Hin as [Hin _].
    revert item Hin. now apply Forall_forall.
Qed.

Lemma held_entries (saved : option string) (entries : list Obj) :
  held (fst (loadHistory saved)) entries -> Forall sanitized_entry entries.
Proof.
  induction 1 as [| |older now_id now_date setItem newData updated refused
                    _ IH Hsave].
  - constructor.
  - apply loaded_entries.
  - exact (saved_entries _ _ _ _ _ _ _ IH Hsave).
Qed.

(** X16: [loadFromHistory] on the entries the component holds.  Whatever
    the stored text was at startup and whatever was saved since, for each
    entry of a history the component holds, [loadFromHistory] shows the
    record [sanitizeData] makes of the entry's data, a call that returns,
    and leaves the error message, the history and the loading flag as
    they were.  It ends without an exception whenever the identifier of
    the entry's record has a text; the one exception it can end with is
    the TypeError of a truthy identifier that has none, thrown after the
    switch to URL mode and before the address is written. *)
Theorem history_entries_load (saved : option string) (entries : list Obj)
    (item : Obj) (st : AppState) :
  held (fst (loadHistory saved)) entries -> In item entries ->
  let st' := fst (loadFromHistory item st) in
  let videoId := prop (field item "data") "videoId" in
  (exists shown,
     sanitizeData (field item "data") = Ok shown /\
     data st' = Some shown) /\
  error st' = error st /\ history st' = history st /\
  isLoading st' = isLoading st /\
  (snd (loadFromHistory item st) = None \/
   snd (loadFromHistory item st) = Some TypeError /\
   truthy videoId = true /\ toText videoId = Throw TypeError /\
   inputMode st' = ModeUrl /\ url st' = url st) /\
  (forall id, toText videoId = Ok id ->
     snd (loadFromHistory item st) = None).
Proof.
  intros Hheld Hin. cbv zeta.
  pose proof (held_entries _ _ Hheld) as Hall.
  rewrite Forall_forall in Hall. destruct (Hall item Hin) as [raw Hraw].
  destruct (sanitizeData_again _ _ Hraw) as (shown & Hshown & _).
  destruct (sanitized_is_object _ _ Hraw) as [kvs Hobj].
  unfold loadFromHistory. cbv zeta. rewrite Hshown, Hobj. cbn [getProp].
  destruct (truthy (prop (JObj kvs) "videoId")) eqn:Hid.
  - destruct (toText (prop (JObj kvs) "videoId")) as [id|e] eqn:Htext;
      cbn [fst snd with_url with_mode with_data data error history
           isLoading inputMode url].
    + split; [now exists shown|]. repeat split; try discriminate. now left.
    + apply toText_Throw in Htext as He. subst e.
      split; [now exists shown|]. repeat split; try discriminate.
      right. now repeat split.
  - destruct (truthy (prop (JObj kvs) "transcript"));
      cbn [fst snd with_transcript with_mode with_data data error history
           isLoading];
      (split; [now exists shown|]); repeat split; now left.
Qed.

Lemma history_entries_load_witness :
  snd (loadFromHistory (hd [] (fst (loadHistory (Some storedHistory))))
         (urlState "")) = None.
Proof.
  pose proof (history_entries_load (Some storedHistory)
                (fst (loadHistory (Some storedHistory)))
                (hd [] (fst (loadHistory (Some storedHistory))))
                (urlState "") (held_loaded _)) as H.
  cbv zeta in H.
  assert (Hin : In (hd [] (fst (loadHistory (Some storedHistory))))
                   (fst (loadHistory (Some storedHistory))))
    by (vm_compute; left; reflexivity).
  destruct (H Hin) as (_ & _ & _ & _ & _ & Htext).
  exact (Htext "undefined" eq_refl).
Defined.

End EntryFacts.

Section PdfFacts.
Import Str App Pdf.

Variable generate : string -> Res (option string).

Lemma readPages_acc (pages : list (list (option string))) :
  forall i fullText,
  readPages i pages fullText = (fullText ++ readPages i pages "")%string.
Proof.
  induction pages as [|p r IH]; intros i fullText; cbn [readPages].
  - symmetry. apply watchUrl_end.
  - rewrite (IH (S i) (fullText ++ pageBlock i p)%string).
    rewrite (IH (S i) ("" ++ pageBlock i p)%string).
    cbn [append]. now rewrite span_assoc.
Qed.

(** The text read from a document with a page starts with the header of
    page 1. *)
Lemma readPages_not_blank (p : list (option string))
    (r : list (list (option string))) :
  blank (readPages 1 (p :: r) "") = false.
Proof.
  cbn [readPages]. rewrite readPages_acc.
  unfold blank, trim, pageBlock. cbn [append].
  cbn [trimStart]. change (is_space "[") with false. cbv iota.
  match goal with |- (trimEnd (String ?c ?t) =? "") = false =>
    destruct (trimEnd_head c t eq_refl) as [r' ->] end.
  reflexivity.
Qed.

(** X10: the no-text guard of [processPdfFile] fires exactly for the
    documents without pages.  The message [No text found in PDF ...] is
    shown without any request having been made if and only if the document
    was read and has no page; a document with at least one page, with or
    without text on it, always reaches the one analysis request, because
    the text [extractTextFromPdf] builds starts with the header of page 1.
    So that message is the error shown if and only if the document was
    read and has no page, unless a failure of the request or of the store
    happens to carry that very message.  When no error is shown, a record
    is shown and the application is in transcript mode with the extracted
    text, which is not blank.  The loading flag is down at the end in
    every case. *)
Theorem processPdfFile_guard (fileName : string)
    (document : Res (list (list (option string))))
    (now_id now_date : Z) (setItem : option Exn) (st : AppState) :
  let prompt := transcriptPrompt ("PDF: " ++ fileName) (videoTypeFilter st) in
  let st' :=
    fst (processPdfFile generate fileName document now_id now_date setItem
           st) in
  let calls :=
    snd (processPdfFile generate fileName document now_id now_date setItem
           st) in
  (error st' = Some noTextMessage /\ calls = [] <-> document = Ok []) /\
  ((forall e, generate prompt = Throw e -> message_of e <> noTextMessage) ->
   (forall e, setItem = Some e -> message_of e <> noTextMessage) ->
   (error st' = Some noTextMessage <-> document = Ok [])) /\
  (forall p r, document = Ok (p :: r) -> calls = [GenerateContent prompt]) /\
  (error st' = None ->
     exists pages result,
       document = Ok pages /\ pages <> [] /\
       data st' = Some result /\
       inputMode st' = ModeTranscript /\
       transcript st' = JStr (readPages 1 pages "") /\
       blank (readPages 1 pages "") = false) /\
  isLoading st' = false.
Proof.
  cbv zeta. unfold processPdfFile. cbv zeta.
  destruct document as [[|p r]|e]; cbn [extractTextFromPdf bind].
  - (* no page *)
    cbn. repeat split; try discriminate; reflexivity.
  - (* at least one page *)
    change (trim (readPages 1 (p :: r) "") =? "")
      with (blank (readPages 1 (p :: r) "")).
    rewrite readPages_not_blank.
    split.
    { split; [|discriminate]. intros [_ Hcalls]. exfalso. revert Hcalls.
      destruct (generate _) as [response|]; cbn [bind];
        [destruct (analyzeTranscript response);
         [destruct (saveToHistory _ _ _ _ _) as [[updated [e|]]|e]|]|];
        discriminate. }
    destruct (generate _) as [response|e] eqn:Hreply; cbn [bind].
    + destruct (analyzeTranscript response) as [analysed|e] eqn:Hcall.
      * destruct (saveToHistory _ _ _ _ _) as [[updated [e|]]|e] eqn:Hsave;
          cbn [fst snd settled with_transcript with_mode error data
               inputMode transcript isLoading].
        -- apply saveToHistory_Ok in Hsave as (_ & _ & _ & _ & _ & Hset).
           split.
           { intros _ Hstore. split; [|discriminate]. intros [= Hm].
             exfalso. now apply (Hstore e). }
           split; [reflexivity|]. split; [discriminate | reflexivity].
        -- split; [intros _ _; split; discriminate|].
           split; [reflexivity|]. split; [|reflexivity]. intros _.
           exists (p :: r). eexists. repeat split; try discriminate.
           apply readPages_not_blank.
        -- assert (e = TypeError) as ->.
           { unfold saveToHistory in Hsave.
             destruct (sanitizeData _) as [sd|] eqn:E; cbn [bind] in Hsave.
             - destruct (historyItem _ _ sd) eqn:Hitem; cbn [bind] in Hsave;
                 [discriminate|].
               injection Hsave as <-. now apply historyItem_Throw in Hitem.
             - injection Hsave as <-. now apply sanitizeData_Throw in E. }
           split; [intros _ _; split; discriminate|].
           split; [reflexivity|]. split; [discriminate | reflexivity].
      * cbn [fst snd settled error isLoading].
        split.
        { intros _ _. split; [|discriminate].
          apply analyzeTranscript_Throw in Hcall as [->| ->]; discriminate. }
        split; [reflexivity|]. split; [discriminate | reflexivity].
    + cbn [fst snd settled error isLoading]. split.
      { intros Hreq _. split; [|discriminate]. intros [= Hm].
        exfalso. now apply (Hreq e). }
      split; [reflexivity|]. split; [discriminate | reflexivity].
  - (* the document could not be read *)
    cbn. repeat split; try discriminate. intros [H _]. discriminate H.
Qed.

End PdfFacts.

(* ================================================================== *)
(** ** Properties: the chat log                                        *)
(* ================================================================== *)

Section PairingFacts.
Import Str Chat.

Lemma exchanges_app (l1 : list ChatMessage) :
  forall l2, exchanges l1 = true -> exchanges (l1 ++ l2) = exchanges l2.
Proof.
  revert l1. fix IH 1. intros [|question [|reply rest]] l2.
  - reflexivity.
  - discriminate.
  - cbn [exchanges app]. intros H.
    apply andb_prop in H as [H Hrest]. rewrite H. cbn [andb].
    now apply IH.
Qed.

Lemma step_filed (start : ChatState) (c : Context) (cfg : Config)
    (ev : Event) :
  balanced cfg -> filed c start cfg -> filed c start (step cfg ev).
Proof.
  intros Hb (log & Hlog & Hshape).
  destruct ev as [now later rd text|text|c'|n now reply]; cbn [step].
  - destruct (handleSend now later rd text (ui cfg)) as [|c' question st'|st']
      eqn:Hs.
    + now exists log.
    + apply handleSend_awaiting in Hs as (Hidle & _ & _ & ->).
      destruct Hb as [[Hl _]|[_ Hnone]]; [congruence|].
      unfold awaits in Hshape. rewrite Hnone in Hshape.
      unfold filed, awaits. cbn [ui inFlight]. rewrite Hnone. cbn [app].
      rewrite messagesOf_setLoading, messagesOf_setInput, messagesOf_append.
      rewrite Hlog, <- app_assoc.
      destruct c, c'; cbn [same_context].
      * eexists. split; [reflexivity|]. exists log. eexists. now repeat split.
      * exists log. split; [now rewrite app_nil_r | exact Hshape].
      * exists log. split; [now rewrite app_nil_r | exact Hshape].
      * eexists. split; [reflexivity|]. exists log. eexists. now repeat split.
    + apply handleSend_answered in Hs as (Hidle & _ & _ & question & ->).
      destruct Hb as [[Hl _]|[_ Hnone]]; [congruence|].
      unfold awaits in Hshape. rewrite Hnone in Hshape.
      unfold filed, awaits. cbn [ui inFlight]. rewrite Hnone.
      rewrite messagesOf_setLoading, messagesOf_append.
      rewrite messagesOf_setLoading, messagesOf_setInput, messagesOf_append.
      rewrite Hlog, <- !app_assoc.
      destruct c; cbn [same_context].
      * exists log. split; [now rewrite !app_nil_r | exact Hshape].
      * eexists. split; [reflexivity|].
        now rewrite exchanges_app.
  - exists log. split; [|exact Hshape]. rewrite <- Hlog. now destruct c.
  - exists log. split; [|exact Hshape]. rewrite <- Hlog. now destruct c.
  - destruct Hb as [[Hl [c0 Hc0]]|[Hl Hnone]].
    + unfold awaits in Hshape. rewrite Hc0 in Hshape. rewrite Hc0.
      destruct n as [|n].
      * cbn [nth_error remove_nth]. unfold filed, awaits. cbn [ui inFlight].
        unfold resume. rewrite messagesOf_setLoading, messagesOf_append.
        rewrite Hlog, <- app_assoc.
        destruct c, c0; cbn [same_context] in *.
        -- destruct Hshape as (done & question & -> & Hdone & Hq).
           eexists. split; [reflexivity|].
           rewrite <- app_assoc. rewrite exchanges_app by exact Hdone.
           cbn [app exchanges]. rewrite Hq.
           now destruct reply.
        -- exists log. split; [now rewrite app_nil_r | exact Hshape].
        -- exists log. split; [now rewrite app_nil_r | exact Hshape].
        -- destruct Hshape as (done & question & -> & Hdone & Hq).
           eexists. split; [reflexivity|].
           rewrite <- app_assoc. rewrite exchanges_app by exact Hdone.
           cbn [app exchanges]. rewrite Hq.
           now destruct reply.
      * assert (Hn : nth_error [c0] (S n) = None) by now destruct n.
        rewrite Hn. exists log. unfold awaits. rewrite Hc0. now split.
    + rewrite Hnone. assert (Hn : nth_error (@nil Context) n = None)
        by now destruct n.
      rewrite Hn. now exists log.
Qed.

(** X11: no reply is misfiled.  From any idle state of the chat, greeted
    or not, and after any sequence of submissions, typing, context
    switches and settling requests, what each context's log has gained is
    a sequence of exchanges, a user's question directly followed by the
    model's reply to it (or by the error notice), and nothing else but,
    while a question of that context awaits its reply, that one question
    at the end.  Switching the context while a request is in flight does
    not move its reply to the other log. *)
Theorem chat_replies_follow_questions (start : ChatState)
    (evs : list Event) (c : Context) :
  isLoading start = false ->
  let cfg := runFrom (mkConfig start []) evs in
  exists log,
    messagesOf c (ui cfg) = messagesOf c start ++ log /\
    if awaits c cfg
    then exists done question,
           log = done ++ [question] /\ exchanges done = true /\
           is_user question = true
    else exchanges log = true.
Proof.
  intros Hidle. cbv zeta.
  change (filed c start (runFrom (mkConfig start []) evs)).
  enough (H : balanced (runFrom (mkConfig start []) evs) /\
              filed c start (runFrom (mkConfig start []) evs))
    by exact (proj2 H).
  unfold runFrom.
  induction evs as [|ev evs [IHb IHf]] using rev_ind.
  - split; [right; now split|].
    exists []. split; [now rewrite app_nil_r | reflexivity].
  - rewrite fold_left_app. cbn [fold_left]. split.
    + now apply step_balanced.
    + now apply step_filed.
Qed.

Lemma chat_replies_follow_questions_witness :
  exists log,
    videoMessages
      (ui (runFrom (mkConfig (greet "Intro" None 0 initial) [])
             [ Submit 1 1 false (Some "What is it about?");
               SwitchContext Research;
               Settle 0 2 (Ok "A short introduction.") ]))
    = videoMessages (greet "Intro" None 0 initial) ++ log /\
    exchanges log = true.
Proof.
  exact (chat_replies_follow_questions (greet "Intro" None 0 initial)
           [ Submit 1 1 false (Some "What is it about?");
             SwitchContext Research;
             Settle 0 2 (Ok "A short introduction.") ]
           Video eq_refl).
Defined.

End PairingFacts.

(* ================================================================== *)
(** ** Properties: the quiz                                            *)
(* ================================================================== *)

Section QuizFacts.
Import Quiz.

Lemma quiz_step_sound (cfg : Config) (ev : Event) :
  quiz_sound cfg -> quiz_sound (step cfg ev).
Proof.
  intros Hstay. pose proof Hstay as Hs.
  destruct cfg as [st pend thr]. unfold quiz_sound in Hs.
  cbn [ui pending thrown] in Hs.
  destruct Hs as (Hthr & Hload & Hauto & Hdata). subst thr.
  destruct ev as [|n reply| |index| |]; cbn [step ui pending thrown].
  - (* effect *)
    unfold autoLoads.
    destruct (quizData st) as [qs|] eqn:Hq; [exact Hstay|].
    destruct (isLoading st) eqn:Hl; cbn [negb andb]; [exact Hstay|].
    destruct (hasError st) eqn:He; cbn [negb]; [exact Hstay|].
    destruct Hload as [[? _]|[_ ->]]; [discriminate|].
    unfold quiz_sound.
    cbn [ui pending thrown loading quizData isLoading currentQuestion score
         showResult isFinished app]. rewrite Hq.
    repeat split; try tauto. left. split; [reflexivity | now exists Auto].
  - (* settle *)
    destruct Hload as [[Hl [o ->]]|[Hl ->]].
    + destruct n as [|n].
      2:{ assert (Hn : nth_error [o] (S n) = None) by now destruct n.
          rewrite Hn. exact Hstay. }
      cbn [nth_error Chat.remove_nth]. destruct o.
      * specialize (Hauto eq_refl). rewrite Hauto in Hdata.
        destruct Hdata as (Hc & Hs & Hr & Hf).
        unfold quiz_sound. cbn [ui pending thrown].
        unfold autoSettled, failed.
        destruct reply as [[[|q qs]|]|e];
          cbn [quizData isLoading currentQuestion score showResult isFinished];
          rewrite ?Hauto, ?Hc, ?Hs, ?Hr, ?Hf; unfold answered;
          cbn [currentQuestion showResult List.length];
          repeat split; try tauto; try discriminate; try lia.
      * unfold quiz_sound. cbn [ui pending thrown].
        unfold startSettled, failed.
        destruct reply as [[[|q qs]|]|e];
          cbn [quizData isLoading currentQuestion score showResult isFinished];
          unfold answered in *;
          cbn [currentQuestion showResult List.length];
          repeat split; try tauto; try discriminate; try lia.
    + assert (Hn : nth_error (@nil Origin) n = None) by now destruct n.
      rewrite Hn. exact Hstay.
  - (* start *)
    unfold screen. destruct (isLoading st) eqn:Hl; [exact Hstay|].
    destruct Hload as [[? _]|[_ ->]]; [discriminate|].
    assert (Hgo : quiz_sound (mkConfig (startQuiz st) ([] ++ [Manual]) [])).
    { unfold quiz_sound, startQuiz, answered.
      cbn [ui pending thrown quizData isLoading currentQuestion score
           showResult isFinished app].
      repeat split; try tauto; try discriminate.
      left. split; [reflexivity | now exists Manual]. }
    destruct (hasError st); [exact Hgo|].
    destruct (quizData st) as [qs|]; [|exact Hgo].
    destruct (isFinished st); [exact Hstay|].
    destruct (nth_error qs (currentQuestion st)); exact Hstay.
  - (* option *)
    unfold screen. destruct (isLoading st) eqn:Hl; [exact Hstay|].
    destruct (hasError st); [exact Hstay|].
    destruct (quizData st) as [qs|] eqn:Hq; [|exact Hstay].
    destruct (isFinished st) eqn:Hf; [exact Hstay|].
    destruct (nth_error qs (currentQuestion st)) as [q|] eqn:Hnth;
      [|exact Hstay].
    destruct (showResult st) eqn:Hr; cbn [negb andb]; [exact Hstay|].
    destruct (index <? List.length (options q))%nat; [|exact Hstay].
    unfold handleAnswer. rewrite Hr, Hq, Hnth.
    destruct Hdata as (Hc & Hs & Hfin).
    unfold answered in *. rewrite Hr in Hs.
    destruct (Z.of_nat index =? correctAnswer q)%Z;
      unfold quiz_sound, answered;
      cbn [ui pending thrown quizData isLoading currentQuestion score
           showResult isFinished];
      rewrite ?Hq, ?Hl;
      (repeat split; try tauto; try congruence; try lia).
  - (* next *)
    unfold screen. destruct (isLoading st) eqn:Hl; [exact Hstay|].
    destruct (hasError st); [exact Hstay|].
    destruct (quizData st) as [qs|] eqn:Hq; [|exact Hstay].
    destruct (isFinished st) eqn:Hf; [exact Hstay|].
    destruct (nth_error qs (currentQuestion st)) as [q|] eqn:Hnth;
      [|exact Hstay].
    destruct (showResult st) eqn:Hr; [|exact Hstay].
    unfold nextQuestion. rewrite Hq.
    destruct Hdata as (Hc & Hs & Hfin).
    unfold answered in *. rewrite Hr in Hs.
    destruct (S (currentQuestion st) <? List.length qs)%nat eqn:Hlt;
      [apply Nat.ltb_lt in Hlt | apply Nat.ltb_ge in Hlt];
      unfold quiz_sound, answered;
      cbn [ui pending thrown quizData isLoading currentQuestion score
           showResult isFinished];
      rewrite ?Hq, ?Hl, ?Hr;
      (repeat split; try tauto; try congruence; try lia).
  - (* restart *)
    unfold screen. destruct (isLoading st) eqn:Hl; [exact Hstay|].
    destruct (hasError st); [exact Hstay|].
    destruct (quizData st) as [qs|] eqn:Hq; [|exact Hstay].
    destruct (isFinished st) eqn:Hf;
      [|destruct (nth_error qs (currentQuestion st)); exact Hstay].
    destruct Hdata as (Hc & Hs & Hfin).
    unfold quiz_sound, restartQuiz, answered.
    cbn [ui pending thrown quizData isLoading currentQuestion score
         showResult isFinished].
    rewrite ?Hq, ?Hl.
    repeat split; try tauto; try congruence; try lia.
Qed.

Lemma quiz_runFrom_sound (cfg : Config) (evs : list Event) :
  quiz_sound cfg -> quiz_sound (runFrom cfg evs).
Proof.
  unfold runFrom. revert cfg.
  induction evs as [|ev evs IH]; intros cfg Hs; [exact Hs|].
  cbn [fold_left]. apply IH. now apply quiz_step_sound.
Qed.

(** X12: the quiz never runs off its questions and never counts an answer
    twice.  After any sequence of effect runs, settling requests and
    clicks, starting from the component's initial state: no handler has
    thrown and rendering does not throw; at most one request is awaited;
    once a quiz is loaded the current question exists, the score is at
    most the number of answers given, hence at most the number of
    questions; and the final screen is reached only when every question
    has been answered. *)
Theorem quiz_score_bounded (evs : list Event) :
  let cfg := run evs in
  let st := ui cfg in
  thrown cfg = [] /\
  screen st <> RenderError /\
  List.length (pending cfg) <= 1 /\
  (forall questions,
     quizData st = Some questions ->
     currentQuestion st < List.length questions /\
     score st <= answered st /\
     score st <= List.length questions) /\
  (isFinished st = true ->
     exists questions,
       quizData st = Some questions /\ showResult st = true /\
       answered st = List.length questions).
Proof.
  cbv zeta.
  assert (Hs : quiz_sound (run evs)).
  { apply quiz_runFrom_sound. unfold quiz_sound. cbn.
    repeat split; try tauto; discriminate. }
  destruct (run evs) as [st pend thr]. unfold quiz_sound in Hs.
  cbn [ui pending thrown] in *.
  destruct Hs as (Hthr & Hload & _ & Hdata).
  split; [exact Hthr|]. split; [|split; [|split]].
  - unfold screen. destruct (isLoading st); [discriminate|].
    destruct (hasError st); [discriminate|].
    destruct (quizData st) as [qs|]; [|discriminate].
    destruct (isFinished st); [discriminate|].
    destruct Hdata as (Hc & _).
    destruct (nth_error qs (currentQuestion st)) eqn:E; [discriminate|].
    apply nth_error_None in E. lia.
  - destruct Hload as [[_ [o ->]]|[_ ->]]; cbn; lia.
  - intros qs Hq. rewrite Hq in Hdata. destruct Hdata as (Hc & Hsc & Hfin).
    repeat split; [exact Hc | exact Hsc |].
    unfold answered in *. destruct (showResult st); lia.
  - intros Hf. destruct (quizData st) as [qs|].
    + destruct Hdata as (Hc & Hsc & Hfin). destruct (Hfin Hf) as [Hr Hlast].
      exists qs. repeat split; [exact Hr|]. unfold answered. rewrite Hr. lia.
    + destruct Hdata as (_ & _ & _ & Hnf). congruence.
Qed.

(** *** A quiz played to its end *)

Lemma quiz_runFrom_cons (cfg : Config) (ev : Event) (evs : list Event) :
  runFrom cfg (ev :: evs) = runFrom (step cfg ev) evs.
Proof. reflexivity. Qed.

Lemma play_from (answers : list nat) :
  forall (questions rest : list QuizQuestion) (k s : nat) (sel : option nat),
  answers <> [] ->
  skipn k questions = rest ->
  offered answers rest = true ->
  runFrom (mkConfig (mkQuiz (Some questions) false k sel s false false None)
                    [] [])
          (play answers)
  = mkConfig (mkQuiz (Some questions) false (List.length questions - 1)
                (Some (last answers 0)) (s + correct answers rest)
                true true None) [] [].
Proof.
  induction answers as [|a answers IH];
    intros questions rest k s sel Hne Hrest Hoff; [now elim Hne|].
  destruct rest as [|q rest]; [discriminate|].
  cbn [offered] in Hoff. apply andb_prop in Hoff as [Ha Hoff].
  assert (Hnth : nth_error questions k = Some q).
  { rewrite <- (firstn_skipn k questions) at 1. rewrite Hrest.
    assert (Hlen : List.length (firstn k questions) = k).
    { apply firstn_length_le.
      assert (List.length (skipn k questions) = S (List.length rest))
        by now rewrite Hrest.
      rewrite length_skipn in H. lia. }
    rewrite nth_error_app2 by lia. rewrite Hlen, Nat.sub_diag. reflexivity. }
  assert (Hskip : skipn (S k) questions = rest).
  { replace (S k) with (1 + k) by reflexivity.
    rewrite <- skipn_skipn, Hrest. reflexivity. }
  assert (Hklen : List.length questions = S k + List.length rest).
  { rewrite <- Hskip, length_skipn.
    assert (k < List.length questions)
      by (apply nth_error_Some; congruence). lia. }
  change (play (a :: answers))
    with (ClickOption a :: ClickNext :: play answers).
  rewrite quiz_runFrom_cons.
  (* the option click *)
  assert (Hclick :
    step (mkConfig (mkQuiz (Some questions) false k sel s false false None)
                   [] []) (ClickOption a)
    = mkConfig (mkQuiz (Some questions) false k (Some a)
                  (s + (if (Z.of_nat a =? correctAnswer q)%Z then 1 else 0))
                  true false None) [] []).
  { cbn [step ui]. unfold screen, hasError.
    cbn [isLoading error quizData isFinished currentQuestion showResult].
    rewrite Hnth. cbn [negb andb]. rewrite Ha.
    unfold handleAnswer.
    cbn [isLoading error quizData isFinished currentQuestion showResult score
         pending thrown].
    rewrite Hnth.
    destruct (Z.of_nat a =? correctAnswer q)%Z;
      [rewrite Nat.add_1_r | rewrite Nat.add_0_r]; reflexivity. }
  rewrite Hclick. clear Hclick.
  set (s' := s + (if (Z.of_nat a =? correctAnswer q)%Z then 1 else 0)).
  destruct answers as [|a' answers].
  - (* the last question *)
    destruct rest as [|? ?]; [|discriminate].
    unfold runFrom. cbn [play flat_map app fold_left step ui].
    unfold screen, hasError.
    cbn [isLoading error quizData isFinished currentQuestion showResult].
    rewrite Hnth. unfold nextQuestion.
    cbn [isLoading error quizData isFinished currentQuestion showResult score
         selectedOption pending thrown].
    cbn [List.length] in Hklen.
    replace (S k <? List.length questions)%nat with false
      by (symmetry; apply Nat.ltb_ge; lia).
    cbn [correct last]. subst s'.
    replace (List.length questions - 1) with k by lia.
    now rewrite Nat.add_0_r.
  - (* on to the next question *)
    assert (Hnext :
      step (mkConfig (mkQuiz (Some questions) false k (Some a) s' true false
                        None) [] []) ClickNext
      = mkConfig (mkQuiz (Some questions) false (S k) None s' false false
                    None) [] []).
    { cbn [step ui]. unfold screen, hasError.
      cbn [isLoading error quizData isFinished currentQuestion showResult].
      rewrite Hnth. unfold nextQuestion.
      cbn [isLoading error quizData isFinished currentQuestion showResult
           score selectedOption pending thrown].
      destruct rest as [|q' rest']; [discriminate|].
      cbn [List.length] in Hklen.
      replace (S k <? List.length questions)%nat with true
        by (symmetry; apply Nat.ltb_lt; lia).
      reflexivity. }
    rewrite quiz_runFrom_cons, Hnext.
    rewrite (IH questions rest (S k) s' None ltac:(discriminate) Hskip Hoff).
    cbn [correct]. subst s'. rewrite Nat.add_assoc.
    reflexivity.
Qed.

(** X13: a quiz played through scores the correct answers.  On a loaded
    quiz, answering each question once with an option it offers and moving
    on after each answer ends on the final screen without an exception,
    and the score shown is the number of answers that name the correct
    option of their question, at most the number of questions. *)
Theorem quiz_played_through (questions : list QuizQuestion)
    (answers : list nat) :
  questions <> [] ->
  offered answers questions = true ->
  let cfg := runFrom (loaded questions) (play answers) in
  thrown cfg = [] /\
  screen (ui cfg) = FinishedScreen /\
  score (ui cfg) = correct answers questions /\
  score (ui cfg) <= List.length questions.
Proof.
  intros Hq Hoff. cbv zeta.
  assert (Hne : answers <> []).
  { destruct answers; [|discriminate]. destruct questions; [now elim Hq|].
    discriminate. }
  unfold loaded.
  rewrite (play_from answers questions questions 0 0 None Hne eq_refl Hoff).
  cbn [thrown ui score]. repeat split.
  clear Hq Hne. revert questions Hoff.
  induction answers as [|a answers IH]; intros [|q questions] Hoff;
    try discriminate; cbn [correct List.length]; [lia|].
  cbn [offered] in Hoff. apply andb_prop in Hoff as [_ Hoff].
  specialize (IH _ Hoff).
  destruct (Z.of_nat a =? correctAnswer q)%Z; lia.
Qed.

Lemma quiz_played_through_witness :
  let cfg := runFrom (loaded sampleQuiz) (play [1; 2]) in
  screen (ui cfg) = FinishedScreen /\ score (ui cfg) = 1.
Proof.
  cbv zeta.
  destruct (quiz_played_through sampleQuiz [1; 2]) as (_ & Hscreen & Hscore & _);
    [discriminate | reflexivity |].
  split; [exact Hscreen | exact Hscore].
Defined.

End QuizFacts.

(* ================================================================== *)
(** ** Properties: the result view                                     *)
(* ================================================================== *)

Section ResultFacts.
Import Str Result.

Variable positiveAfterConversion : JsVal -> bool.

Lemma strip_zeros_sign (fuel : nat) :
  forall m e, (0 <? fst (strip_zeros fuel m e))%Z = (0 <? m)%Z.
Proof.
  induction fuel as [|fuel IH]; intros m e; [reflexivity|].
  cbn [strip_zeros]. destruct (m =? 0)%Z eqn:E0.
  - apply Z.eqb_eq in E0. now subst.
  - destruct (m mod 10 =? 0)%Z eqn:E10; [|reflexivity].
    rewrite IH. apply Z.eqb_eq in E10. apply Z.eqb_neq in E0.
    destruct (0 <? m)%Z eqn:Hm.
    + apply Z.ltb_lt in Hm. apply Z.ltb_lt.
      assert (m = 10 * (m / 10))%Z by (apply Z.div_exact; lia). lia.
    + apply Z.ltb_ge in Hm. apply Z.ltb_ge.
      apply Z.div_le_upper_bound; lia.
Qed.

Lemma positive_num (n : nat) :
  positive positiveAfterConversion (num (Z.of_nat n) 0) = (0 <? n)%nat.
Proof.
  unfold num.
  pose proof (strip_zeros_sign (bits (Z.of_nat n)) (Z.of_nat n) 0) as H.
  destruct (strip_zeros _ _ _) as [m' e']. cbn [fst] in H. cbn [positive].
  rewrite H. destruct n; [reflexivity|].
  change (0 <? S n)%nat with true. apply Z.ltb_lt. lia.
Qed.

(** X14: the defensive reads at the head of [AnalysisResult] (lines
    720-735) on the records the sanitizer returns, the empty record of a
    null reply included.  On such a record each of the six lists read with
    the fallback [|| []] is an array, every study section is an object
    whose [points], read the same way, is an array, and [hasReview]
    evaluates without throwing: it holds exactly when the reply was truthy
    with a truthy review that has a non-empty array of [pros] or a truthy
    [rating]. *)
Theorem sanitized_record_renders (raw r : JsVal) :
  sanitizeData raw = Ok r ->
  (forall f, In f sequenceFields -> isArray (collection r f) = true) /\
  Forall (fun s => (exists kvs, s = JObj kvs) /\
                   isArray (collection s "points") = true)
         (items (collection r "studyNotes")) /\
  hasReview positiveAfterConversion r =
    Ok (truthy (prop raw "reviewDetails") && truthy raw
        && ((0 <? List.length (items (prop (prop raw "reviewDetails") "pros")))%nat
            || truthy (prop (prop raw "reviewDetails") "rating"))).
Proof.
  intros Hr. destruct (truthy raw) eqn:Ht.
  - apply sanitizeData_truthy in Hr as (notes & Hn & ->); [|exact Ht].
    set (r := JObj _).
    assert (Hw : forall k v, In (k, v) (sanitizedProps raw notes) ->
                   prop r k = v)
      by (intros k v Hin; now apply sanitized_written).
    split; [|split].
    + intros f Hin. unfold collection.
      assert (Harr : isArray (prop r f) = true).
      { simpl in Hin.
        destruct Hin as [<-|[<-|[<-|[<-|[<-|[<-|[]]]]]]];
          (erewrite Hw; [|simpl; eauto 10]);
          try apply ensureArray_isArray; reflexivity. }
      unfold js_or. destruct (prop r f); try discriminate. reflexivity.
    + unfold collection.
      rewrite (Hw "studyNotes" (JArr notes)) by (simpl; tauto).
      cbn [js_or truthy items].
      apply mapM_Forall2 in Hn. clear -Hn.
      induction Hn as [|s s' l l' Hs _ IH]; constructor; [|exact IH].
      pose proof (sanitizeSection_points _ _ Hs) as Hp.
      apply sanitizeSection_Ok in Hs as [_ ->].
      split; [eexists; reflexivity|].
      unfold collection. rewrite Hp. unfold js_or, ensureArray.
      destruct (isArray (prop s "points")) eqn:E; [|reflexivity].
      destruct (prop s "points"); try discriminate. reflexivity.
    + unfold hasReview. cbv zeta.
      erewrite (Hw "reviewDetails") by (simpl; eauto 10).
      destruct (truthy (prop raw "reviewDetails")) eqn:Erd.
      * rewrite sanitizeReview_truthy. cbn [andb].
        assert (Hpros : prop (sanitizeReview (prop raw "reviewDetails")) "pros"
                        = ensureArray (prop (prop raw "reviewDetails") "pros"))
          by reflexivity.
        assert (Hrating :
                  prop (sanitizeReview (prop raw "reviewDetails")) "rating"
                  = prop (prop raw "reviewDetails") "rating")
          by reflexivity.
        rewrite Hpros, Hrating. unfold ensureArray.
        destruct (prop (prop raw "reviewDetails") "pros");
          cbn [isArray lengthOf bind items];
          rewrite positive_num; reflexivity.
      * reflexivity.
  - rewrite (sanitizeData_falsy _ Ht) in Hr. injection Hr as <-.
    split; [|split].
    + intros f _. reflexivity.
    + constructor.
    + rewrite andb_false_r. reflexivity.
Qed.

Lemma lower_plain (c : ascii) :
  plain (lower (if is_alnum c then c else "_"%char)) = true.
Proof.
  destruct c as [[] [] [] [] [] [] [] []]; reflexivity.
Qed.

(** X15: the name [handleExport] gives the download is made of the title,
    character for character, followed by [_notes.md], where every
    character of the title that is no ASCII letter or digit has become an
    underscore and every letter is in lower case: the stem holds nothing
    but lower-case letters, digits and underscores, so no separator, dot
    or blank of the title reaches the file name. *)
Theorem exportFileName_plain (title : string) :
  exists stem,
    exportFileName title = (stem ++ "_notes.md")%string /\
    all_chars plain stem = true /\
    String.length stem = String.length title.
Proof.
  exists (toLowerCase (underscored title)). split; [reflexivity|].
  induction title as [|c r [IH1 IH2]]; [now split|].
  cbn [underscored toLowerCase all_chars String.length].
  now rewrite lower_plain, IH1, IH2.
Qed.

End ResultFacts.

Section ResultWitnesses.
Import Str Result.

Lemma sanitized_record_renders_witness :
  exists r,
    sanitizeData sampleRecord = Ok r /\
    isArray (collection r "quotes") = true /\
    hasReview (fun _ => false) r = Ok true.
Proof.
  eexists. split; [reflexivity|].
  destruct (sanitized_record_renders (fun _ => false) sampleRecord _ eq_refl)
    as (Hseq & _ & Hrev).
  split; [apply Hseq; simpl; tauto | exact Hrev].
Defined.

End ResultWitnesses.
